(** * VirtualC64: cartridge bank mapping and the VIA 6522

    A shallow embedding of [C64/Cartridge.cpp] and [C64/VIA6522.cpp].
    Machine integers are [Z] with the wrap-around written out, C arrays are
    lists indexed with stdpp's lookup and insert, and an operation that the
    C++ code guards with [assert] (or that would read or write out of
    bounds) returns [None]. *)

From Stdlib Require Import ZArith Lia Bool Ascii String.
From stdpp Require Import base list.

(** ** Machine integers and the bit macros *)

Definition u8 (x : Z) : Z := x mod 256.
Definition u16 (x : Z) : Z := x mod 65536.
Definition u32 (x : Z) : Z := x mod 4294967296.
Definition u64 (x : Z) : Z := x mod 18446744073709551616.

(** C's "nonzero is true". *)
Definition truthy (x : Z) : bool := negb (x =? 0)%Z.

(** The line feed that ends most diagnostics of the source. *)
Definition LF : string := String "010"%char EmptyString.

(** ** Cartridge *)

Module Cartridge.

Local Open Scope Z_scope.

(** The data members of class [Cartridge].  A chip packet is [None] for a
    [NULL] pointer and [Some bytes] for an allocated buffer. *)
Record state := mk {
  gameLine : bool;
  exromLine : bool;
  chip : list (option (list Z));      (* uint8_t *chip[64] *)
  chipStartAddress : list Z;          (* uint16_t chipStartAddress[64] *)
  chipSize : list Z;                  (* uint16_t chipSize[64] *)
  rom : list Z;                       (* uint8_t rom[0x8000] *)
  blendedIn : list Z;                 (* uint8_t blendedIn[16] *)
  lastBlendedIn : Z                   (* uint8_t *)
}.

Definition set_gameLine (x : bool) (c : state) : state :=
  mk x (exromLine c) (chip c) (chipStartAddress c) (chipSize c)
     (rom c) (blendedIn c) (lastBlendedIn c).
Definition set_exromLine (x : bool) (c : state) : state :=
  mk (gameLine c) x (chip c) (chipStartAddress c) (chipSize c)
     (rom c) (blendedIn c) (lastBlendedIn c).
Definition set_chip (x : list (option (list Z))) (c : state) : state :=
  mk (gameLine c) (exromLine c) x (chipStartAddress c) (chipSize c)
     (rom c) (blendedIn c) (lastBlendedIn c).
Definition set_chipStartAddress (x : list Z) (c : state) : state :=
  mk (gameLine c) (exromLine c) (chip c) x (chipSize c)
     (rom c) (blendedIn c) (lastBlendedIn c).
Definition set_chipSize (x : list Z) (c : state) : state :=
  mk (gameLine c) (exromLine c) (chip c) (chipStartAddress c) x
     (rom c) (blendedIn c) (lastBlendedIn c).
Definition set_rom (x : list Z) (c : state) : state :=
  mk (gameLine c) (exromLine c) (chip c) (chipStartAddress c) (chipSize c)
     x (blendedIn c) (lastBlendedIn c).
Definition set_blendedIn (x : list Z) (c : state) : state :=
  mk (gameLine c) (exromLine c) (chip c) (chipStartAddress c) (chipSize c)
     (rom c) x (lastBlendedIn c).
Definition set_lastBlendedIn (x : Z) (c : state) : state :=
  mk (gameLine c) (exromLine c) (chip c) (chipStartAddress c) (chipSize c)
     (rom c) (blendedIn c) x.

(** The constructor [Cartridge::Cartridge]. *)
Definition init : state :=
  mk true true (replicate 64 None) (replicate 64 0) (replicate 64 0)
     (replicate (Z.to_nat 32768) 0) (replicate 16 0) 255.

(** [memcpy(dst + off, src, n)]: [None] when the copy would leave either
    buffer. *)
Definition memcpy (dst : list Z) (off : Z) (src : list Z) (n : Z)
  : option (list Z) :=
  if (0 <=? off) && (0 <=? n) && (off + n <=? Z.of_nat (length dst))
     && (n <=? Z.of_nat (length src))
  then Some (take (Z.to_nat off) dst ++ take (Z.to_nat n) src
               ++ drop (Z.to_nat (off + n)) dst)
  else None.

(** [for (unsigned i = lo; i < hi; i++) a[i] = v;] *)
Definition fill (a : list Z) (lo hi : Z) (v : Z) : list Z :=
  foldl (λ acc i, <[i:=v]> acc) a
        (seq (Z.to_nat lo) (Z.to_nat hi - Z.to_nat lo)).

(** [Cartridge::bankIn].  The console tracing ([debug], [printf]) at the end
    is not part of the state and is left out. *)
Definition bankIn (c : state) (nr : nat) : option state :=
  if negb (nr <? 64)%nat then None else               (* assert(nr < 64) *)
  data ← mjoin (chip c !! nr);                        (* assert(chip[nr] != NULL) *)
  if Z.of_nat nr =? lastBlendedIn c then Some c else  (* data is up to date *)
  start ← chipStartAddress c !! nr;
  size ← chipSize c !! nr;
  let end_ := u16 (start + size) in
  if negb (size <=? 0xFFFF - start) then None else    (* assert(0xFFFF - start >= size) *)
  rom' ← memcpy (rom c) (start - 0x8000) data size;
  Some (set_lastBlendedIn (u8 (Z.of_nat nr))
         (set_blendedIn
            (fill (blendedIn c) (Z.shiftr start 12) (Z.shiftr end_ 12) 1)
            (set_rom rom' c))).

(** [Cartridge::bankOut]. *)
Definition bankOut (c : state) (nr : nat) : option state :=
  if negb (nr <? 64)%nat then None else               (* assert(nr < 64) *)
  _ ← mjoin (chip c !! nr);                           (* assert(chip[nr] != NULL) *)
  start ← chipStartAddress c !! nr;
  size ← chipSize c !! nr;
  let end_ := u16 (start + size) in
  if negb (size <=? 0xFFFF - start) then None else    (* assert(0xFFFF - start >= size) *)
  Some (set_blendedIn
          (fill (blendedIn c) (Z.shiftr start 12) (Z.shiftr end_ 12) 0) c).

(** Modelled from the spec: class [CRTContainer] is declared outside the two
    source files; [loadChip] only uses its three per-chip getters ("from a
    container format", section 3). *)
Record CRTContainer := {
  getChipAddr : nat → Z;
  getChipSize : nat → Z;
  getChipData : nat → list Z
}.

(** The two [warn] diagnostics of [loadChip], with their arguments. *)
Inductive diagnostic :=
  | StartAddressTooLow (nr : nat) (start : Z)
  | InvalidSize (nr : nat) (start size : Z).

(** [Cartridge::loadChip].  [malloc_ok] tells whether [malloc(size)] returns
    a buffer; the result carries the diagnostics emitted. *)
Definition loadChip (c : state) (nr : nat) (crt : CRTContainer)
    (malloc_ok : bool) : option (state * list diagnostic) :=
  if negb (nr <? 64)%nat then None else               (* assert(nr < 64) *)
  let start := u16 (getChipAddr crt nr) in
  let size := u16 (getChipSize crt nr) in
  let data := getChipData crt nr in
  if start <? 0x8000 then Some (c, [StartAddressTooLow nr start]) else
  if 0xFFFF - start <? size then Some (c, [InvalidSize nr start size]) else
  (* if (chip[nr]) free(chip[nr]); chip[nr] = malloc(size) *)
  if negb malloc_ok then Some (set_chip (<[nr:=None]> (chip c)) c, []) else
  if negb (size <=? Z.of_nat (length data)) then None else
  Some (set_chip (<[nr:=Some (take (Z.to_nat size) data)]> (chip c))
         (set_chipSize (<[nr:=size]> (chipSize c))
           (set_chipStartAddress (<[nr:=start]> (chipStartAddress c)) c)),
        []).

(** Modelled from the spec: the snapshot buffer helpers [write8], [write16],
    [writeBlock], [read8], [read16] and [readBlock] are declared outside the
    two source files.  Section 6 fixes the layout: fixed-width fields, the
    16-bit ones as two bytes, low byte first.  A buffer being written is the
    list of bytes produced so far; a buffer being read is the list of bytes
    not yet consumed, and reading past its end is [None]. *)
Definition write8 (x : Z) : list Z := [x].
Definition write16 (x : Z) : list Z := [u8 x; u8 (Z.shiftr x 8)].
Definition writeBlock (src : list Z) (n : Z) : option (list Z) :=
  if n <=? Z.of_nat (length src) then Some (take (Z.to_nat n) src) else None.
Definition read8 (buf : list Z) : option (Z * list Z) :=
  match buf with
  | b :: rest => Some (b, rest)
  | [] => None
  end.
Definition read16 (buf : list Z) : option (Z * list Z) :=
  '(lo, buf) ← read8 buf;
  '(hi, buf) ← read8 buf;
  Some (Z.lor (Z.shiftl hi 8) lo, buf).
Definition readBlock (buf : list Z) (n : Z) : option (list Z * list Z) :=
  if n <=? Z.of_nat (length buf)
  then Some (take (Z.to_nat n) buf, drop (Z.to_nat n) buf)
  else None.

Definition sizeof_rom : Z := 0x8000.
Definition sizeof_blendedIn : Z := 16.

(** [Cartridge::stateSize]. *)
Definition stateSize (c : state) : Z :=
  let size := 2 in
  let size :=
    foldl (λ size i, u32 (size + (4 + nth i (chipSize c) 0))) size (seq 0 64) in
  let size := u32 (size + sizeof_rom) in
  let size := u32 (size + sizeof_blendedIn) in
  u32 (size + 1).

(** One turn of the loop of [saveToBuffer]. *)
Definition saveChip (c : state) (buf : list Z) (i : nat) : option (list Z) :=
  start ← chipStartAddress c !! i;
  size ← chipSize c !! i;
  let buf := buf ++ write16 start in
  let buf := buf ++ write16 size in
  if 0 <? size then
    data ← mjoin (chip c !! i);
    blk ← writeBlock data size;
    Some (buf ++ blk)
  else Some buf.

(** The writes of [Cartridge::saveToBuffer], before its closing assertion. *)
Definition saveToBuffer_writes (c : state) : option (list Z) :=
  let buf := write8 (Z.b2z (gameLine c)) in
  let buf := buf ++ write8 (Z.b2z (exromLine c)) in
  buf ← foldl (λ acc i, buf ← acc; saveChip c buf i) (Some buf) (seq 0 64);
  blk ← writeBlock (rom c) sizeof_rom;
  let buf := buf ++ blk in
  blk ← writeBlock (blendedIn c) sizeof_blendedIn;
  let buf := buf ++ blk in
  Some (buf ++ write8 (lastBlendedIn c)).

(** [Cartridge::saveToBuffer]: the bytes written. *)
Definition saveToBuffer (c : state) : option (list Z) :=
  buf ← saveToBuffer_writes c;
  (* assert: the number of bytes moved equals stateSize() *)
  if Z.of_nat (length buf) =? stateSize c then Some buf else None.

(** One turn of the loop of [loadFromBuffer]. *)
Definition loadChipSlot (st : state * list Z) (i : nat)
  : option (state * list Z) :=
  let '(c, buf) := st in
  '(start, buf) ← read16 buf;
  let c := set_chipStartAddress (<[i:=start]> (chipStartAddress c)) c in
  '(size, buf) ← read16 buf;
  let c := set_chipSize (<[i:=size]> (chipSize c)) c in
  if 0 <? size then
    '(data, buf) ← readBlock buf size;
    Some (set_chip (<[i:=Some data]> (chip c)) c, buf)
  else Some (set_chip (<[i:=None]> (chip c)) c, buf).

(** The reads of [Cartridge::loadFromBuffer], before its closing assertion. *)
Definition loadFromBuffer_reads (c : state) (buf : list Z)
  : option (state * list Z) :=
  '(g, buf) ← read8 buf;
  let c := set_gameLine (truthy g) c in
  '(e, buf) ← read8 buf;
  let c := set_exromLine (truthy e) c in
  '(c, buf) ← foldl (λ acc i, st ← acc; loadChipSlot st i) (Some (c, buf))
                    (seq 0 64);
  '(blk, buf) ← readBlock buf sizeof_rom;
  let c := set_rom blk c in
  '(blk, buf) ← readBlock buf sizeof_blendedIn;
  let c := set_blendedIn blk c in
  '(l, buf) ← read8 buf;
  Some (set_lastBlendedIn l c, buf).

(** [Cartridge::loadFromBuffer]: the cartridge read and the bytes left. *)
Definition loadFromBuffer (c : state) (buf : list Z)
  : option (state * list Z) :=
  '(c', rest) ← loadFromBuffer_reads c buf;
  (* assert: the number of bytes moved equals stateSize() *)
  if Z.of_nat (length buf) - Z.of_nat (length rest) =? stateSize c'
  then Some (c', rest) else None.

(** The notifications a cartridge sends to the expansion port. *)
Inductive notification := gameLineHasChanged | exromLineHasChanged.

(** [Cartridge::reset].  [VirtualComponent::reset] finds nothing to clear:
    the constructor registers no snapshot items. *)
Definition reset (c : state) : option state :=
  match mjoin (chip c !! 0%nat) with
  | Some _ => bankIn c 0                              (* if(chip[0] != NULL) *)
  | None => Some c
  end.

(** [Cartridge::powerup], with the notifications it sends. *)
Definition powerup (c : state) : option (state * list notification) :=
  c ← match mjoin (chip c !! 0%nat) with
      | Some _ => bankIn c 0                          (* if (chip[0]) *)
      | None => Some c
      end;
  Some (c, [gameLineHasChanged; exromLineHasChanged]).

(** [Cartridge::setGameLine] and [Cartridge::setExromLine]. *)
Definition setGameLine (value : bool) (c : state)
  : state * list notification :=
  (set_gameLine value c, [gameLineHasChanged]).
Definition setExromLine (value : bool) (c : state)
  : state * list notification :=
  (set_exromLine value c, [exromLineHasChanged]).

(** [chip[i] != NULL]. *)
Definition chipPresent (c : state) (i : nat) : bool :=
  match mjoin (chip c !! i) with
  | Some _ => true
  | None => false
  end.

(** [Cartridge::numberOfChips]. *)
Definition numberOfChips (c : state) : Z :=
  foldl (λ result i, if chipPresent c i then u32 (result + 1) else result)
        0 (seq 0 64).

(** [Cartridge::numberOfBytes]. *)
Definition numberOfBytes (c : state) : Z :=
  foldl (λ result i,
           if chipPresent c i then u32 (result + nth i (chipSize c) 0)
           else result)
        0 (seq 0 64).

End Cartridge.

(** ** VIA 6522 (commons) *)

Module VIA6522.

Local Open Scope Z_scope.

(** The tags of the drive CPU's interrupt line ([CPU::VIA], [CPU::ATN]). *)
Inductive IrqSource := VIA | ATN.

(** The calls a VIA makes on its collaborators (the drive CPU, the floppy
    mechanics, the IEC bus) and the diagnostics it prints. *)
Inductive call :=
  | pullDownIrqLine (src : IrqSource)
  | releaseIrqLine (src : IrqSource)
  | updateDevicePins (orb ddrb : Z)
  | setZone (zone : Z)
  | setRedLED (on : bool)
  | setRotating (on : bool)
  | moveHeadUp
  | moveHeadDown
  | warn (msg : string)
  | debug (msg : string).

(** What a VIA reads from its collaborators. *)
Record inputs := {
  getAtnLine : bool;
  getClockLine : bool;
  getDataLine : bool;
  getSync : bool;
  getLightBarrier : bool
}.

(** The snapshot items of class [VIA6522], followed by the collaborators'
    side: the inputs read and the calls made so far. *)
Record state := mk {
  pa : Z;                        (* uint8_t *)
  ca1 : bool;                    (* bool *)
  ca2 : bool;                    (* bool *)
  ca2_out : bool;                (* bool *)
  pb : Z;                        (* uint8_t *)
  cb1 : bool;                    (* bool *)
  cb2 : bool;                    (* bool *)
  cb2_out : bool;                (* bool *)
  ddra : Z;                      (* uint8_t *)
  ddrb : Z;                      (* uint8_t *)
  ora : Z;                       (* uint8_t *)
  orb : Z;                       (* uint8_t *)
  ira : Z;                       (* uint8_t *)
  irb : Z;                       (* uint8_t *)
  t1 : Z;                        (* uint16_t *)
  t2 : Z;                        (* uint16_t *)
  t1_latch_lo : Z;               (* uint8_t *)
  t1_latch_hi : Z;               (* uint8_t *)
  t2_latch_lo : Z;               (* uint8_t *)
  pb7toggle : bool;              (* bool *)
  pb7timerOut : bool;            (* bool *)
  pcr : Z;                       (* uint8_t *)
  acr : Z;                       (* uint8_t *)
  ier : Z;                       (* uint8_t *)
  ifr : Z;                       (* uint8_t *)
  sr : Z;                        (* uint8_t *)
  delay : Z;                     (* uint64_t *)
  feed : Z;                      (* uint64_t *)
  env : inputs;                  (* collaborator inputs *)
  calls : list call              (* collaborator calls, oldest first *)
}.

Definition set_pa (x : Z) (v : state) : state :=
  mk x (ca1 v) (ca2 v) (ca2_out v) (pb v) (cb1 v) (cb2 v) (cb2_out v)
     (ddra v) (ddrb v) (ora v) (orb v) (ira v) (irb v) (t1 v) (t2 v)
     (t1_latch_lo v) (t1_latch_hi v) (t2_latch_lo v) (pb7toggle v)
     (pb7timerOut v) (pcr v) (acr v) (ier v) (ifr v) (sr v) (delay v)
     (feed v) (env v) (calls v).
Definition set_ca2_out (x : bool) (v : state) : state :=
  mk (pa v) (ca1 v) (ca2 v) x (pb v) (cb1 v) (cb2 v) (cb2_out v) (ddra v)
     (ddrb v) (ora v) (orb v) (ira v) (irb v) (t1 v) (t2 v) (t1_latch_lo v)
     (t1_latch_hi v) (t2_latch_lo v) (pb7toggle v) (pb7timerOut v) (pcr v)
     (acr v) (ier v) (ifr v) (sr v) (delay v) (feed v) (env v) (calls v).
Definition set_pb (x : Z) (v : state) : state :=
  mk (pa v) (ca1 v) (ca2 v) (ca2_out v) x (cb1 v) (cb2 v) (cb2_out v)
     (ddra v) (ddrb v) (ora v) (orb v) (ira v) (irb v) (t1 v) (t2 v)
     (t1_latch_lo v) (t1_latch_hi v) (t2_latch_lo v) (pb7toggle v)
     (pb7timerOut v) (pcr v) (acr v) (ier v) (ifr v) (sr v) (delay v)
     (feed v) (env v) (calls v).
Definition set_cb2_out (x : bool) (v : state) : state :=
  mk (pa v) (ca1 v) (ca2 v) (ca2_out v) (pb v) (cb1 v) (cb2 v) x (ddra v)
     (ddrb v) (ora v) (orb v) (ira v) (irb v) (t1 v) (t2 v) (t1_latch_lo v)
     (t1_latch_hi v) (t2_latch_lo v) (pb7toggle v) (pb7timerOut v) (pcr v)
     (acr v) (ier v) (ifr v) (sr v) (delay v) (feed v) (env v) (calls v).
Definition set_ddra (x : Z) (v : state) : state :=
  mk (pa v) (ca1 v) (ca2 v) (ca2_out v) (pb v) (cb1 v) (cb2 v) (cb2_out v) x
     (ddrb v) (ora v) (orb v) (ira v) (irb v) (t1 v) (t2 v) (t1_latch_lo v)
     (t1_latch_hi v) (t2_latch_lo v) (pb7toggle v) (pb7timerOut v) (pcr v)
     (acr v) (ier v) (ifr v) (sr v) (delay v) (feed v) (env v) (calls v).
Definition set_ddrb (x : Z) (v : state) : state :=
  mk (pa v) (ca1 v) (ca2 v) (ca2_out v) (pb v) (cb1 v) (cb2 v) (cb2_out v)
     (ddra v) x (ora v) (orb v) (ira v) (irb v) (t1 v) (t2 v)
     (t1_latch_lo v) (t1_latch_hi v) (t2_latch_lo v) (pb7toggle v)
     (pb7timerOut v) (pcr v) (acr v) (ier v) (ifr v) (sr v) (delay v)
     (feed v) (env v) (calls v).
Definition set_ora (x : Z) (v : state) : state :=
  mk (pa v) (ca1 v) (ca2 v) (ca2_out v) (pb v) (cb1 v) (cb2 v) (cb2_out v)
     (ddra v) (ddrb v) x (orb v) (ira v) (irb v) (t1 v) (t2 v)
     (t1_latch_lo v) (t1_latch_hi v) (t2_latch_lo v) (pb7toggle v)
     (pb7timerOut v) (pcr v) (acr v) (ier v) (ifr v) (sr v) (delay v)
     (feed v) (env v) (calls v).
Definition set_orb (x : Z) (v : state) : state :=
  mk (pa v) (ca1 v) (ca2 v) (ca2_out v) (pb v) (cb1 v) (cb2 v) (cb2_out v)
     (ddra v) (ddrb v) (ora v) x (ira v) (irb v) (t1 v) (t2 v)
     (t1_latch_lo v) (t1_latch_hi v) (t2_latch_lo v) (pb7toggle v)
     (pb7timerOut v) (pcr v) (acr v) (ier v) (ifr v) (sr v) (delay v)
     (feed v) (env v) (calls v).
Definition set_t1 (x : Z) (v : state) : state :=
  mk (pa v) (ca1 v) (ca2 v) (ca2_out v) (pb v) (cb1 v) (cb2 v) (cb2_out v)
     (ddra v) (ddrb v) (ora v) (orb v) (ira v) (irb v) x (t2 v)
     (t1_latch_lo v) (t1_latch_hi v) (t2_latch_lo v) (pb7toggle v)
     (pb7timerOut v) (pcr v) (acr v) (ier v) (ifr v) (sr v) (delay v)
     (feed v) (env v) (calls v).
Definition set_t2 (x : Z) (v : state) : state :=
  mk (pa v) (ca1 v) (ca2 v) (ca2_out v) (pb v) (cb1 v) (cb2 v) (cb2_out v)
     (ddra v) (ddrb v) (ora v) (orb v) (ira v) (irb v) (t1 v) x
     (t1_latch_lo v) (t1_latch_hi v) (t2_latch_lo v) (pb7toggle v)
     (pb7timerOut v) (pcr v) (acr v) (ier v) (ifr v) (sr v) (delay v)
     (feed v) (env v) (calls v).
Definition set_t1_latch_lo (x : Z) (v : state) : state :=
  mk (pa v) (ca1 v) (ca2 v) (ca2_out v) (pb v) (cb1 v) (cb2 v) (cb2_out v)
     (ddra v) (ddrb v) (ora v) (orb v) (ira v) (irb v) (t1 v) (t2 v) x
     (t1_latch_hi v) (t2_latch_lo v) (pb7toggle v) (pb7timerOut v) (pcr v)
     (acr v) (ier v) (ifr v) (sr v) (delay v) (feed v) (env v) (calls v).
Definition set_t1_latch_hi (x : Z) (v : state) : state :=
  mk (pa v) (ca1 v) (ca2 v) (ca2_out v) (pb v) (cb1 v) (cb2 v) (cb2_out v)
     (ddra v) (ddrb v) (ora v) (orb v) (ira v) (irb v) (t1 v) (t2 v)
     (t1_latch_lo v) x (t2_latch_lo v) (pb7toggle v) (pb7timerOut v) (pcr v)
     (acr v) (ier v) (ifr v) (sr v) (delay v) (feed v) (env v) (calls v).
Definition set_t2_latch_lo (x : Z) (v : state) : state :=
  mk (pa v) (ca1 v) (ca2 v) (ca2_out v) (pb v) (cb1 v) (cb2 v) (cb2_out v)
     (ddra v) (ddrb v) (ora v) (orb v) (ira v) (irb v) (t1 v) (t2 v)
     (t1_latch_lo v) (t1_latch_hi v) x (pb7toggle v) (pb7timerOut v) (pcr v)
     (acr v) (ier v) (ifr v) (sr v) (delay v) (feed v) (env v) (calls v).
Definition set_pb7toggle (x : bool) (v : state) : state :=
  mk (pa v) (ca1 v) (ca2 v) (ca2_out v) (pb v) (cb1 v) (cb2 v) (cb2_out v)
     (ddra v) (ddrb v) (ora v) (orb v) (ira v) (irb v) (t1 v) (t2 v)
     (t1_latch_lo v) (t1_latch_hi v) (t2_latch_lo v) x (pb7timerOut v)
     (pcr v) (acr v) (ier v) (ifr v) (sr v) (delay v) (feed v) (env v)
     (calls v).
Definition set_pb7timerOut (x : bool) (v : state) : state :=
  mk (pa v) (ca1 v) (ca2 v) (ca2_out v) (pb v) (cb1 v) (cb2 v) (cb2_out v)
     (ddra v) (ddrb v) (ora v) (orb v) (ira v) (irb v) (t1 v) (t2 v)
     (t1_latch_lo v) (t1_latch_hi v) (t2_latch_lo v) (pb7toggle v) x (pcr v)
     (acr v) (ier v) (ifr v) (sr v) (delay v) (feed v) (env v) (calls v).
Definition set_pcr (x : Z) (v : state) : state :=
  mk (pa v) (ca1 v) (ca2 v) (ca2_out v) (pb v) (cb1 v) (cb2 v) (cb2_out v)
     (ddra v) (ddrb v) (ora v) (orb v) (ira v) (irb v) (t1 v) (t2 v)
     (t1_latch_lo v) (t1_latch_hi v) (t2_latch_lo v) (pb7toggle v)
     (pb7timerOut v) x (acr v) (ier v) (ifr v) (sr v) (delay v) (feed v)
     (env v) (calls v).
Definition set_acr (x : Z) (v : state) : state :=
  mk (pa v) (ca1 v) (ca2 v) (ca2_out v) (pb v) (cb1 v) (cb2 v) (cb2_out v)
     (ddra v) (ddrb v) (ora v) (orb v) (ira v) (irb v) (t1 v) (t2 v)
     (t1_latch_lo v) (t1_latch_hi v) (t2_latch_lo v) (pb7toggle v)
     (pb7timerOut v) (pcr v) x (ier v) (ifr v) (sr v) (delay v) (feed v)
     (env v) (calls v).
Definition set_ier (x : Z) (v : state) : state :=
  mk (pa v) (ca1 v) (ca2 v) (ca2_out v) (pb v) (cb1 v) (cb2 v) (cb2_out v)
     (ddra v) (ddrb v) (ora v) (orb v) (ira v) (irb v) (t1 v) (t2 v)
     (t1_latch_lo v) (t1_latch_hi v) (t2_latch_lo v) (pb7toggle v)
     (pb7timerOut v) (pcr v) (acr v) x (ifr v) (sr v) (delay v) (feed v)
     (env v) (calls v).
Definition set_ifr (x : Z) (v : state) : state :=
  mk (pa v) (ca1 v) (ca2 v) (ca2_out v) (pb v) (cb1 v) (cb2 v) (cb2_out v)
     (ddra v) (ddrb v) (ora v) (orb v) (ira v) (irb v) (t1 v) (t2 v)
     (t1_latch_lo v) (t1_latch_hi v) (t2_latch_lo v) (pb7toggle v)
     (pb7timerOut v) (pcr v) (acr v) (ier v) x (sr v) (delay v) (feed v)
     (env v) (calls v).
Definition set_sr (x : Z) (v : state) : state :=
  mk (pa v) (ca1 v) (ca2 v) (ca2_out v) (pb v) (cb1 v) (cb2 v) (cb2_out v)
     (ddra v) (ddrb v) (ora v) (orb v) (ira v) (irb v) (t1 v) (t2 v)
     (t1_latch_lo v) (t1_latch_hi v) (t2_latch_lo v) (pb7toggle v)
     (pb7timerOut v) (pcr v) (acr v) (ier v) (ifr v) x (delay v) (feed v)
     (env v) (calls v).
Definition set_delay (x : Z) (v : state) : state :=
  mk (pa v) (ca1 v) (ca2 v) (ca2_out v) (pb v) (cb1 v) (cb2 v) (cb2_out v)
     (ddra v) (ddrb v) (ora v) (orb v) (ira v) (irb v) (t1 v) (t2 v)
     (t1_latch_lo v) (t1_latch_hi v) (t2_latch_lo v) (pb7toggle v)
     (pb7timerOut v) (pcr v) (acr v) (ier v) (ifr v) (sr v) x (feed v)
     (env v) (calls v).
Definition set_feed (x : Z) (v : state) : state :=
  mk (pa v) (ca1 v) (ca2 v) (ca2_out v) (pb v) (cb1 v) (cb2 v) (cb2_out v)
     (ddra v) (ddrb v) (ora v) (orb v) (ira v) (irb v) (t1 v) (t2 v)
     (t1_latch_lo v) (t1_latch_hi v) (t2_latch_lo v) (pb7toggle v)
     (pb7timerOut v) (pcr v) (acr v) (ier v) (ifr v) (sr v) (delay v) x
     (env v) (calls v).
Definition set_calls (x : list call) (v : state) : state :=
  mk (pa v) (ca1 v) (ca2 v) (ca2_out v) (pb v) (cb1 v) (cb2 v) (cb2_out v)
     (ddra v) (ddrb v) (ora v) (orb v) (ira v) (irb v) (t1 v) (t2 v)
     (t1_latch_lo v) (t1_latch_hi v) (t2_latch_lo v) (pb7toggle v)
     (pb7timerOut v) (pcr v) (acr v) (ier v) (ifr v) (sr v) (delay v)
     (feed v) (env v) x.

(** A call on a collaborator. *)
Definition emit (c : call) (v : state) : state := set_calls (calls v ++ [c]) v.

(** Modelled from the spec: the bit and byte macros come from a header that
    is not among the sources; they are given their usual meaning, which the
    comments at their uses confirm ("T1 INTERRUPT FLAG ... BIT 6"). *)
Definition SET_BIT (x nr : Z) : Z := Z.lor x (Z.shiftl 1 nr).
Definition CLR_BIT (x nr : Z) : Z := Z.land x (Z.lnot (Z.shiftl 1 nr)).
Definition GET_BIT (x nr : Z) : Z := Z.land x (Z.shiftl 1 nr).
Definition HI_LO (hi lo : Z) : Z := u16 (Z.lor (Z.shiftl hi 8) lo).
Definition LO_BYTE (x : Z) : Z := Z.land x 0xFF.
Definition HI_BYTE (x : Z) : Z := u8 (Z.shiftr x 8).

(** The bit masks of the [delay]/[feed] pipeline.  [VIA6522.h] is not among
    the sources, so the masks the code names are parameters of the model. *)
Class Pipeline := {
  VIACountA0 : Z;
  VIACountA1 : Z;
  VIACountB0 : Z;
  VIACountB1 : Z;
  VIAReloadA0 : Z;
  VIAReloadA2 : Z;
  VIAPostOneShotA0 : Z;
  VIAPostOneShotB0 : Z;
  VIAInterrupt0 : Z;
  VIAInterrupt1 : Z;
  VIASetCA2out0 : Z;
  VIASetCA2out1 : Z;
  VIAClearCA2out1 : Z;
  VIASetCB2out1 : Z;
  VIAClearCB2out1 : Z;
  VIAClearBits : Z
}.

(** Modelled from the spec: the mode predicates of [VIA6522.h].  Free-run
    mode of timer 1 is the ACR timer-mode bit (bit 6), input latching of
    port A is ACR bit 0, and the CA2/CB2 flag is cleared on an access in the
    PCR modes in which [peekORA] and [peekORB] clear it (section 4.3: one
    decode table for both pairs, CB2 reacting to writes only). *)
Definition freeRunMode1 (v : state) : bool := truthy (Z.land (acr v) 0x40).
Definition inputLatchingEnabledA (v : state) : bool :=
  truthy (GET_BIT (acr v) 0).
Definition clearsOnAccess (mode : Z) : bool :=
  match mode with
  | 0 | 2 | 4 | 5 => true
  | _ => false
  end.
Definition shouldClearCA2onRead (v : state) : bool :=
  clearsOnAccess (Z.land (Z.shiftr (pcr v) 1) 0x07).
Definition shouldClearCA2onWrite (v : state) : bool :=
  clearsOnAccess (Z.land (Z.shiftr (pcr v) 1) 0x07).
Definition shouldClearCB2onWrite (v : state) : bool :=
  clearsOnAccess (Z.land (Z.shiftr (pcr v) 5) 0x07).

(** Modelled from the spec: the flag helpers of [VIA6522.h] clear one bit of
    the interrupt flag register; the bit numbers are those of the 6522
    (CA2 0, CA1 1, shift register 2, CB2 3, CB1 4, timer 2 5, timer 1 6),
    as [setCA1], [setCB1] and the two timers use them. *)
Definition clearInterruptFlag_CA2 (v : state) : state :=
  set_ifr (CLR_BIT (ifr v) 0) v.
Definition clearInterruptFlag_CA1 (v : state) : state :=
  set_ifr (CLR_BIT (ifr v) 1) v.
Definition clearInterruptFlag_SR (v : state) : state :=
  set_ifr (CLR_BIT (ifr v) 2) v.
Definition clearInterruptFlag_CB2 (v : state) : state :=
  set_ifr (CLR_BIT (ifr v) 3) v.
Definition clearInterruptFlag_CB1 (v : state) : state :=
  set_ifr (CLR_BIT (ifr v) 4) v.
Definition clearInterruptFlag_T2 (v : state) : state :=
  set_ifr (CLR_BIT (ifr v) 5) v.
Definition clearInterruptFlag_T1 (v : state) : state :=
  set_ifr (CLR_BIT (ifr v) 6) v.

(** Modelled from the spec: [VirtualComponent::reset] is not among the
    sources; it zeroes every snapshot item registered as CLEAR_ON_RESET
    (section 6), which for a VIA is every register. *)
Definition clearSnapshotItems (v : state) : state :=
  mk 0 false false false 0 false false false 0 0 0 0 0 0 0 0 0 0 0
     false false 0 0 0 0 0 0 0 (env v) (calls v).

Definition set_ca1 (x : bool) (v : state) : state :=
  mk (pa v) x (ca2 v) (ca2_out v) (pb v) (cb1 v) (cb2 v) (cb2_out v)
     (ddra v) (ddrb v) (ora v) (orb v) (ira v) (irb v) (t1 v) (t2 v)
     (t1_latch_lo v) (t1_latch_hi v) (t2_latch_lo v) (pb7toggle v)
     (pb7timerOut v) (pcr v) (acr v) (ier v) (ifr v) (sr v) (delay v)
     (feed v) (env v) (calls v).
Definition set_cb1 (x : bool) (v : state) : state :=
  mk (pa v) (ca1 v) (ca2 v) (ca2_out v) (pb v) x (cb2 v) (cb2_out v)
     (ddra v) (ddrb v) (ora v) (orb v) (ira v) (irb v) (t1 v) (t2 v)
     (t1_latch_lo v) (t1_latch_hi v) (t2_latch_lo v) (pb7toggle v)
     (pb7timerOut v) (pcr v) (acr v) (ier v) (ifr v) (sr v) (delay v)
     (feed v) (env v) (calls v).

(** [VIA6522::setCA1]. *)
Definition setCA1 (value : bool) (v : state) : state :=
  let pcr0 := truthy (Z.land (pcr v) 0x01) in
  let v := if negb pcr0 && ca1 v && negb value
           then set_ifr (Z.lor (ifr v) 0x02) v else v in
  let v := if pcr0 && negb (ca1 v) && value
           then set_ifr (Z.lor (ifr v) 0x02) v else v in
  set_ca1 value v.

(** [VIA6522::setCB1]. *)
Definition setCB1 (value : bool) (v : state) : state :=
  let pcr4 := truthy (Z.land (pcr v) 0x10) in
  let v := if negb pcr4 && cb1 v && negb value
           then set_ifr (Z.lor (ifr v) 0x10) v else v in
  let v := if pcr4 && negb (cb1 v) && value
           then set_ifr (Z.lor (ifr v) 0x10) v else v in
  set_cb1 value v.

Section Commons.

Context {P : Pipeline}.

(** [VIA6522::reset]. *)
Definition reset (v : state) : state :=
  let v := clearSnapshotItems v in
  let v := set_t1 0x01AA v in
  let v := set_t2 0x01AA v in
  let v := set_t1_latch_hi 0x01 v in
  let v := set_t1_latch_lo 0xAA v in
  let v := set_t2_latch_lo 0xAA v in
  set_feed (Z.lor (feed v) (Z.lor VIACountA0 VIACountB0)) v.

(** [VIA6522::executeTimer1]. *)
Definition executeTimer1 (v : state) : state :=
  let v := if truthy (Z.land (delay v) VIAReloadA2)
           then set_t1 (HI_LO (t1_latch_hi v) (t1_latch_lo v)) v else v in
  let v := if truthy (Z.land (delay v) VIACountA1)
           then set_t1 (u16 (t1 v - 1)) v else v in
  if t1 v =? 0 then
    let v :=
      if freeRunMode1 v then
        if negb (truthy (Z.land (feed v) VIAPostOneShotA0)) then
          let v := set_ifr (SET_BIT (ifr v) 6) v in             (* (1) *)
          let v := set_pb7toggle (negb (pb7toggle v)) v in      (* (2) *)
          set_delay (Z.lor (delay v) VIAReloadA0) v             (* (3) *)
        else v
      else
        if negb (truthy (Z.land (feed v) VIAPostOneShotA0)) then
          let v := set_ifr (SET_BIT (ifr v) 6) v in
          set_pb7toggle (negb (pb7toggle v)) v
        else v in
    let v := set_feed (Z.lor (feed v) VIAPostOneShotA0) v in
    if truthy (Z.land (acr v) 0x80)
    then set_pb7timerOut (pb7toggle v) v else v
  else v.

(** [VIA6522::executeTimer2]. *)
Definition executeTimer2 (v : state) : state :=
  let v := if truthy (Z.land (delay v) VIACountB1)
           then set_t2 (u16 (t2 v - 1)) v else v in
  if t2 v =? 0 then
    if negb (truthy (Z.land (delay v) VIAPostOneShotB0)) then
      let v := set_ifr (SET_BIT (ifr v) 5) v in
      set_feed (Z.lor (feed v) VIAPostOneShotB0) v
    else v
  else v.

(** [VIA6522::execute]. *)
Definition execute (v : state) : state :=
  let v := executeTimer1 v in
  let v := executeTimer2 v in
  let v := if truthy (Z.land (ifr v) (ier v))
           then set_delay (Z.lor (delay v) VIAInterrupt0) v else v in
  let v := if truthy (Z.land (delay v) VIAInterrupt1)
           then emit (pullDownIrqLine VIA) v else v in
  let v := if truthy (Z.land (delay v) VIASetCA2out1)
           then set_ca2_out true v else v in
  let v := if truthy (Z.land (delay v) VIAClearCA2out1)
           then set_ca2_out false v else v in
  let v := if truthy (Z.land (delay v) VIASetCB2out1)
           then set_cb2_out true v else v in
  let v := if truthy (Z.land (delay v) VIAClearCB2out1)
           then set_cb2_out false v else v in
  set_delay
    (Z.lor (Z.land (u64 (Z.shiftl (delay v) 1)) VIAClearBits) (feed v)) v.

(** [VIA6522::IRQ]. *)
Definition IRQ (v : state) : bool * state :=
  if truthy (Z.land (ifr v) (ier v))
  then (true, emit (pullDownIrqLine VIA) v)
  else (false, emit (releaseIrqLine VIA) v).

(** The virtual members the subclasses supply. *)
Variable updatePA : state → state.
Variable updatePB : state → state.

(** [VIA6522::peekORA]. *)
Definition peekORA (v : state) : Z * state :=
  let v := clearInterruptFlag_CA1 v in
  let v :=
    match Z.land (Z.shiftr (pcr v) 1) 0x07 with
    | 0 => clearInterruptFlag_CA2 v
    | 1 => v
    | 2 => clearInterruptFlag_CA2 v
    | 3 => v
    | 4 => let v := clearInterruptFlag_CA2 v in
           set_delay (Z.lor (delay v) VIAClearCA2out1) v
    | 5 => let v := clearInterruptFlag_CA2 v in
           set_delay (Z.lor (delay v) (Z.lor VIAClearCA2out1 VIASetCA2out0)) v
    | _ => v
    end in
  let v := updatePA v in
  (pa v, v).

(** [VIA6522::peekORB]. *)
Definition peekORB (v : state) : Z * state :=
  let v := clearInterruptFlag_CB1 v in
  let v :=
    match Z.land (Z.shiftr (pcr v) 5) 0x07 with
    | 0 => clearInterruptFlag_CB2 v
    | 1 => v
    | 2 => clearInterruptFlag_CB2 v
    | _ => v
    end in
  let v := updatePB v in
  (pb v, v).

(** [VIA6522::peek]. *)
Definition peek (addr : Z) (v : state) : option (Z * state) :=
  if negb ((0 <=? addr) && (addr <=? 0xF)) then None else  (* assert *)
  match addr with
  | 0x0 => Some (peekORB v)
  | 0x1 => Some (peekORA v)
  | 0x2 => Some (ddrb v, v)
  | 0x3 => Some (ddra v, v)
  | 0x4 => let v := clearInterruptFlag_T1 v in Some (LO_BYTE (t1 v), v)
  | 0x5 => Some (HI_BYTE (t1 v), v)
  | 0x6 => Some (t1_latch_lo v, v)
  | 0x7 => Some (t1_latch_hi v, v)
  | 0x8 => let v := clearInterruptFlag_T2 v in Some (LO_BYTE (t2 v), v)
  | 0x9 => Some (HI_BYTE (t2 v), v)
  | 0xA => let v := clearInterruptFlag_SR v in Some (sr v, v)
  | 0xB => Some (acr v, v)
  | 0xC => Some (pcr v, v)
  | 0xD =>
      (* assert((ifr & 0x80) == 0); assert((ier & 0x80) == 0); *)
      if negb ((Z.land (ifr v) 0x80 =? 0) && (Z.land (ier v) 0x80 =? 0))
      then None
      else Some (Z.lor (ifr v)
                   (if truthy (Z.land (ifr v) (ier v)) then 0x80 else 0x00), v)
  | 0xE => Some (Z.lor (ier v) 0x80, v)
  | 0xF =>
      let v := clearInterruptFlag_CA1 v in
      let v := if shouldClearCA2onRead v
               then clearInterruptFlag_CA2 v else v in
      Some (0, v)
  | _ => None
  end.

(** [VIA6522::read].  Its default branch calls the virtual [peek], here
    [vpeek], the [peek] of the object's class. *)
Definition read (vpeek : Z → state → option (Z * state))
    (addr : Z) (v : state) : option (Z * state) :=
  if negb ((0 <=? addr) && (addr <=? 0xF)) then None else  (* assert *)
  match addr with
  | 0x4 => Some (LO_BYTE (t1 v), v)
  | 0x8 => Some (LO_BYTE (t2 v), v)
  | 0xA | 0xB | 0xC => Some (0, v)                         (* break; TODO *)
  | 0xD =>
      let ioD := Z.land (ifr v) 0x7F in
      let irq := if truthy (Z.land (ifr v) (ier v)) then 0x80 else 0x00 in
      Some (Z.lor ioD irq, v)
  | _ => vpeek addr v
  end.

(** [VIA6522::poke]. *)
Definition poke (addr value : Z) (v : state) : option state :=
  if negb ((0 <=? addr) && (addr <=? 0x0F)) then None else  (* assert *)
  match addr with
  | 0x0 =>
      let v := clearInterruptFlag_CB1 v in
      Some (if shouldClearCB2onWrite v then clearInterruptFlag_CB2 v else v)
  | 0x1 =>
      let v := clearInterruptFlag_CA1 v in
      Some (if shouldClearCA2onWrite v then clearInterruptFlag_CA2 v else v)
  | 0x2 => Some (updatePB (set_ddrb value v))
  | 0x3 => Some (updatePA (set_ddra value v))
  | 0x4 => Some (set_t1_latch_lo value v)
  | 0x5 =>
      let v := set_t1_latch_hi value v in
      let v := set_t1 (HI_LO (t1_latch_hi v) (t1_latch_lo v)) v in
      let v := clearInterruptFlag_T1 v in
      let v := set_feed (Z.land (feed v) (Z.lnot VIAPostOneShotA0)) v in
      (* Delay counting down for one cycle *)
      Some (set_delay (Z.land (delay v) (Z.lnot VIACountA1)) v)
  | 0x6 => Some (set_t1_latch_lo value v)
  | 0x7 => Some (set_t1_latch_hi value v)
  | 0x8 =>
      let v := set_t2_latch_lo value v in
      let v := clearInterruptFlag_T2 v in
      Some (emit (releaseIrqLine VIA) v)
  | 0x9 =>
      let v := set_t2 (HI_LO value (t2_latch_lo v)) v in
      let v := clearInterruptFlag_T2 v in
      Some (set_feed (Z.land (feed v) (Z.lnot VIAPostOneShotB0)) v)
  | 0xA =>
      let v := clearInterruptFlag_SR v in
      Some (set_sr value v)
  | 0xB =>
      let v := set_acr value v in
      let v :=
        if truthy (Z.land (acr v) 0x20) then
          let v := set_delay (Z.land (delay v) (Z.lnot VIACountB0)) v in
          set_feed (Z.land (feed v) (Z.lnot VIACountB0)) v
        else
          let v := set_delay (Z.lor (delay v) VIACountB0) v in
          set_feed (Z.lor (feed v) VIACountB0) v in
      Some (if truthy (Z.land (acr v) 0x80)
            then set_pb7timerOut (pb7toggle v) v else v)
  | 0xC => Some (set_pcr value v)
  | 0xD =>
      (* Writing 1 will clear the corresponding bit *)
      let v := set_ifr (Z.land (ifr v) (Z.lnot value)) v in
      Some (snd (IRQ v))
  | 0xE =>
      (* Bit 7 distinguishes between set and clear *)
      let v := if truthy (Z.land value 0x80)
               then set_ier (Z.lor (ier v) value) v
               else set_ier (Z.land (ier v) (Z.lnot value)) v in
      let v := set_ier (Z.land (ier v) 0x7F) v in
      Some (snd (IRQ v))
  | 0xF =>
      let v := clearInterruptFlag_CA1 v in
      Some (if shouldClearCA2onWrite v then clearInterruptFlag_CA2 v else v)
  | _ => None
  end.

End Commons.

End VIA6522.

(** ** VIA 1: the drive's serial-bus VIA *)

Module VIA1.

Import VIA6522.
Local Open Scope Z_scope.

Section VIA1.

Context {P : Pipeline}.

Definition portAinternal (v : state) : Z := ora v.
Definition portAexternal (v : state) : Z := 0xFF.

(** [VIA1::updatePA]. *)
Definition updatePA (v : state) : state :=
  set_pa (u8 (Z.lor (Z.land (portAinternal v) (ddra v))
                    (Z.land (portAexternal v) (Z.lnot (ddra v))))) v.

Definition portBinternal (v : state) : Z := orb v.

(** [VIA1::portBexternal]. *)
Definition portBexternal (v : state) : Z :=
  let external :=
    Z.lor (Z.lor (if getAtnLine (env v) then 0x00 else 0x80)
                 (if getClockLine (env v) then 0x00 else 0x04))
          (if getDataLine (env v) then 0x00 else 0x01) in
  Z.land external 0x9F.

(** [VIA1::updatePB]. *)
Definition updatePB (v : state) : state :=
  set_pb (u8 (Z.lor (Z.land (portBinternal v) (ddrb v))
                    (Z.land (portBexternal v) (Z.lnot (ddrb v))))) v.

(** [VIA1::peek]. *)
Definition peek (addr : Z) (v : state) : option (Z * state) :=
  let v := match addr with
           | 0x1 | 0xF => emit (releaseIrqLine ATN) v
           | _ => v
           end in
  VIA6522.peek updatePA updatePB addr v.

(** [VIA1::read]. *)
Definition read (addr : Z) (v : state) : option (Z * state) :=
  match addr with
  | 0x0 =>
      Some (u8 (Z.lor (Z.land (portBinternal v) (ddrb v))
                      (Z.land (portBexternal v) (Z.lnot (ddrb v)))), v)
  | 0x1 | 0xF =>
      Some (u8 (Z.lor (Z.land (portAinternal v) (ddra v))
                      (Z.land (portAexternal v) (Z.lnot (ddra v)))), v)
  | _ => VIA6522.read peek addr v
  end.

(** [VIA1::poke]. *)
Definition poke (addr value : Z) (v : state) : option state :=
  match addr with
  | 0x0 =>
      v ← VIA6522.poke updatePA updatePB addr value v;
      let v := set_orb value v in
      let v := updatePB v in
      Some (emit (updateDevicePins (orb v) (ddrb v)) v)
  | 0x1 | 0xF =>
      v ← VIA6522.poke updatePA updatePB addr value v;
      let v := set_ora value v in
      Some (updatePA v)
  | 0x2 =>
      let v := set_ddrb value v in
      let v := updatePB v in
      Some (emit (updateDevicePins (orb v) (ddrb v)) v)
  | _ => VIA6522.poke updatePA updatePB addr value v
  end.

End VIA1.

End VIA1.

(** ** VIA 2: the drive-mechanics VIA *)

Module VIA2.

Import VIA6522.
Local Open Scope Z_scope.

Section VIA2.

Context {P : Pipeline}.

Definition portAinternal (v : state) : Z := ora v.
Definition portAexternal (v : state) : Z := 0xFF.

(** [VIA2::updatePA]. *)
Definition updatePA (v : state) : state :=
  set_pa (u8 (Z.lor (Z.land (portAinternal v) (ddra v))
                    (Z.land (portAexternal v) (Z.lnot (ddra v))))) v.

Definition portBinternal (v : state) : Z := orb v.

(** [VIA2::portBexternal]. *)
Definition portBexternal (v : state) : Z :=
  let sync := getSync (env v) in
  let barrier := getLightBarrier (env v) in
  Z.lor (Z.lor (if sync then 0x00 else 0x80) (if barrier then 0x00 else 0x10))
        0x6F.

(** [VIA2::updatePB]. *)
Definition updatePB (v : state) : state :=
  let oldPb := pb v in
  let v := set_pb (u8 (Z.lor (Z.land (portBinternal v) (ddrb v))
                             (Z.land (portBexternal v) (Z.lnot (ddrb v))))) v in
  (* Bits 6 and 5 *)
  let v := if negb (Z.land (pb v) 0x60 =? Z.land oldPb 0x60)
           then emit (setZone (Z.land (Z.shiftr (pb v) 5) 0x03)) v else v in
  (* Bit 3 *)
  let v := if negb (GET_BIT (pb v) 3 =? GET_BIT oldPb 3)
           then emit (setRedLED (truthy (GET_BIT (pb v) 3))) v else v in
  (* Bit 2 *)
  let v := if negb (GET_BIT (pb v) 2 =? GET_BIT oldPb 2)
           then emit (setRotating (truthy (GET_BIT (pb v) 2))) v else v in
  (* Bits 1 and 0 *)
  if negb (Z.land (pb v) 0x03 =? Z.land oldPb 0x03) then
    if Z.land (pb v) 0x03 =? Z.land (oldPb + 1) 0x03 then
      emit moveHeadUp v
    else if Z.land (pb v) 0x03 =? Z.land (oldPb - 1) 0x03 then
      emit moveHeadDown v
    else
      emit (warn ("Unexpected stepper motor control sequence" ++ LF)%string) v
  else v.

(** The port A value of [VIA2::peek] and [VIA2::read]. *)
Definition latchedPortA (v : state) : Z * state :=
  if inputLatchingEnabledA v then
    (u8 (Z.lor (Z.land (ddra v) (ora v)) (Z.land (Z.lnot (ddra v)) (ira v))), v)
  else
    (0, emit (warn "INPUT LATCHING OF VIA2 IS DISABLED!"%string) v).

(** [VIA2::peek]. *)
Definition peek (addr : Z) (v : state) : option (Z * state) :=
  match addr with
  | 0x0 =>
      '(_, v) ← VIA6522.peek updatePA updatePB addr v;
      let v := updatePB v in
      Some (pb v, v)
  | 0x1 | 0xF =>
      '(_, v) ← VIA6522.peek updatePA updatePB addr v;
      Some (latchedPortA v)
  | _ => VIA6522.peek updatePA updatePB addr v
  end.

(** [VIA2::read]. *)
Definition read (addr : Z) (v : state) : option (Z * state) :=
  match addr with
  | 0x0 =>
      Some (u8 (Z.lor (Z.land (portBinternal v) (ddrb v))
                      (Z.land (portBexternal v) (Z.lnot (ddrb v)))), v)
  | 0x1 | 0xF => Some (latchedPortA v)
  | _ => VIA6522.peek updatePA updatePB addr v
  end.

(** [VIA2::poke]. *)
Definition poke (addr value : Z) (v : state) : option state :=
  match addr with
  | 0x0 =>
      v ← VIA6522.poke updatePA updatePB addr value v;
      let v := set_orb value v in
      Some (updatePB v)
  | 0x1 | 0xF =>
      v ← VIA6522.poke updatePA updatePB addr value v;
      let v := set_ora value v in
      Some (updatePA v)
  | 0x3 =>
      let v := set_ddra value v in
      Some (if negb (ddra v =? 0x00) && negb (ddra v =? 0xFF)
            then emit (debug ("Data direction bits of VC1541 contain suspicious values" ++ LF)%string) v
            else v)
  | 0xC =>
      let v := if negb (truthy (Z.land (pcr v) 0x20)) && truthy (Z.land value 0x20)
               then emit (debug ("Switching to read mode mode" ++ LF)%string) v else v in
      let v := if truthy (Z.land (pcr v) 0x20) && negb (truthy (Z.land value 0x20))
               then emit (debug ("Switching to write mode" ++ LF)%string) v else v in
      Some (set_pcr value v)
  | _ => VIA6522.poke updatePA updatePB addr value v
  end.

End VIA2.

End VIA2.

(** ** A concrete pipeline layout and concrete states *)

(** Modelled from the spec: the values of the pipeline masks of [VIA6522.h],
    which is not among the sources.  Section 4.2: every request bit moves one
    position per cycle and the held bits are fed in again from [feed]; so
    the stages 0, 1 (and 2) of a request sit on consecutive bits, and
    [VIAClearBits] removes the stage-0 positions (and the first unused bit)
    after the shift. *)
Definition stage0Bits : Z :=
  Z.shiftl 1 0 + Z.shiftl 1 2 + Z.shiftl 1 4 + Z.shiftl 1 7 + Z.shiftl 1 10
  + Z.shiftl 1 11 + Z.shiftl 1 12 + Z.shiftl 1 14 + Z.shiftl 1 16
  + Z.shiftl 1 18 + Z.shiftl 1 20 + Z.shiftl 1 22.

Definition pipeline : VIA6522.Pipeline := {|
  VIA6522.VIACountA0 := Z.shiftl 1 0;
  VIA6522.VIACountA1 := Z.shiftl 1 1;
  VIA6522.VIACountB0 := Z.shiftl 1 2;
  VIA6522.VIACountB1 := Z.shiftl 1 3;
  VIA6522.VIAReloadA0 := Z.shiftl 1 4;
  VIA6522.VIAReloadA2 := Z.shiftl 1 6;
  VIA6522.VIAPostOneShotA0 := Z.shiftl 1 10;
  VIA6522.VIAPostOneShotB0 := Z.shiftl 1 11;
  VIA6522.VIAInterrupt0 := Z.shiftl 1 12;
  VIA6522.VIAInterrupt1 := Z.shiftl 1 13;
  VIA6522.VIASetCA2out0 := Z.shiftl 1 14;
  VIA6522.VIASetCA2out1 := Z.shiftl 1 15;
  VIA6522.VIAClearCA2out1 := Z.shiftl 1 17;
  VIA6522.VIASetCB2out1 := Z.shiftl 1 19;
  VIA6522.VIAClearCB2out1 := Z.shiftl 1 21;
  VIA6522.VIAClearBits := 18446744073709551615 - stage0Bits
|}.

(** The collaborators at rest: all bus lines released, no sync mark, light
    barrier open. *)
Definition idle : VIA6522.inputs := {|
  VIA6522.getAtnLine := true;
  VIA6522.getClockLine := true;
  VIA6522.getDataLine := true;
  VIA6522.getSync := false;
  VIA6522.getLightBarrier := false
|}.

(** A VIA as constructed (every member zero), and after [reset]. *)
Definition blank : VIA6522.state :=
  VIA6522.mk 0 false false false 0 false false false 0 0 0 0 0 0 0 0 0 0 0
             false false 0 0 0 0 0 0 0 idle [].

Definition fresh : VIA6522.state := VIA6522.reset (P := pipeline) blank.

(** [n] clock cycles. *)
Fixpoint run {P : VIA6522.Pipeline} (n : nat) (v : VIA6522.state)
  : VIA6522.state :=
  match n with
  | O => v
  | S n => run n (VIA6522.execute v)
  end.

(** A sequence of [poke]s on the base class, for the scenarios. *)
Fixpoint pokes {P : VIA6522.Pipeline} (upa upb : VIA6522.state → VIA6522.state)
    (ws : list (Z * Z)) (v : VIA6522.state) : option VIA6522.state :=
  match ws with
  | [] => Some v
  | (a, x) :: ws => v ← VIA6522.poke upa upb a x v; pokes upa upb ws v
  end.

(** ** Vocabulary of the cartridge statements *)

Section CartridgeVocabulary.

Import Cartridge.
Local Open Scope Z_scope.

(** Chip [nr] is populated with [data], placed at [start] with [size] bytes,
    the way [loadChip] leaves a slot: inside the window 0x8000..0xFFFF, in a
    buffer of exactly [size] bytes; [rom] and [blendedIn] have the lengths
    of their C arrays. *)
Record placed (c : state) (nr : nat) (start size : Z) (data : list Z)
  : Prop := {
  placed_nr : (nr < 64)%nat;
  placed_chip : chip c !! nr = Some (Some data);
  placed_start : chipStartAddress c !! nr = Some start;
  placed_size : chipSize c !! nr = Some size;
  placed_low : 0x8000 <= start;
  placed_high : 0 <= size <= 0xFFFF - start;
  placed_data : Z.of_nat (length data) = size;
  placed_rom : Z.of_nat (length (rom c)) = sizeof_rom;
  placed_blendedIn : length (blendedIn c) = 16%nat
}.

(** Block [k] lies in the range of the two loops over [blendedIn]. *)
Definition inBlockRange (start size : Z) (k : nat) : bool :=
  (Z.shiftr start 12 <=? Z.of_nat k) && (Z.of_nat k <? Z.shiftr (start + size) 12).

(** The 4KB block [k] holds an address of [[start, start+size)]. *)
Definition covers (start size : Z) (k : nat) : Prop :=
  ∃ a, start <= a < start + size ∧ Z.shiftr a 12 = Z.of_nat k.

(** A cartridge whose only chip is slot 0, [size] bytes of 0xAA at [start]. *)
Definition oneChip (start size : Z) : state :=
  mk true true
     (<[0%nat:=Some (replicate (Z.to_nat size) 0xAA)]> (replicate 64 None))
     (<[0%nat:=start]> (replicate 64 0))
     (<[0%nat:=size]> (replicate 64 0))
     (replicate (Z.to_nat 32768) 0) (replicate 16 0) 255.

(** The arrays of per-chip data have their 64 entries. *)
Definition slots64 (c : state) : Prop :=
  length (chip c) = 64%nat ∧ length (chipStartAddress c) = 64%nat
  ∧ length (chipSize c) = 64%nat.

(** A state as the C types and [loadChip] allow it: 16-bit placements, a
    chip buffer of [chipSize] bytes wherever a chip is present, 32KB of
    [rom] and 16 flags. *)
Definition wellFormed (c : state) : Prop :=
  slots64 c
  ∧ (∀ i x, chipStartAddress c !! i = Some x → 0 <= x < 65536)
  ∧ (∀ i x, chipSize c !! i = Some x → 0 <= x < 65536)
  ∧ (∀ i data x, chip c !! i = Some (Some data) → chipSize c !! i = Some x →
       Z.of_nat (length data) = x)
  ∧ Z.of_nat (length (rom c)) = sizeof_rom
  ∧ Z.of_nat (length (blendedIn c)) = sizeof_blendedIn.

(** [chip[i]] is present exactly when [chipSize[i] > 0]. *)
Definition presentIffSized (c : state) : Prop :=
  ∀ i x, chipSize c !! i = Some x →
    (0 < x ↔ ∃ data, chip c !! i = Some (Some data)).

End CartridgeVocabulary.

(** ** Vocabulary of the snapshot and VIA statements *)

Section SnapshotVocabulary.
Import Cartridge.
Local Open Scope Z_scope.

(** The bytes of slot [i] in a snapshot: placement, size, then the chip's
    bytes when the size is positive. *)
Definition slotBytes (c : state) (i : nat) : list Z :=
  match chipStartAddress c !! i, chipSize c !! i with
  | Some start, Some size =>
      write16 start ++ write16 size
      ++ (if 0 <? size
          then match chip c !! i with Some (Some data) => data | _ => [] end
          else [])
  | _, _ => []
  end.

(** Slot [i] of [c0] overwritten with slot [i] of [c]. *)
Definition copySlot (c : state) (c0 : state) (i : nat) : state :=
  match chipStartAddress c !! i, chipSize c !! i, chip c !! i with
  | Some start, Some size, Some ch =>
      set_chip (<[i:=ch]> (chip c0))
        (set_chipSize (<[i:=size]> (chipSize c0))
          (set_chipStartAddress (<[i:=start]> (chipStartAddress c0)) c0))
  | _, _, _ => c0
  end.

(** The bytes of a snapshot, in the order [saveToBuffer] writes them. *)
Definition snapshotBytes (c : state) : list Z :=
  write8 (Z.b2z (gameLine c)) ++ write8 (Z.b2z (exromLine c))
  ++ concat (map (slotBytes c) (seq 0 64))
  ++ rom c ++ blendedIn c ++ write8 (lastBlendedIn c).

(** C3 as the specification words it: after [bankIn], every 4KB block that
    the chip's range covers, fully or partly, is flagged. *)
Definition marksCoveredBlocks (c : state) (nr : nat) (start size : Z) : Prop :=
  ∃ c', bankIn c nr = Some c'
    ∧ ∀ k : nat, covers start size k → blendedIn c' !! k = Some 1.

(** A container whose chips all sit at [start] with [size] bytes of 0xAA. *)
Definition uniformContainer (start size : Z) : CRTContainer := {|
  getChipAddr := λ _, start;
  getChipSize := λ _, size;
  getChipData := λ _, replicate (Z.to_nat size) 0xAA
|}.

End SnapshotVocabulary.

Section ViaVocabulary.
Import VIA6522.
Local Open Scope Z_scope.

(** What a write to the interrupt flag register (0xD) and to the interrupt
    enable register (0xE) does, bit by bit, for a [poke] of some VIA
    class. *)
Definition flagWrites (poke : Z → Z → state → option state) : Prop :=
  ∀ v value,
    (∃ v', poke 0xD value v = Some v'
       ∧ (∀ i, Z.testbit (ifr v') i
               = Z.testbit (ifr v) i && negb (Z.testbit value i))
       ∧ ier v' = ier v)
    ∧ (∃ v', poke 0xE value v = Some v'
       ∧ (∀ i, Z.testbit (ier v') i
               = (0 <=? i) && (i <? 7)
                 && (if Z.testbit value 7
                     then Z.testbit (ier v) i || Z.testbit value i
                     else Z.testbit (ier v) i && negb (Z.testbit value i)))
       ∧ ifr v' = ifr v).

Definition isMoveHeadUp (c : call) : bool :=
  match c with moveHeadUp => true | _ => false end.
Definition isMoveHeadDown (c : call) : bool :=
  match c with moveHeadDown => true | _ => false end.

(** How many of the calls [cs] satisfy [p]. *)
Definition countCalls (p : call → bool) (cs : list call) : nat :=
  length (List.filter p cs).


(** What a write to port B of VIA 2 does to the head, by the low two bits
    [low] the port takes from 00: one [moveHeadUp] for 01, one
    [moveHeadDown] for 11, neither and a warning for 10, nothing for 00. *)
Definition headMoved (low : Z) (new : list call) : Prop :=
  match low with
  | 1 => countCalls isMoveHeadUp new = 1%nat
         ∧ countCalls isMoveHeadDown new = 0%nat
  | 3 => countCalls isMoveHeadUp new = 0%nat
         ∧ countCalls isMoveHeadDown new = 1%nat
  | 2 => countCalls isMoveHeadUp new = 0%nat
         ∧ countCalls isMoveHeadDown new = 0%nat
         ∧ In (warn ("Unexpected stepper motor control sequence" ++ LF)%string) new
  | _ => countCalls isMoveHeadUp new = 0%nat
         ∧ countCalls isMoveHeadDown new = 0%nat
  end.

(** A reset VIA with every line of port B an output. *)
Definition parked : state := set_ddrb 0xFF fresh.

End ViaVocabulary.

Section TimerVocabulary.
Import VIA6522.
Local Open Scope Z_scope.

(** The "timer 1 has fired" marker is held in [feed]. *)
Definition firedA {P : Pipeline} (v : state) : bool :=
  truthy (Z.land (feed v) VIAPostOneShotA0).

(** The scenario of section 8: ACR, then the low and the high latch of
    timer 1, on a freshly reset VIA. *)
Definition loadTimer1 (acrValue lo hi : Z) : option state :=
  pokes (P := pipeline) VIA1.updatePA VIA1.updatePB
        [(0xB, acrValue); (0x4, lo); (0x5, hi)] fresh.

End TimerVocabulary.

(** ** Vocabulary of the further statements *)

Section AccessVocabulary.
Import VIA6522.
Local Open Scope Z_scope.

(** The two VIA classes of the drive. *)
Inductive chipKind := Via1 | Via2.

Definition peekOf {P : Pipeline} (k : chipKind) :=
  match k with Via1 => VIA1.peek | Via2 => VIA2.peek end.
Definition readOf {P : Pipeline} (k : chipKind) :=
  match k with Via1 => VIA1.read | Via2 => VIA2.read end.
Definition pokeOf {P : Pipeline} (k : chipKind) :=
  match k with Via1 => VIA1.poke | Via2 => VIA2.poke end.

(** One thing that happens to a VIA: a clock cycle, a bus access, or a
    level change on CA1 or CB1. *)
Inductive access {P : Pipeline} (k : chipKind) : state → state → Prop :=
  | access_execute v : access k v (execute v)
  | access_peek a v x v' : peekOf k a v = Some (x, v') → access k v v'
  | access_read a v x v' : readOf k a v = Some (x, v') → access k v v'
  | access_poke a x v v' : pokeOf k a x v = Some v' → access k v v'
  | access_setCA1 b v : access k v (setCA1 b v)
  | access_setCB1 b v : access k v (setCB1 b v).

(** The states a VIA goes through after a reset. *)
Inductive reachable {P : Pipeline} (k : chipKind) : state → Prop :=
  | reachable_reset v : reachable k (reset v)
  | reachable_access v v' : reachable k v → access k v v' → reachable k v'.

(** Bit 7 of IFR and IER is not stored: both registers hold seven bits. *)
Definition sevenBits (x : Z) : Prop := Z.land x 0x7F = x.
Definition flagsStored (v : state) : Prop :=
  sevenBits (ifr v) ∧ sevenBits (ier v).

End AccessVocabulary.

Section TimerVocabulary2.
Import VIA6522.
Local Open Scope Z_scope.

(** The "timer 2 has fired" marker is held in [feed] and seen in [delay]. *)
Definition firedB {P : Pipeline} (v : state) : bool :=
  truthy (Z.land (feed v) VIAPostOneShotB0)
  && truthy (Z.land (delay v) VIAPostOneShotB0).

(** The value in the timer 1 latches. *)
Definition latch1 (v : state) : Z := HI_LO (t1_latch_hi v) (t1_latch_lo v).

End TimerVocabulary2.

Section PortVocabulary.
Import VIA6522.
Local Open Scope Z_scope.

(** The external side of port B, by class. *)
Definition portBexternalOf (k : chipKind) (v : state) : Z :=
  match k with
  | Via1 => VIA1.portBexternal v
  | Via2 => VIA2.portBexternal v
  end.

(** The edge of CA1 (or CB1) that the control register selects: rising when
    [positive], falling otherwise. *)
Definition activeEdge (positive old new : bool) : bool :=
  if positive then negb old && new else old && negb new.

End PortVocabulary.

Section Instances.

Local Open Scope Z_scope.

(** A new cartridge with an 8KB chip loaded into slot 0 at 0x8000, and the
    same cartridge after chip 0 has been banked in. *)
Definition loaded8k : Cartridge.state :=
  default Cartridge.init
    (fst <$> Cartridge.loadChip Cartridge.init 0
                (uniformContainer 0x8000 0x2000) true).
Definition banked8k : Cartridge.state :=
  default Cartridge.init (Cartridge.bankIn loaded8k 0).

(** A cartridge with a 4KB chip at 0x8000 and block 9 flagged from an
    earlier bank; the same after chip 0 has been banked in, and after it has
    been banked out again. *)
Definition stale : Cartridge.state :=
  Cartridge.set_blendedIn (<[9%nat:=1]> (replicate 16 0))
    (oneChip 0x8000 0x1000).
Definition staleIn : Cartridge.state :=
  default Cartridge.init (Cartridge.bankIn stale 0).
Definition staleOut : Cartridge.state :=
  default Cartridge.init (Cartridge.bankOut staleIn 0).

(** A reset VIA with port A latching enabled. *)
Definition latching : VIA6522.state := VIA6522.set_acr 0x01 fresh.

(** Timer 1 past its first expiry, the flag acknowledged: free-run mode
    with latch 5, nine clock cycles (the timer fires at the seventh and is
    reloaded), then 0x40 written to IFR.  T1 is 4 and counting; it passes 0
    again four cycles on. *)
Definition expired1 : VIA6522.state :=
  default fresh
    (v ← loadTimer1 0x40 0x05 0x00;
     VIA6522.poke (P := pipeline) VIA1.updatePA VIA1.updatePB 0xD 0x40
                  (run (P := pipeline) 9 v)).

(** Timer 2 past its expiry, the flag acknowledged: 5 written to the low
    latch (register 8) and 0 to T2C-H (register 9), nine clock cycles (the
    timer fires at the seventh), then 0x20 written to IFR.  T2 is 0xFFFE
    and counting; it passes 0 again 65534 cycles on. *)
Definition expired2 : VIA6522.state :=
  default fresh
    (v ← pokes (P := pipeline) VIA1.updatePA VIA1.updatePB
               [(0x8, 0x05); (0x9, 0x00)] fresh;
     VIA6522.poke (P := pipeline) VIA1.updatePA VIA1.updatePB 0xD 0x20
                  (run (P := pipeline) 9 v)).

End Instances.

(** * Cartridge: bank switching *)

Section BankSwitching.

Import Cartridge.
Local Open Scope Z_scope.

(** The loop [for (i = s; i < s + n; i++) a[i] = v] seen from a reader of
    the array. *)
Lemma foldl_insert_seq_lookup (v : Z) (n s : nat) (a : list Z) (k : nat) :
  foldl (λ acc i, <[i:=v]> acc) a (seq s n) !! k
  = if decide ((s <= k < s + n)%nat ∧ (k < length a)%nat)
    then Some v else a !! k.
Proof.
  revert s a. induction n as [|n IH]; intros s a; simpl.
  - case_decide; [lia | done].
  - rewrite IH, length_insert.
    destruct (decide (s = k)) as [->|Hne].
    + rewrite decide_False by lia.
      destruct (decide (k < length a)%nat) as [Hk|Hk].
      * rewrite list_lookup_insert_eq, decide_True by lia. done.
      * rewrite list_insert_ge, decide_False by lia. done.
    + rewrite list_lookup_insert_ne by done.
      repeat case_decide; first [done | lia].
Qed.

Lemma foldl_insert_seq_length (v : Z) (n s : nat) (a : list Z) :
  length (foldl (λ acc i, <[i:=v]> acc) a (seq s n)) = length a.
Proof.
  revert s a. induction n as [|n IH]; intros s a; simpl.
  - done.
  - rewrite IH. apply length_insert.
Qed.

Lemma fill_length a lo hi v : length (fill a lo hi v) = length a.
Proof. apply foldl_insert_seq_length. Qed.

Lemma fill_lookup a start size v (k : nat) :
  0 <= start → 0 <= size →
  length a = 16%nat → start + size <= 0xFFFF →
  fill a (Z.shiftr start 12) (Z.shiftr (u16 (start + size)) 12) v !! k
  = if inBlockRange start size k then Some v else a !! k.
Proof.
  intros Hs Hz Ha Hfit. unfold fill, inBlockRange, u16.
  rewrite (Z.mod_small (start + size)) by lia.
  rewrite foldl_insert_seq_lookup.
  assert (0 <= Z.shiftr start 12) by (apply Z.shiftr_nonneg; lia).
  assert (Z.shiftr start 12 <= Z.shiftr (start + size) 12).
  { rewrite !Z.shiftr_div_pow2 by lia. apply Z.div_le_mono; lia. }
  assert (Z.shiftr (start + size) 12 < 16).
  { rewrite Z.shiftr_div_pow2 by lia. apply Z.div_lt_upper_bound; lia. }
  case_decide as Hd.
  - replace (_ && _) with true; [done|].
    symmetry. apply andb_true_iff. split; [apply Z.leb_le | apply Z.ltb_lt]; lia.
  - destruct (_ && _) eqn:E; [|done].
    apply andb_true_iff in E as [E1 E2].
    apply Z.leb_le in E1. apply Z.ltb_lt in E2. exfalso. apply Hd. lia.
Qed.


Lemma memcpy_Some dst off src n :
  0 <= off → 0 <= n → off + n <= Z.of_nat (length dst) →
  n <= Z.of_nat (length src) →
  memcpy dst off src n
  = Some (take (Z.to_nat off) dst ++ take (Z.to_nat n) src
            ++ drop (Z.to_nat (off + n)) dst).
Proof.
  intros. unfold memcpy.
  rewrite !(proj2 (Z.leb_le _ _)) by lia. done.
Qed.

Lemma memcpy_spec dst off src n dst' :
  memcpy dst off src n = Some dst' →
  length dst' = length dst
  ∧ ∀ j : nat,
      dst' !! j = if (off <=? Z.of_nat j) && (Z.of_nat j <? off + n)
                  then src !! (j - Z.to_nat off)%nat else dst !! j.
Proof.
  unfold memcpy. destruct (_ && _) eqn:E; [|done]. intros [= <-].
  repeat (apply andb_true_iff in E as [E ?]).
  apply Z.leb_le in E. repeat match goal with H : (_ <=? _) = true |- _ => apply Z.leb_le in H end.
  split.
  - rewrite !length_app, !length_take, length_drop. lia.
  - intros j.
    destruct (Z.of_nat j <? off) eqn:Hlo.
    + apply Z.ltb_lt in Hlo.
      rewrite (proj2 (Z.leb_gt _ _)) by lia. simpl.
      rewrite lookup_app_l by (rewrite length_take; lia).
      apply lookup_take_lt. lia.
    + apply Z.ltb_ge in Hlo. rewrite (proj2 (Z.leb_le _ _)) by lia. simpl.
      rewrite lookup_app_r by (rewrite length_take; lia).
      rewrite length_take_le by lia.
      destruct (Z.of_nat j <? off + n) eqn:Hhi.
      * apply Z.ltb_lt in Hhi.
        rewrite lookup_app_l by (rewrite length_take; lia).
        apply lookup_take_lt. lia.
      * apply Z.ltb_ge in Hhi.
        rewrite lookup_app_r by (rewrite length_take; lia).
        rewrite length_take_le by lia. rewrite lookup_drop. f_equal. lia.
Qed.

(** What [bankIn] returns on a placed chip that is not the last one banked
    in. *)
Lemma bankIn_placed c nr start size data :
  placed c nr start size data → Z.of_nat nr ≠ lastBlendedIn c →
  ∃ rom',
    memcpy (rom c) (start - 0x8000) data size = Some rom'
    ∧ bankIn c nr
      = Some (set_lastBlendedIn (Z.of_nat nr)
               (set_blendedIn
                 (fill (blendedIn c) (Z.shiftr start 12)
                       (Z.shiftr (u16 (start + size)) 12) 1)
                 (set_rom rom' c))).
Proof.
  intros [Hnr Hchip Hstart Hsize Hlow Hhigh Hdata Hrom Hbl] Hlast.
  eexists. split.
  { apply memcpy_Some; unfold sizeof_rom in *; lia. }
  unfold bankIn.
  rewrite (proj2 (Nat.ltb_lt _ _)) by done. simpl.
  rewrite Hchip. simpl.
  rewrite (proj2 (Z.eqb_neq _ _)) by done.
  rewrite Hstart, Hsize. simpl.
  rewrite (proj2 (Z.leb_le _ _)) by lia. simpl.
  rewrite memcpy_Some by (unfold sizeof_rom in *; lia). simpl.
  unfold u8. rewrite Z.mod_small by lia. done.
Qed.

(** The fast path of [bankIn]. *)
Lemma bankIn_last c nr data :
  (nr < 64)%nat → chip c !! nr = Some (Some data) →
  Z.of_nat nr = lastBlendedIn c → bankIn c nr = Some c.
Proof.
  intros Hnr Hchip Hlast. unfold bankIn.
  rewrite (proj2 (Nat.ltb_lt _ _)) by done. simpl.
  rewrite Hchip. simpl.
  rewrite (proj2 (Z.eqb_eq _ _)) by done. done.
Qed.

(** What [bankOut] returns on a placed chip. *)
Lemma bankOut_placed c nr start size data :
  placed c nr start size data →
  bankOut c nr
  = Some (set_blendedIn
            (fill (blendedIn c) (Z.shiftr start 12)
                  (Z.shiftr (u16 (start + size)) 12) 0) c).
Proof.
  intros [Hnr Hchip Hstart Hsize Hlow Hhigh Hdata Hrom Hbl].
  unfold bankOut.
  rewrite (proj2 (Nat.ltb_lt _ _)) by done. simpl.
  rewrite Hchip. simpl. rewrite Hstart, Hsize. simpl.
  rewrite (proj2 (Z.leb_le _ _)) by lia. done.
Qed.

(** Banking in changes neither the chips nor the array lengths, so a placed
    chip stays placed. *)
Lemma placed_frame c c' nr start size data :
  placed c nr start size data →
  chip c' = chip c → chipStartAddress c' = chipStartAddress c →
  chipSize c' = chipSize c → length (rom c') = length (rom c) →
  length (blendedIn c') = length (blendedIn c) →
  placed c' nr start size data.
Proof.
  intros [] H1 H2 H3 H4 H5. split; rewrite ?H1, ?H2, ?H3, ?H4, ?H5; done.
Qed.

(** C3, as amended.  On a placed chip [nr] other than the last one banked
    in, [bankIn] copies the chip's [size] bytes into [rom] at offset
    [start - 0x8000], sets exactly the flags of the blocks [start >> 12] up
    to, exclusive, [(start+size) >> 12], and records [nr] in
    [lastBlendedIn]; every other flag, in particular that of a block only
    partly covered at the upper end, keeps its value. *)
Theorem bankIn_copies_and_marks c nr start size data :
  placed c nr start size data → Z.of_nat nr ≠ lastBlendedIn c →
  ∃ c', bankIn c nr = Some c'
    ∧ length (rom c') = length (rom c)
    ∧ (∀ j : nat,
         rom c' !! j
         = if (start - 0x8000 <=? Z.of_nat j)
              && (Z.of_nat j <? start - 0x8000 + size)
           then data !! (j - Z.to_nat (start - 0x8000))%nat
           else rom c !! j)
    ∧ (∀ k : nat,
         blendedIn c' !! k
         = if inBlockRange start size k then Some 1 else blendedIn c !! k)
    ∧ lastBlendedIn c' = Z.of_nat nr
    ∧ chip c' = chip c ∧ chipStartAddress c' = chipStartAddress c
    ∧ chipSize c' = chipSize c
    ∧ gameLine c' = gameLine c ∧ exromLine c' = exromLine c.
Proof.
  intros Hp Hlast.
  destruct (bankIn_placed _ _ _ _ _ Hp Hlast) as (rom' & Hcpy & ->).
  destruct (memcpy_spec _ _ _ _ _ Hcpy) as [Hlen Hlook].
  destruct Hp. eexists. split; [reflexivity|]. simpl.
  repeat split; try done.
  intros k. apply fill_lookup; lia.
Qed.

(** C8.  On a placed chip, [bankIn] followed by [bankOut] leaves cleared the
    flags of the chip's block range and leaves every other flag as it was
    before the two calls; [bankOut] itself changes nothing but flags: [rom],
    [lastBlendedIn] and every other member stay as [bankIn] left them. *)
Theorem bankIn_bankOut_clears_range c nr start size data :
  placed c nr start size data →
  ∃ c1 c2, bankIn c nr = Some c1 ∧ bankOut c1 nr = Some c2
    ∧ (∀ k : nat,
         blendedIn c2 !! k
         = if inBlockRange start size k then Some 0 else blendedIn c !! k)
    ∧ (∀ k : nat,
         blendedIn c2 !! k
         = if inBlockRange start size k then Some 0 else blendedIn c1 !! k)
    ∧ rom c2 = rom c1 ∧ lastBlendedIn c2 = lastBlendedIn c1
    ∧ chip c2 = chip c1 ∧ chipStartAddress c2 = chipStartAddress c1
    ∧ chipSize c2 = chipSize c1
    ∧ gameLine c2 = gameLine c1 ∧ exromLine c2 = exromLine c1.
Proof.
  intros Hp.
  assert (∃ c1, bankIn c nr = Some c1 ∧ placed c1 nr start size data
            ∧ ∀ k : nat, inBlockRange start size k = false →
                blendedIn c1 !! k = blendedIn c !! k) as (c1 & Hin & Hp1 & Hout).
  { destruct (decide (Z.of_nat nr = lastBlendedIn c)) as [Heq|Hne].
    - exists c. destruct Hp. split; [by eapply bankIn_last|]. split; done.
    - destruct (bankIn_placed _ _ _ _ _ Hp Hne) as (rom' & Hcpy & ->).
      destruct (memcpy_spec _ _ _ _ _ Hcpy) as [Hlen _].
      eexists. split; [reflexivity|]. split.
      + eapply placed_frame; [exact Hp|simpl; try done..].
        apply fill_length.
      + intros k Hk. simpl. destruct Hp.
        rewrite fill_lookup by lia. by rewrite Hk. }
  exists c1. eexists. split; [done|].
  rewrite (bankOut_placed _ _ _ _ _ Hp1). split; [reflexivity|]. simpl.
  assert (∀ k : nat, fill (blendedIn c1) (Z.shiftr start 12)
            (Z.shiftr (u16 (start + size)) 12) 0 !! k
          = if inBlockRange start size k then Some 0 else blendedIn c1 !! k) as Hf.
  { intros k. destruct Hp1. apply fill_lookup; lia. }
  repeat split; try done.
  intros k. rewrite Hf. destruct (inBlockRange start size k) eqn:Hk; [done|].
  by apply Hout.
Qed.

(** C10.  When chip [nr] is placed and is the last one banked in,
    [bankOut] followed by [bankIn] leaves every flag of the chip's block
    range cleared: [bankOut] keeps [lastBlendedIn], so [bankIn] takes its
    fast path and changes nothing. *)
Theorem bankOut_bankIn_stays_out c nr start size data :
  placed c nr start size data → Z.of_nat nr = lastBlendedIn c →
  ∃ c1 c2, bankOut c nr = Some c1 ∧ bankIn c1 nr = Some c2
    ∧ c2 = c1 ∧ lastBlendedIn c1 = lastBlendedIn c ∧ rom c1 = rom c
    ∧ ∀ k : nat,
        blendedIn c2 !! k
        = if inBlockRange start size k then Some 0 else blendedIn c !! k.
Proof.
  intros Hp Hlast. rewrite (bankOut_placed _ _ _ _ _ Hp).
  eexists. eexists. split; [reflexivity|].
  destruct Hp as [Hnr Hchip Hstart Hsize Hlow Hhigh Hdata Hrom Hbl].
  split; [by eapply bankIn_last|].
  repeat split. intros k. simpl.
  by rewrite fill_lookup by lia.
Qed.

End BankSwitching.

(** * Cartridge: snapshots *)

Section Snapshot.

Import Cartridge.
Local Open Scope Z_scope.

Lemma read16_write16 x rest :
  0 <= x < 65536 → read16 (write16 x ++ rest) = Some (x, rest).
Proof.
  intros Hx. unfold read16, write16, u8. simpl. do 2 f_equal.
  assert (0 <= Z.shiftr x 8 < 256) as Hhi.
  { rewrite Z.shiftr_div_pow2 by lia. change (2 ^ 8) with 256.
    split; [apply Z.div_pos | apply Z.div_lt_upper_bound]; lia. }
  rewrite (Z.mod_small (Z.shiftr x 8)) by done.
  apply Z.bits_inj'. intros n Hn.
  rewrite Z.lor_spec. change 256 with (2 ^ 8).
  destruct (Z.ltb_spec n 8).
  - rewrite Z.shiftl_spec_low, Z.mod_pow2_bits_low by lia. done.
  - rewrite Z.shiftl_spec, Z.shiftr_spec, Z.mod_pow2_bits_high by lia.
    rewrite orb_false_r. f_equal. lia.
Qed.

Lemma readBlock_app blk rest n :
  Z.of_nat (length blk) = n →
  readBlock (blk ++ rest) n = Some (blk, rest).
Proof.
  intros <-. unfold readBlock. rewrite length_app.
  rewrite (proj2 (Z.leb_le _ _)) by lia. rewrite Nat2Z.id.
  by rewrite take_app_length, drop_app_length.
Qed.

Lemma writeBlock_all blk n :
  Z.of_nat (length blk) = n → writeBlock blk n = Some blk.
Proof.
  intros <-. unfold writeBlock. rewrite Z.leb_refl, Nat2Z.id.
  by rewrite firstn_all.
Qed.


(** Slot lookups of a well-formed cartridge. *)
Lemma wellFormed_slot c i :
  wellFormed c → (i < 64)%nat →
  ∃ start size ch,
    chipStartAddress c !! i = Some start ∧ chipSize c !! i = Some size
    ∧ chip c !! i = Some ch
    ∧ 0 <= start < 65536 ∧ 0 <= size < 65536.
Proof.
  intros ((Hc & Ha & Hs) & Hst & Hsz & _) Hi.
  destruct (proj2 (lookup_lt_is_Some (chipStartAddress c) i)) as [start E1]; [lia|].
  destruct (proj2 (lookup_lt_is_Some (chipSize c) i)) as [size E2]; [lia|].
  destruct (proj2 (lookup_lt_is_Some (chip c) i)) as [ch E3]; [lia|].
  exists start, size, ch. eauto 10.
Qed.

(** The chip of a slot, by the sign of its size. *)
Lemma slot_chip c i size ch :
  wellFormed c → presentIffSized c →
  chipSize c !! i = Some size → chip c !! i = Some ch →
  if 0 <? size
  then ∃ data, ch = Some data ∧ Z.of_nat (length data) = size
  else ch = None.
Proof.
  intros (_ & _ & _ & Hlen & _) Hp Hsz Hch.
  destruct (Z.ltb_spec 0 size) as [Hpos|Hnp].
  - destruct (proj1 (Hp i size Hsz) Hpos) as [data Hd].
    exists data. split; [congruence|]. eauto.
  - destruct ch as [data|]; [|done].
    assert (0 < size); [|lia]. apply (Hp i size Hsz). eauto.
Qed.

Lemma slotBytes_length c i :
  wellFormed c → presentIffSized c → (i < 64)%nat →
  Z.of_nat (length (slotBytes c i)) = 4 + nth i (chipSize c) 0
  ∧ 0 <= nth i (chipSize c) 0 < 65536.
Proof.
  intros Hwf Hp Hi.
  destruct (wellFormed_slot c i Hwf Hi) as (start & size & ch & E1 & E2 & E3 & ? & ?).
  pose proof (slot_chip c i size ch Hwf Hp E2 E3) as Hch.
  unfold slotBytes. rewrite nth_lookup, E1, E2, E3. simpl.
  destruct (Z.ltb_spec 0 size).
  - destruct Hch as (data & -> & Hd). split; [|done].
    simpl. lia.
  - subst ch. simpl. split; [lia|done].
Qed.

Lemma saveChip_slotBytes c buf i :
  wellFormed c → presentIffSized c → (i < 64)%nat →
  saveChip c buf i = Some (buf ++ slotBytes c i).
Proof.
  intros Hwf Hp Hi.
  destruct (wellFormed_slot c i Hwf Hi) as (start & size & ch & E1 & E2 & E3 & ? & ?).
  pose proof (slot_chip c i size ch Hwf Hp E2 E3) as Hch.
  unfold saveChip, slotBytes. rewrite E1, E2, E3. simpl.
  destruct (0 <? size).
  - destruct Hch as (data & -> & Hd). simpl.
    rewrite (writeBlock_all _ _ Hd). simpl. by rewrite <- !app_assoc.
  - by rewrite <- !app_assoc.
Qed.

Lemma save_loop c (idx : list nat) buf :
  wellFormed c → presentIffSized c →
  Forall (λ i, (i < 64)%nat) idx →
  foldl (λ acc i, buf ← acc; saveChip c buf i) (Some buf) idx
  = Some (buf ++ concat (map (slotBytes c) idx)).
Proof.
  intros Hwf Hp Hidx. revert buf.
  induction Hidx as [|i idx Hi _ IH]; intros buf;
    cbn [foldl map concat mbind option_bind].
  - by rewrite app_nil_r.
  - rewrite saveChip_slotBytes by done. rewrite IH. by rewrite <- app_assoc.
Qed.

Lemma loadChipSlot_slotBytes c c0 i rest :
  wellFormed c → presentIffSized c → (i < 64)%nat →
  loadChipSlot (c0, slotBytes c i ++ rest) i = Some (copySlot c c0 i, rest).
Proof.
  intros Hwf Hp Hi.
  destruct (wellFormed_slot c i Hwf Hi) as (start & size & ch & E1 & E2 & E3 & ? & ?).
  pose proof (slot_chip c i size ch Hwf Hp E2 E3) as Hch.
  unfold loadChipSlot, slotBytes, copySlot. rewrite E1, E2, E3.
  cbv beta iota zeta. rewrite <- !app_assoc.
  rewrite read16_write16 by done. cbn [mbind option_bind].
  rewrite read16_write16 by done. cbn [mbind option_bind].
  destruct (0 <? size).
  - destruct Hch as (data & -> & Hd).
    rewrite (readBlock_app _ _ _ Hd). done.
  - subst ch. done.
Qed.

Lemma load_loop c (idx : list nat) c0 rest :
  wellFormed c → presentIffSized c →
  Forall (λ i, (i < 64)%nat) idx →
  foldl (λ acc i, st ← acc; loadChipSlot st i)
        (Some (c0, concat (map (slotBytes c) idx) ++ rest)) idx
  = Some (foldl (copySlot c) c0 idx, rest).
Proof.
  intros Hwf Hp Hidx. revert c0.
  induction Hidx as [|i idx Hi _ IH]; intros c0;
    cbn [foldl map concat mbind option_bind].
  - done.
  - rewrite <- app_assoc. rewrite loadChipSlot_slotBytes by done. apply IH.
Qed.


Lemma insert_take_drop {A} (a b : list A) (n : nat) (x : A) :
  a !! n = Some x → (n < length b)%nat →
  <[n:=x]> (take n a ++ drop n b) = take (S n) a ++ drop (S n) b.
Proof.
  intros Ha Hb.
  assert (n < length a)%nat by (apply lookup_lt_is_Some; eauto).
  destruct (proj2 (lookup_lt_is_Some b n) Hb) as [y Hy].
  rewrite insert_app_r_alt by (rewrite length_take; lia).
  rewrite length_take_le by lia. rewrite Nat.sub_diag.
  rewrite (drop_S _ _ _ Hy). simpl.
  rewrite (take_S_r _ _ _ Ha). by rewrite <- app_assoc.
Qed.

(** After the first [n] turns of the load loop the first [n] slots are those
    of the saved cartridge. *)
Lemma copy_prefix c c0 (n : nat) :
  slots64 c → slots64 c0 → (n <= 64)%nat →
  let c' := foldl (copySlot c) c0 (seq 0 n) in
  chip c' = take n (chip c) ++ drop n (chip c0)
  ∧ chipStartAddress c' = take n (chipStartAddress c) ++ drop n (chipStartAddress c0)
  ∧ chipSize c' = take n (chipSize c) ++ drop n (chipSize c0)
  ∧ gameLine c' = gameLine c0 ∧ exromLine c' = exromLine c0
  ∧ rom c' = rom c0 ∧ blendedIn c' = blendedIn c0
  ∧ lastBlendedIn c' = lastBlendedIn c0.
Proof.
  intros (Hc & Ha & Hs) (Hc0 & Ha0 & Hs0).
  induction n as [|n IH]; intros Hn; cbv zeta.
  - simpl. rewrite !drop_0. done.
  - rewrite seq_S, foldl_app. simpl.
    destruct IH as (E1 & E2 & E3 & E4 & E5 & E6 & E7 & E8); [lia|].
    set (c1 := foldl (copySlot c) c0 (seq 0 n)) in *.
    destruct (proj2 (lookup_lt_is_Some (chipStartAddress c) n)) as [start F1]; [lia|].
    destruct (proj2 (lookup_lt_is_Some (chipSize c) n)) as [size F2]; [lia|].
    destruct (proj2 (lookup_lt_is_Some (chip c) n)) as [ch F3]; [lia|].
    unfold copySlot. rewrite F1, F2, F3. simpl.
    rewrite E1, E2, E3.
    rewrite !insert_take_drop by (done || lia). done.
Qed.

Lemma size_loop c (idx : list nat) acc :
  wellFormed c → presentIffSized c →
  Forall (λ i, (i < 64)%nat) idx →
  0 <= acc → acc + 65540 * Z.of_nat (length idx) < 4294967296 →
  foldl (λ size i, u32 (size + (4 + nth i (chipSize c) 0))) acc idx
  = acc + Z.of_nat (length (concat (map (slotBytes c) idx))).
Proof.
  intros Hwf Hp Hidx. revert acc.
  induction Hidx as [|i idx Hi _ IH]; intros acc Hacc Hfit;
    cbn [foldl map concat length].
  - lia.
  - destruct (slotBytes_length c i Hwf Hp Hi) as [Hlen Hrange].
    cbn [length] in Hfit.
    unfold u32 at 2. rewrite Z.mod_small by lia.
    rewrite IH by lia. rewrite length_app. lia.
Qed.

Lemma slots_length_bound c (idx : list nat) :
  wellFormed c → presentIffSized c →
  Forall (λ i, (i < 64)%nat) idx →
  Z.of_nat (length (concat (map (slotBytes c) idx)))
  <= 65540 * Z.of_nat (length idx).
Proof.
  intros Hwf Hp Hidx. induction Hidx as [|i idx Hi _ IH]; cbn [map concat length].
  - lia.
  - destruct (slotBytes_length c i Hwf Hp Hi) as [Hlen Hrange].
    rewrite length_app. lia.
Qed.

Lemma seq_below n : Forall (λ i, (i < n)%nat) (seq 0 n).
Proof. apply Forall_forall. intros i Hi. apply elem_of_seq in Hi. lia. Qed.

Lemma stateSize_slots c :
  wellFormed c → presentIffSized c →
  stateSize c
  = 2 + Z.of_nat (length (concat (map (slotBytes c) (seq 0 64))))
    + sizeof_rom + sizeof_blendedIn + 1.
Proof.
  intros Hwf Hp. unfold stateSize.
  pose proof (slots_length_bound c (seq 0 64) Hwf Hp (seq_below 64)) as Hb.
  rewrite length_seq in Hb.
  rewrite size_loop; [|done|done|apply seq_below|lia|rewrite length_seq; lia].
  set (L := Z.of_nat (length (concat (map (slotBytes c) (seq 0 64))))) in *.
  unfold sizeof_rom, sizeof_blendedIn, u32.
  rewrite (Z.mod_small (2 + L + 32768)) by lia.
  rewrite (Z.mod_small (2 + L + 32768 + 16)) by lia.
  rewrite (Z.mod_small (2 + L + 32768 + 16 + 1)) by lia. done.
Qed.

Lemma truthy_b2z b : truthy (Z.b2z b) = b.
Proof. by destruct b. Qed.

Lemma saveToBuffer_writes_bytes c :
  wellFormed c → presentIffSized c →
  saveToBuffer_writes c = Some (snapshotBytes c).
Proof.
  intros Hwf Hp. pose proof Hwf as (_ & _ & _ & _ & Hrom & Hbl).
  unfold saveToBuffer_writes.
  rewrite save_loop by (done || apply seq_below).
  cbn [mbind option_bind].
  rewrite (writeBlock_all _ _ Hrom). cbn [mbind option_bind].
  rewrite (writeBlock_all _ _ Hbl). cbn [mbind option_bind].
  unfold snapshotBytes. by rewrite <- !app_assoc.
Qed.

Lemma snapshotBytes_length c :
  wellFormed c → presentIffSized c →
  Z.of_nat (length (snapshotBytes c)) = stateSize c.
Proof.
  intros Hwf Hp. pose proof Hwf as (_ & _ & _ & _ & Hrom & Hbl).
  rewrite (stateSize_slots c Hwf Hp). unfold snapshotBytes, write8.
  rewrite !length_app. cbn [length]. lia.
Qed.

Lemma copy_all c c0 :
  slots64 c → slots64 c0 →
  foldl (copySlot c) c0 (seq 0 64)
  = mk (gameLine c0) (exromLine c0) (chip c) (chipStartAddress c) (chipSize c)
       (rom c0) (blendedIn c0) (lastBlendedIn c0).
Proof.
  intros H64 H0.
  destruct (copy_prefix c c0 64 H64 H0 (le_n _))
    as (E1 & E2 & E3 & E4 & E5 & E6 & E7 & E8).
  destruct H64 as (L1 & L2 & L3). destruct H0 as (M1 & M2 & M3).
  rewrite take_ge, drop_ge, app_nil_r in E1 by lia.
  rewrite take_ge, drop_ge, app_nil_r in E2 by lia.
  rewrite take_ge, drop_ge, app_nil_r in E3 by lia.
  destruct (foldl (copySlot c) c0 (seq 0 64)).
  cbn [gameLine exromLine chip chipStartAddress chipSize rom blendedIn
       lastBlendedIn] in *.
  by subst.
Qed.

Lemma loadFromBuffer_reads_bytes c c0 rest :
  wellFormed c → presentIffSized c → slots64 c0 →
  loadFromBuffer_reads c0 (snapshotBytes c ++ rest) = Some (c, rest).
Proof.
  intros Hwf Hp H0. pose proof Hwf as (H64 & _ & _ & _ & Hrom & Hbl).
  unfold loadFromBuffer_reads, snapshotBytes. rewrite <- !app_assoc.
  cbn [write8 app read8 mbind option_bind]. rewrite !truthy_b2z.
  rewrite load_loop by (done || apply seq_below).
  cbn [mbind option_bind].
  rewrite (readBlock_app _ _ _ Hrom). cbn [mbind option_bind].
  rewrite (readBlock_app _ _ _ Hbl). cbn [mbind option_bind read8 app].
  rewrite copy_all by done.
  by destruct c.
Qed.

(** C6.  For a cartridge with its C types respected and a chip present
    exactly in the slots of positive size, [saveToBuffer] writes
    [stateSize()] bytes, and [loadFromBuffer] on these bytes (whatever
    follows them, into whatever cartridge object) consumes exactly them and
    yields the saved cartridge: the same lines, the same 64 placements,
    sizes and chip bytes, the same [rom], [blendedIn] and [lastBlendedIn]. *)
Theorem save_load_roundtrip c c0 rest :
  wellFormed c → presentIffSized c → slots64 c0 →
  ∃ buf, saveToBuffer c = Some buf
    ∧ Z.of_nat (length buf) = stateSize c
    ∧ loadFromBuffer c0 (buf ++ rest) = Some (c, rest).
Proof.
  intros Hwf Hp H0.
  pose proof (snapshotBytes_length c Hwf Hp) as Hlen.
  exists (snapshotBytes c). split; [|split; [done|]].
  - unfold saveToBuffer. rewrite saveToBuffer_writes_bytes by done.
    cbn [mbind option_bind]. by rewrite (proj2 (Z.eqb_eq _ _) Hlen).
  - unfold loadFromBuffer. rewrite loadFromBuffer_reads_bytes by done.
    cbn [mbind option_bind]. rewrite length_app.
    replace (Z.of_nat (length (snapshotBytes c) + length rest)
             - Z.of_nat (length rest))
      with (Z.of_nat (length (snapshotBytes c))) by lia.
    by rewrite (proj2 (Z.eqb_eq _ _) Hlen).
Qed.

End Snapshot.

(** * Cartridge: loading chips *)

Section ChipLoading.
Import Cartridge.
Local Open Scope Z_scope.

(** C7.  With a start address below 0x8000, or a size that overflows the
    16-bit address space, [loadChip] returns normally with one diagnostic
    and the cartridge it was given: slot [nr] stays unpopulated when it was,
    and no other slot and no other member is touched. *)
Theorem loadChip_rejects_bad_placement c nr crt malloc_ok :
  (nr < 64)%nat →
  u16 (getChipAddr crt nr) < 0x8000
  ∨ u16 (getChipAddr crt nr) + u16 (getChipSize crt nr) > 0xFFFF →
  ∃ c' d, loadChip c nr crt malloc_ok = Some (c', [d])
    ∧ c' = c
    ∧ (chip c !! nr = Some None → chip c' !! nr = Some None)
    ∧ (∀ j : nat, j ≠ nr →
         chip c' !! j = chip c !! j
         ∧ chipStartAddress c' !! j = chipStartAddress c !! j
         ∧ chipSize c' !! j = chipSize c !! j)
    ∧ rom c' = rom c ∧ blendedIn c' = blendedIn c
    ∧ lastBlendedIn c' = lastBlendedIn c
    ∧ gameLine c' = gameLine c ∧ exromLine c' = exromLine c.
Proof.
  intros Hnr Hbad. unfold loadChip.
  rewrite (proj2 (Nat.ltb_lt _ _) Hnr). cbn [negb].
  destruct (Z.ltb_spec (u16 (getChipAddr crt nr)) 0x8000) as [Hlow|Hok].
  - eexists _, _. split; [reflexivity|]. auto 10.
  - destruct Hbad as [?|Hbig]; [lia|].
    rewrite (proj2 (Z.ltb_lt _ _)) by lia.
    eexists _, _. split; [reflexivity|]. auto 10.
Qed.

End ChipLoading.

Section OneChip.
Import Cartridge.
Local Open Scope Z_scope.

Lemma oneChip_placed start size :
  0x8000 <= start → 0 <= size <= 0xFFFF - start →
  placed (oneChip start size) 0 start size (replicate (Z.to_nat size) 0xAA).
Proof.
  intros Hs Hz. split; cbn [oneChip chip chipStartAddress chipSize rom blendedIn];
    rewrite ?length_replicate; first [done | lia].
Qed.

Lemma lookup_first_of_64 {A} (a b x : A) (i : nat) :
  <[0%nat:=a]> (replicate 64 b) !! i = Some x →
  (i = 0%nat ∧ x = a) ∨ (i ≠ 0%nat ∧ x = b).
Proof.
  destruct (decide (i = 0%nat)) as [->|Hne].
  - rewrite list_lookup_insert_eq by (rewrite length_replicate; lia).
    intros [= <-]. by left.
  - rewrite list_lookup_insert_ne by done.
    intros [-> _]%lookup_replicate. by right.
Qed.

Lemma oneChip_wellFormed start size :
  0x8000 <= start → 0 <= size <= 0xFFFF - start →
  wellFormed (oneChip start size).
Proof.
  intros Hs Hz. unfold wellFormed, slots64.
  cbn [oneChip chip chipStartAddress chipSize rom blendedIn].
  rewrite !length_insert, !length_replicate.
  split; [done|]. split; [|split; [|split; [|split; [done|done]]]].
  - intros i x [[_ ->]|[_ ->]]%lookup_first_of_64; lia.
  - intros i x [[_ ->]|[_ ->]]%lookup_first_of_64; lia.
  - intros i data x [[-> [= ->]]|[_ ?]]%lookup_first_of_64; [|done].
    intros [[_ ->]|[? _]]%lookup_first_of_64; [|done].
    rewrite length_replicate. lia.
Qed.

Lemma oneChip_presentIffSized start size :
  0 < size → presentIffSized (oneChip start size).
Proof.
  intros Hz i x. cbn [oneChip chip chipSize].
  intros [[-> ->]|[Hi ->]]%lookup_first_of_64.
  - split; [|done]. intros _. eexists. reflexivity.
  - split; [lia|]. intros [data [[? _]|[_ ?]]%lookup_first_of_64]; done.
Qed.

Lemma init_slots64 : slots64 init.
Proof. repeat split. Qed.

End OneChip.

(** * Cartridge: the statements at a concrete cartridge *)

Section CartridgeInstances.

Import Cartridge.
Local Open Scope Z_scope.

Lemma bankIn_copies_and_marks_witness :
  placed (oneChip 0x8000 0x2000) 0 0x8000 0x2000
         (replicate (Z.to_nat 0x2000) 0xAA)
  ∧ Z.of_nat 0 ≠ lastBlendedIn (oneChip 0x8000 0x2000)
  ∧ ∃ c', bankIn (oneChip 0x8000 0x2000) 0 = Some c'
      ∧ length (rom c') = length (rom (oneChip 0x8000 0x2000))
      ∧ (∀ j : nat,
           rom c' !! j
           = if (0x8000 - 0x8000 <=? Z.of_nat j)
                && (Z.of_nat j <? 0x8000 - 0x8000 + 0x2000)
             then replicate (Z.to_nat 0x2000) 0xAA
                  !! (j - Z.to_nat (0x8000 - 0x8000))%nat
             else rom (oneChip 0x8000 0x2000) !! j)
      ∧ (∀ k : nat,
           blendedIn c' !! k
           = if inBlockRange 0x8000 0x2000 k then Some 1
             else blendedIn (oneChip 0x8000 0x2000) !! k)
      ∧ lastBlendedIn c' = Z.of_nat 0
      ∧ chip c' = chip (oneChip 0x8000 0x2000)
      ∧ chipStartAddress c' = chipStartAddress (oneChip 0x8000 0x2000)
      ∧ chipSize c' = chipSize (oneChip 0x8000 0x2000)
      ∧ gameLine c' = gameLine (oneChip 0x8000 0x2000)
      ∧ exromLine c' = exromLine (oneChip 0x8000 0x2000).
Proof.
  split; [apply oneChip_placed; lia|].
  split; [simpl; lia|].
  apply (bankIn_copies_and_marks (oneChip 0x8000 0x2000) 0 0x8000 0x2000
           (replicate (Z.to_nat 0x2000) 0xAA)).
  - apply oneChip_placed; lia.
  - simpl; lia.
Defined.

(** C3 as stated fails: a 6KB chip at 0x8000 covers the blocks 8 and, in
    part, 9; [bankIn] flags block 8 only. *)
Lemma bankIn_partial_block_unmarked :
  placed (oneChip 0x8000 0x1800) 0 0x8000 0x1800
         (replicate (Z.to_nat 0x1800) 0xAA)
  ∧ Z.of_nat 0 ≠ lastBlendedIn (oneChip 0x8000 0x1800)
  ∧ covers 0x8000 0x1800 9
  ∧ blendedIn <$> bankIn (oneChip 0x8000 0x1800) 0
    = Some [0; 0; 0; 0; 0; 0; 0; 0; 1; 0; 0; 0; 0; 0; 0; 0]
  ∧ ¬ marksCoveredBlocks (oneChip 0x8000 0x1800) 0 0x8000 0x1800.
Proof.
  assert (covers 0x8000 0x1800 9) as Hcov.
  { exists 0x9000. split; [lia|reflexivity]. }
  assert (blendedIn <$> bankIn (oneChip 0x8000 0x1800) 0
          = Some [0; 0; 0; 0; 0; 0; 0; 0; 1; 0; 0; 0; 0; 0; 0; 0]) as Hflags.
  { vm_compute. reflexivity. }
  split; [apply oneChip_placed; lia|].
  split; [simpl; lia|].
  split; [done|]. split; [done|].
  intros (c' & Hin & Hall). rewrite Hin in Hflags.
  injection Hflags as Hflags. specialize (Hall 9%nat Hcov).
  rewrite Hflags in Hall. discriminate.
Qed.

Lemma bankIn_bankOut_clears_range_witness :
  placed (oneChip 0x8000 0x2000) 0 0x8000 0x2000
         (replicate (Z.to_nat 0x2000) 0xAA)
  ∧ ∃ c1 c2, bankIn (oneChip 0x8000 0x2000) 0 = Some c1
      ∧ bankOut c1 0 = Some c2
      ∧ (∀ k : nat,
           blendedIn c2 !! k
           = if inBlockRange 0x8000 0x2000 k then Some 0
             else blendedIn (oneChip 0x8000 0x2000) !! k)
      ∧ (∀ k : nat,
           blendedIn c2 !! k
           = if inBlockRange 0x8000 0x2000 k then Some 0
             else blendedIn c1 !! k)
      ∧ rom c2 = rom c1 ∧ lastBlendedIn c2 = lastBlendedIn c1
      ∧ chip c2 = chip c1 ∧ chipStartAddress c2 = chipStartAddress c1
      ∧ chipSize c2 = chipSize c1
      ∧ gameLine c2 = gameLine c1 ∧ exromLine c2 = exromLine c1.
Proof.
  split; [apply oneChip_placed; lia|].
  apply (bankIn_bankOut_clears_range (oneChip 0x8000 0x2000) 0 0x8000 0x2000
           (replicate (Z.to_nat 0x2000) 0xAA)).
  apply oneChip_placed; lia.
Defined.

Lemma bankOut_bankIn_stays_out_witness :
  placed (set_lastBlendedIn 0 (oneChip 0x8000 0x2000)) 0 0x8000 0x2000
         (replicate (Z.to_nat 0x2000) 0xAA)
  ∧ Z.of_nat 0 = lastBlendedIn (set_lastBlendedIn 0 (oneChip 0x8000 0x2000))
  ∧ ∃ c1 c2,
      bankOut (set_lastBlendedIn 0 (oneChip 0x8000 0x2000)) 0 = Some c1
      ∧ bankIn c1 0 = Some c2
      ∧ c2 = c1
      ∧ lastBlendedIn c1
        = lastBlendedIn (set_lastBlendedIn 0 (oneChip 0x8000 0x2000))
      ∧ rom c1 = rom (set_lastBlendedIn 0 (oneChip 0x8000 0x2000))
      ∧ ∀ k : nat,
          blendedIn c2 !! k
          = if inBlockRange 0x8000 0x2000 k then Some 0
            else blendedIn (set_lastBlendedIn 0 (oneChip 0x8000 0x2000)) !! k.
Proof.
  assert (placed (set_lastBlendedIn 0 (oneChip 0x8000 0x2000)) 0 0x8000 0x2000
            (replicate (Z.to_nat 0x2000) 0xAA)) as Hp.
  { apply (placed_frame (oneChip 0x8000 0x2000)); try reflexivity.
    apply oneChip_placed; lia. }
  split; [exact Hp|]. split; [reflexivity|].
  apply (bankOut_bankIn_stays_out
           (set_lastBlendedIn 0 (oneChip 0x8000 0x2000)) 0 0x8000 0x2000
           (replicate (Z.to_nat 0x2000) 0xAA)).
  - exact Hp.
  - reflexivity.
Defined.

Lemma save_load_roundtrip_witness :
  wellFormed (oneChip 0x8000 0x2000)
  ∧ presentIffSized (oneChip 0x8000 0x2000)
  ∧ slots64 init
  ∧ ∃ buf, saveToBuffer (oneChip 0x8000 0x2000) = Some buf
      ∧ Z.of_nat (length buf) = stateSize (oneChip 0x8000 0x2000)
      ∧ loadFromBuffer init (buf ++ []) = Some (oneChip 0x8000 0x2000, []).
Proof.
  split; [apply oneChip_wellFormed; lia|].
  split; [apply oneChip_presentIffSized; lia|].
  split; [apply init_slots64|].
  apply (save_load_roundtrip (oneChip 0x8000 0x2000) init []).
  - apply oneChip_wellFormed; lia.
  - apply oneChip_presentIffSized; lia.
  - apply init_slots64.
Defined.

Lemma loadChip_rejects_bad_placement_witness :
  (0 < 64)%nat
  ∧ (u16 (getChipAddr (uniformContainer 0x4000 0x2000) 0) < 0x8000
     ∨ u16 (getChipAddr (uniformContainer 0x4000 0x2000) 0)
       + u16 (getChipSize (uniformContainer 0x4000 0x2000) 0) > 0xFFFF)
  ∧ ∃ c' d,
      loadChip init 0 (uniformContainer 0x4000 0x2000) true = Some (c', [d])
      ∧ c' = init
      ∧ (chip init !! 0%nat = Some None → chip c' !! 0%nat = Some None)
      ∧ (∀ j : nat, j ≠ 0%nat →
           chip c' !! j = chip init !! j
           ∧ chipStartAddress c' !! j = chipStartAddress init !! j
           ∧ chipSize c' !! j = chipSize init !! j)
      ∧ rom c' = rom init ∧ blendedIn c' = blendedIn init
      ∧ lastBlendedIn c' = lastBlendedIn init
      ∧ gameLine c' = gameLine init ∧ exromLine c' = exromLine init.
Proof.
  split; [lia|]. split; [left; vm_compute; reflexivity|].
  apply (loadChip_rejects_bad_placement init 0 (uniformContainer 0x4000 0x2000) true).
  - lia.
  - left. vm_compute. reflexivity.
Defined.

End CartridgeInstances.

(** * VIA: the interrupt registers *)

Section FlagRegisters.
Import VIA6522.
Local Open Scope Z_scope.
Context {P : Pipeline}.

Lemma testbit_0x7F i : Z.testbit 0x7F i = (0 <=? i) && (i <? 7).
Proof.
  destruct (Z.leb_spec 0 i); [|by rewrite Z.testbit_neg_r by lia].
  destruct (Z.ltb_spec i 7).
  - assert (i = 0 ∨ i = 1 ∨ i = 2 ∨ i = 3 ∨ i = 4 ∨ i = 5 ∨ i = 6) as Hi by lia.
    destruct Hi as [->|[->|[->|[->|[->|[->| ->]]]]]]; reflexivity.
  - change 0x7F with (Z.ones 7). apply Z.ones_spec_high. lia.
Qed.

Lemma testbit_0x80 x : truthy (Z.land x 0x80) = Z.testbit x 7.
Proof.
  unfold truthy. change 0x80 with (Z.shiftl 1 7).
  destruct (Z.testbit x 7) eqn:E.
  - apply negb_true_iff, Z.eqb_neq. intros H.
    assert (Z.testbit (Z.land x (Z.shiftl 1 7)) 7 = true) as Hb.
    { rewrite Z.land_spec, E. reflexivity. }
    rewrite H in Hb. discriminate.
  - apply negb_false_iff, Z.eqb_eq. apply Z.bits_inj'. intros n Hn.
    rewrite Z.land_spec, Z.bits_0.
    destruct (decide (n = 7)) as [->|Hne]; [by rewrite E|].
    rewrite Z.shiftl_spec by done.
    destruct (Z.ltb_spec n 7); [rewrite (Z.testbit_neg_r 1) by lia; apply andb_false_r|].
    replace (Z.testbit 1 (n - 7)) with false; [apply andb_false_r|].
    symmetry. apply (Z.bits_above_log2 1 (n - 7)); simpl; lia.
Qed.

Lemma IRQ_registers v :
  ifr (snd (IRQ v)) = ifr v ∧ ier (snd (IRQ v)) = ier v.
Proof. unfold IRQ. by destruct (truthy _). Qed.

Lemma flagWrites_base upa upb : flagWrites (poke upa upb).
Proof.
  intros v value. split.
  - eexists. split; [reflexivity|].
    destruct (IRQ_registers (set_ifr (Z.land (ifr v) (Z.lnot value)) v)) as [-> ->].
    split; [|done]. intros i. cbn [ifr set_ifr].
    rewrite Z.land_spec.
    destruct (Z.leb_spec 0 i).
    + by rewrite Z.lnot_spec.
    + by rewrite !(Z.testbit_neg_r _ i) by lia.
  - eexists. split; [reflexivity|].
    match goal with |- context [IRQ ?s] => destruct (IRQ_registers s) as [-> ->] end.
    split; [|by destruct (truthy _)]. intros i.
    rewrite testbit_0x80.
    destruct (Z.testbit value 7); cbn [ier set_ier];
      rewrite Z.land_spec, testbit_0x7F.
    + rewrite Z.lor_spec. by rewrite andb_comm.
    + rewrite Z.land_spec.
      destruct (Z.leb_spec 0 i).
      * rewrite Z.lnot_spec by done. by rewrite andb_comm.
      * by rewrite andb_false_r.
Qed.

(** C5.  A write to IFR clears exactly the flag bits set in the value and
    sets none; a write to IER sets (bit 7 of the value set) or clears (bit 7
    clear) the enable bits named by the low seven bits of the value, and
    the stored bit 7 is always 0.  This holds for the base class and for
    both VIAs, whatever the pipeline masks. *)
Theorem poke_IFR_clears_IER_sets_or_clears upa upb :
  flagWrites (VIA6522.poke upa upb)
  ∧ flagWrites VIA1.poke ∧ flagWrites VIA2.poke.
Proof.
  split; [apply flagWrites_base|].
  split; intros v value;
    [apply (flagWrites_base VIA1.updatePA VIA1.updatePB)
    |apply (flagWrites_base VIA2.updatePA VIA2.updatePB)].
Qed.

End FlagRegisters.

(** * VIA 2: the stepper motor *)

Section Stepper.
Import VIA6522.
Local Open Scope Z_scope.
Context {P : Pipeline}.

Lemma land3_mod x : Z.land x 0x03 = x mod 4.
Proof. change 0x03 with (Z.ones 2). by rewrite Z.land_ones. Qed.

Lemma countCalls_app p xs ys :
  countCalls p (xs ++ ys) = (countCalls p xs + countCalls p ys)%nat.
Proof. unfold countCalls. by rewrite List.filter_app, length_app. Qed.

(** The calls of [VIA2::updatePB]: it appends to the calls made so far, and
    from low bits 00 the head moves up once for 01, down once for 11, and
    not at all (with a warning) for 10. *)
Lemma updatePB_stepper v :
  Z.land (pb v) 0x03 = 0 →
  ∃ new, calls (VIA2.updatePB v) = calls v ++ new
    ∧ pb (VIA2.updatePB v)
      = u8 (Z.lor (Z.land (orb v) (ddrb v))
                  (Z.land (VIA2.portBexternal v) (Z.lnot (ddrb v))))
    ∧ headMoved (Z.land (pb (VIA2.updatePB v)) 0x03) new.
Proof.
  intros Hold. unfold headMoved, VIA2.updatePB.
  set (pb' := u8 (Z.lor (Z.land (VIA2.portBinternal v) (ddrb v))
                        (Z.land (VIA2.portBexternal v) (Z.lnot (ddrb v))))).
  cbn [pb set_pb].
  set (v1 := set_pb pb' v).
  set (v2 := if negb (Z.land pb' 0x60 =? Z.land (pb v) 0x60)
             then emit (setZone (Z.land (Z.shiftr pb' 5) 0x03)) v1 else v1).
  assert (pb v2 = pb' ∧ ∃ n2, calls v2 = calls v ++ n2
          ∧ countCalls isMoveHeadUp n2 = 0%nat
          ∧ countCalls isMoveHeadDown n2 = 0%nat) as (E2 & n2 & C2 & U2 & D2).
  { unfold v2. destruct (negb _); (split; [done|]).
    - by exists [setZone (Z.land (Z.shiftr pb' 5) 0x03)].
    - exists []. by rewrite app_nil_r. }
  rewrite E2. clearbody v2.
  set (v3 := if negb (GET_BIT pb' 3 =? GET_BIT (pb v) 3)
             then emit (setRedLED (truthy (GET_BIT pb' 3))) v2 else v2).
  assert (pb v3 = pb' ∧ ∃ n3, calls v3 = calls v ++ n3
          ∧ countCalls isMoveHeadUp n3 = 0%nat
          ∧ countCalls isMoveHeadDown n3 = 0%nat) as (E3 & n3 & C3 & U3 & D3).
  { unfold v3. destruct (negb _); (split; [done|]).
    - exists (n2 ++ [setRedLED (truthy (GET_BIT pb' 3))]).
      cbn [calls emit set_calls]. rewrite C2, <- app_assoc.
      by rewrite !countCalls_app, U2, D2.
    - by exists n2. }
  rewrite E3. clearbody v3. clear v2 E2 n2 C2 U2 D2.
  set (v4 := if negb (GET_BIT pb' 2 =? GET_BIT (pb v) 2)
             then emit (setRotating (truthy (GET_BIT pb' 2))) v3 else v3).
  assert (pb v4 = pb' ∧ ∃ n4, calls v4 = calls v ++ n4
          ∧ countCalls isMoveHeadUp n4 = 0%nat
          ∧ countCalls isMoveHeadDown n4 = 0%nat) as (E4 & n4 & C4 & U4 & D4).
  { unfold v4. destruct (negb _); (split; [done|]).
    - exists (n3 ++ [setRotating (truthy (GET_BIT pb' 2))]).
      cbn [calls emit set_calls]. rewrite C3, <- app_assoc.
      by rewrite !countCalls_app, U3, D3.
    - by exists n3. }
  rewrite E4. clearbody v4. clear v3 E3 n3 C3 U3 D3.
  rewrite !land3_mod in *. rewrite Hold.
  replace ((pb v + 1) mod 4) with 1
    by (rewrite Z.add_mod, Hold by lia; reflexivity).
  replace ((pb v - 1) mod 4) with 3
    by (rewrite Zminus_mod, Hold; reflexivity).
  assert (pb' mod 4 = 0 ∨ pb' mod 4 = 1 ∨ pb' mod 4 = 2 ∨ pb' mod 4 = 3)
    as [R|[R|[R|R]]] by (pose proof (Z.mod_pos_bound pb' 4); lia);
    rewrite R; cbn [Z.eqb Pos.eqb negb];
    cbn [calls emit set_calls pb]; rewrite ?E4, ?R, C4.
  - exists n4. auto.
  - exists (n4 ++ [moveHeadUp]). rewrite <- app_assoc.
    rewrite !countCalls_app, U4, D4. auto.
  - exists (n4 ++ [warn ("Unexpected stepper motor control sequence" ++ LF)%string]).
    rewrite <- app_assoc. rewrite !countCalls_app, U4, D4.
    repeat split; try done. apply in_or_app. right. by left.
  - exists (n4 ++ [moveHeadDown]). rewrite <- app_assoc.
    rewrite !countCalls_app, U4, D4. auto.
Qed.

(** C9.  On the drive-mechanics VIA, a write to port B that takes the two
    low bits of the effective port value from 00 to 01 calls [moveHeadUp]
    exactly once and [moveHeadDown] not at all; to 11, [moveHeadDown]
    exactly once and [moveHeadUp] not at all; to 10, neither, and it logs
    the invalid-sequence warning. *)
Theorem VIA2_poke_portB_steps_head v value :
  Z.land (pb v) 0x03 = 0 →
  ∃ v' new, VIA2.poke 0x0 value v = Some v'
    ∧ calls v' = calls v ++ new
    ∧ pb v' = u8 (Z.lor (Z.land value (ddrb v))
                        (Z.land (VIA2.portBexternal v) (Z.lnot (ddrb v))))
    ∧ headMoved (Z.land (pb v') 0x03) new.
Proof.
  intros Hold.
  set (w := set_orb value
              (let v := clearInterruptFlag_CB1 v in
               if shouldClearCB2onWrite v then clearInterruptFlag_CB2 v else v)).
  assert (VIA2.poke 0x0 value v = Some (VIA2.updatePB w)) as -> by reflexivity.
  assert (pb w = pb v ∧ calls w = calls v ∧ orb w = value ∧ ddrb w = ddrb v
          ∧ env w = env v) as (Epb & Ecalls & Eorb & Eddrb & Eenv).
  { unfold w. cbv zeta. by destruct (shouldClearCB2onWrite _). }
  destruct (updatePB_stepper w) as (new & Hc & Hpb & Hm); [by rewrite Epb|].
  exists (VIA2.updatePB w), new. split; [done|].
  rewrite Hc, Ecalls. split; [done|]. split; [|done].
  rewrite Hpb, Eorb, Eddrb. unfold VIA2.portBexternal. by rewrite Eenv.
Qed.

End Stepper.

(** * VIA: timer 1 *)

Section Timer1.
Import VIA6522.
Local Open Scope Z_scope.
Context {P : Pipeline}.

Lemma truthy_lor_l a b m :
  truthy (Z.land a m) = true → truthy (Z.land (Z.lor a b) m) = true.
Proof.
  unfold truthy. rewrite !negb_true_iff, !Z.eqb_neq.
  intros Ha Hab. apply Ha. rewrite Z.land_lor_distr_l in Hab.
  by apply Z.lor_eq_0_iff in Hab as [? _].
Qed.

Lemma testbit_SET_BIT x n i :
  0 <= n → 0 <= i →
  Z.testbit (SET_BIT x n) i = Z.testbit x i || (i =? n).
Proof.
  intros Hn Hi. unfold SET_BIT. rewrite Z.lor_spec. f_equal.
  rewrite Z.shiftl_spec by done.
  destruct (Z.eqb_spec i n) as [->|Hne].
  - by rewrite Z.sub_diag.
  - destruct (Z.ltb_spec i n); [by rewrite Z.testbit_neg_r by lia|].
    apply (Z.bits_above_log2 1 (i - n)); simpl; lia.
Qed.

(** Once timer 1 has fired, a clock cycle neither sets its interrupt flag
    nor toggles PB7 nor touches its latches, and the marker stays. *)
Lemma execute_after_fired v :
  firedA v = true →
  firedA (execute v) = true
  ∧ pb7toggle (execute v) = pb7toggle v
  ∧ Z.testbit (ifr (execute v)) 6 = Z.testbit (ifr v) 6.
Proof.
  unfold firedA. intros Hf.
  assert (∃ t d o, executeTimer1 v
            = set_pb7timerOut o (set_feed (Z.lor (feed v) VIAPostOneShotA0)
                (set_delay d (set_t1 t v)))
            ∨ executeTimer1 v = set_delay d (set_t1 t v)) as (t & d & o & H1).
  { unfold executeTimer1.
    set (va := if truthy (Z.land (delay v) VIAReloadA2) then _ else v).
    set (vb := if truthy (Z.land (delay va) VIACountA1) then _ else va).
    assert (vb = set_t1 (t1 vb) v) as Hvb.
    { unfold vb, va. destruct (truthy (Z.land (delay v) VIAReloadA2));
        cbn [delay set_t1]; destruct (truthy (Z.land (delay v) VIACountA1));
        cbn [t1 set_t1]; by destruct v. }
    assert (feed vb = feed v ∧ delay vb = delay v ∧ pb7toggle vb = pb7toggle v
            ∧ acr vb = acr v) as (F1 & F2 & F3 & F4) by (by rewrite Hvb).
    exists (t1 vb), (delay v).
    destruct (t1 vb =? 0).
    - rewrite F1, Hf. cbn [negb].
      destruct (freeRunMode1 vb); cbn [acr set_feed feed pb7toggle];
        rewrite F1, F3, F4.
      + destruct (truthy (Z.land (acr v) 0x80)).
        * exists (pb7toggle v). left. rewrite Hvb at 1. by destruct v.
        * exists (pb7timerOut v). left. rewrite Hvb at 1. by destruct v.
      + destruct (truthy (Z.land (acr v) 0x80)).
        * exists (pb7toggle v). left. rewrite Hvb at 1. by destruct v.
        * exists (pb7timerOut v). left. rewrite Hvb at 1. by destruct v.
    - exists false. right. rewrite Hvb at 1. by destruct v. }
  assert (firedA (executeTimer1 v) = true
          ∧ pb7toggle (executeTimer1 v) = pb7toggle v
          ∧ ifr (executeTimer1 v) = ifr v) as (G1 & G2 & G3).
  { unfold firedA. destruct H1 as [-> | ->]; cbn; repeat split; try done.
    by apply truthy_lor_l. }
  clear H1. unfold execute. set (w1 := executeTimer1 v) in *. clearbody w1.
  assert (firedA (executeTimer2 w1) = true
          ∧ pb7toggle (executeTimer2 w1) = pb7toggle w1
          ∧ Z.testbit (ifr (executeTimer2 w1)) 6 = Z.testbit (ifr w1) 6)
    as (K1 & K2 & K3).
  { unfold executeTimer2, firedA in *.
    destruct (truthy (Z.land (delay w1) VIACountB1)); cbn [t2 set_t2 delay];
      destruct (_ =? 0); try done;
      destruct (negb _); try done;
      cbn [ifr set_ifr set_feed feed pb7toggle set_t2];
      (split; [by apply truthy_lor_l|]);
      (split; [done|]); rewrite testbit_SET_BIT by lia; apply orb_false_r. }
  set (w2 := executeTimer2 w1) in *. clearbody w2.
  unfold firedA in *.
  repeat match goal with
         | |- context [if ?c then _ else _] => destruct c
         end;
    cbn [feed pb7toggle ifr set_delay set_cb2_out set_ca2_out emit set_calls];
    rewrite K1, K2, K3, G2, G3; done.
Qed.

Lemma run_after_fired (n : nat) v :
  firedA v = true →
  firedA (run n v) = true
  ∧ pb7toggle (run n v) = pb7toggle v
  ∧ Z.testbit (ifr (run n v)) 6 = Z.testbit (ifr v) 6.
Proof.
  revert v. induction n as [|n IH]; intros v Hf; [done|].
  cbn [run]. destruct (execute_after_fired v Hf) as (H1 & H2 & H3).
  destruct (IH _ H1) as (I1 & I2 & I3). repeat split; congruence.
Qed.

Lemma run_add (n m : nat) v : run (n + m) v = run m (run n v).
Proof. revert v. induction n as [|n IH]; intros v; [done|]. apply IH. Qed.

(** Acknowledging the T1 flag, by a write of 0x40 to IFR, clears the flag
    and leaves the marker and PB7 as they are. *)
Lemma acknowledge_after_fired upa upb v :
  firedA v = true →
  ∃ v', poke upa upb 0xD 0x40 v = Some v'
    ∧ firedA v' = true
    ∧ pb7toggle v' = pb7toggle v
    ∧ Z.testbit (ifr v') 6 = false.
Proof.
  intros Hf. eexists. split; [reflexivity|].
  unfold IRQ.
  match goal with |- context [if ?c then _ else _] => destruct c end;
    unfold firedA in *;
    cbn [snd emit set_calls feed pb7toggle ifr set_ifr];
    (split; [done|]); (split; [done|]);
    rewrite Z.land_spec, Z.lnot_spec by lia; apply andb_false_r.
Qed.

End Timer1.

(** * VIA: the scenarios *)

Section Scenarios.
Import VIA6522.
Local Open Scope Z_scope.
Local Existing Instance pipeline.

(** Timer 1 fires exactly once, at cycle [k], in a run from [v]. *)
Lemma fires_once_at (k : nat) v :
  (∀ n : nat, (n < k)%nat →
     Z.testbit (ifr (run n v)) 6 = false ∧ pb7toggle (run n v) = pb7toggle v) →
  firedA (run k v) = true →
  Z.testbit (ifr (run k v)) 6 = true →
  pb7toggle (run k v) = negb (pb7toggle v) →
  ∀ n : nat,
    Z.testbit (ifr (run n v)) 6 = (k <=? n)%nat
    ∧ pb7toggle (run n v) = xorb (pb7toggle v) (k <=? n)%nat.
Proof.
  intros Hbefore Hf Hi Hp n.
  destruct (Nat.leb_spec k n) as [Hle|Hlt].
  - replace n with (k + (n - k))%nat by lia. rewrite run_add.
    destruct (run_after_fired (n - k) _ Hf) as (_ & -> & ->).
    rewrite Hi, Hp. by destruct (pb7toggle v).
  - destruct (Hbefore n Hlt) as [-> ->]. by destruct (pb7toggle v).
Qed.

(** The state a sequence of writes leads to, computed. *)
Ltac exists_loaded :=
  match goal with
  | |- ∃ v, ?e = Some v ∧ _ =>
      let r := eval vm_compute in e in
      match r with Some ?v => exists v end
  end.

Lemma below_7 (Q : nat → Prop) :
  Q 0%nat → Q 1%nat → Q 2%nat → Q 3%nat → Q 4%nat → Q 5%nat → Q 6%nat →
  ∀ n : nat, (n < 7)%nat → Q n.
Proof.
  intros ? ? ? ? ? ? ? n Hn.
  do 7 (destruct n as [|n]; [done|]). lia.
Qed.

(** C4, the scenario as the code runs it.  On a freshly reset VIA, after
    ACR = 0, T1 low latch = 5 and T1 high latch = 0, six cycles leave
    T1 = 1 with the T1 flag clear and PB7 untouched; the seventh cycle
    brings T1 to 0, sets IFR bit 6 and toggles PB7; the eighth wraps T1 to
    0xFFFF; in a run of any length the flag is set and PB7 toggled exactly
    once, at the seventh cycle; and once the flag has been acknowledged, by
    a write of 0x40 to IFR after any number of further cycles, no number
    of cycles sets it or toggles PB7 again. *)
Theorem one_shot_scenario :
  ∃ v0, loadTimer1 0x00 0x05 0x00 = Some v0
    ∧ t1 v0 = 5
    ∧ t1 (run 6 v0) = 1
    ∧ t1 (run 7 v0) = 0
    ∧ t1 (run 8 v0) = 0xFFFF
    ∧ (∀ n : nat,
         Z.testbit (ifr (run n v0)) 6 = (7 <=? n)%nat
         ∧ pb7toggle (run n v0) = xorb (pb7toggle fresh) (7 <=? n)%nat)
    ∧ ∀ m : nat,
        ∃ va, poke VIA1.updatePA VIA1.updatePB 0xD 0x40
                   (run (7 + m)%nat v0) = Some va
          ∧ ∀ n : nat,
              Z.testbit (ifr (run n va)) 6 = false
              ∧ pb7toggle (run n va) = negb (pb7toggle fresh).
Proof.
  exists_loaded. split; [vm_compute; reflexivity|].
  do 4 (split; [vm_compute; reflexivity|]).
  split.
  - match goal with |- ∀ n, _ ∧ _ = xorb ?b _ =>
      change b with false end.
    match goal with |- ∀ n, _ ∧ pb7toggle (run n ?v) = _ =>
      apply (fires_once_at 7 v) end;
      [apply below_7; vm_compute; done | vm_compute; reflexivity ..].
  - intros m.
    match goal with |- context [run (7 + m)%nat ?v] => set (v0 := v) end.
    assert (firedA (run 7 v0) = true) as Hf by (vm_compute; reflexivity).
    assert (pb7toggle (run 7 v0) = negb (pb7toggle fresh)) as Hp
      by (vm_compute; reflexivity).
    rewrite run_add.
    destruct (run_after_fired m _ Hf) as (Hfm & Hpm & _).
    destruct (acknowledge_after_fired VIA1.updatePA VIA1.updatePB _ Hfm)
      as (va & Hpoke & Hfa & Hpa & Hia).
    exists va. split; [done|]. intros n.
    destruct (run_after_fired n va Hfa) as (_ & -> & ->).
    split; [done|]. congruence.
Qed.

(** C4 as stated fails: after the three writes and six cycles, T1 is 1, not
    0xFFFF, and IFR bit 6 is still clear. *)
Lemma one_shot_six_cycles_no_fire :
  ∃ v0, loadTimer1 0x00 0x05 0x00 = Some v0
    ∧ t1 (run 6 v0) = 1
    ∧ t1 (run 6 v0) ≠ 0xFFFF
    ∧ Z.testbit (ifr (run 6 v0)) 6 = false
    ∧ pb7toggle (run 6 v0) = pb7toggle fresh.
Proof.
  exists_loaded. split; [vm_compute; reflexivity|].
  split; [vm_compute; reflexivity|].
  split; [vm_compute; congruence|].
  split; vm_compute; reflexivity.
Qed.

(** C1 on the code.  In free-run mode (ACR = 0x40) with latch 5, timer 1
    fires at cycle 7 and reloads (T1 = 4 at cycle 9); at its next expiry
    (T1 = 0 at cycle 13) nothing fires and nothing is reloaded (T1 = 0xFFFF
    at cycle 14); PB7 is toggled exactly once in a run of any length; and
    once the flag has been acknowledged by a write of 0x40 to IFR it is
    never set again. *)
Theorem free_run_fires_only_once :
  ∃ v0, loadTimer1 0x40 0x05 0x00 = Some v0
    ∧ freeRunMode1 v0 = true
    ∧ t1 (run 7 v0) = 0
    ∧ t1 (run 9 v0) = 4
    ∧ t1 (run 13 v0) = 0
    ∧ t1 (run 14 v0) = 0xFFFF
    ∧ (∀ n : nat,
         pb7toggle (run n v0) = xorb (pb7toggle fresh) (7 <=? n)%nat)
    ∧ ∃ v8, poke VIA1.updatePA VIA1.updatePB 0xD 0x40 (run 8 v0) = Some v8
        ∧ ∀ n : nat, Z.testbit (ifr (run n v8)) 6 = false.
Proof.
  exists_loaded. split; [vm_compute; reflexivity|].
  do 5 (split; [vm_compute; reflexivity|]).
  split.
  - match goal with |- ∀ n, _ = xorb ?b _ => change b with false end.
    intros n.
    match goal with |- pb7toggle (run n ?v) = _ =>
      refine (proj2 (fires_once_at 7 v _ _ _ _ n)) end;
      [apply below_7; vm_compute; done | vm_compute; reflexivity ..].
  - exists_loaded. split; [vm_compute; reflexivity|].
    intros n.
    match goal with |- Z.testbit (ifr (run n ?v)) 6 = _ =>
      destruct (run_after_fired n v) as (_ & _ & ->) end;
      [vm_compute; reflexivity ..].
Qed.

(** C2 on the code.  [VIA2::read] falls through to [VIA6522::peek]: reading
    address 4 with the T1 flag set returns the low byte of T1 and clears
    the flag, so the state after the read differs from the state before. *)
Theorem VIA2_read_clears_timer_flag :
  VIA2.read 0x4 (set_ifr 0x40 fresh) = Some (0xAA, fresh)
  ∧ ifr (set_ifr 0x40 fresh) = 0x40 ∧ ifr fresh = 0
  ∧ VIA1.read 0x4 (set_ifr 0x40 fresh) = Some (0xAA, set_ifr 0x40 fresh).
Proof.
  split; [vm_compute; reflexivity|].
  split; [vm_compute; reflexivity|].
  split; vm_compute; reflexivity.
Qed.

End Scenarios.

(** * VIA: the statements at a concrete VIA *)

Section ViaInstances.

Import VIA6522.
Local Open Scope Z_scope.

Lemma VIA2_poke_portB_steps_head_witness :
  Z.land (pb parked) 0x03 = 0
  ∧ ∃ v' new, VIA2.poke (P := pipeline) 0x0 0x01 parked = Some v'
      ∧ calls v' = calls parked ++ new
      ∧ pb v' = u8 (Z.lor (Z.land 0x01 (ddrb parked))
                          (Z.land (VIA2.portBexternal parked)
                                  (Z.lnot (ddrb parked))))
      ∧ headMoved (Z.land (pb v') 0x03) new.
Proof.
  split; [reflexivity|].
  apply (VIA2_poke_portB_steps_head (P := pipeline) parked 0x01).
  reflexivity.
Defined.

(** The three transitions of the scenario, computed: 00 to 01, 11 and 10. *)
Example stepper_transitions :
  calls <$> VIA2.poke (P := pipeline) 0x0 0x01 parked = Some [moveHeadUp]
  ∧ calls <$> VIA2.poke (P := pipeline) 0x0 0x03 parked = Some [moveHeadDown]
  ∧ calls <$> VIA2.poke (P := pipeline) 0x0 0x02 parked
    = Some [warn ("Unexpected stepper motor control sequence" ++ LF)%string].
Proof.
  split; [vm_compute; reflexivity|].
  split; vm_compute; reflexivity.
Qed.

End ViaInstances.

(** * Cartridge: further properties *)

Section MoreBankSwitching.
Import Cartridge.
Local Open Scope Z_scope.

(** Banking in the same chip twice: the second call changes nothing. *)
Theorem bankIn_twice c nr start size data :
  placed c nr start size data →
  ∃ c1, bankIn c nr = Some c1 ∧ bankIn c1 nr = Some c1.
Proof.
  intros Hp.
  destruct (decide (Z.of_nat nr = lastBlendedIn c)) as [Heq|Hne].
  - exists c. destruct Hp. split; by eapply bankIn_last.
  - destruct (bankIn_placed _ _ _ _ _ Hp Hne) as (rom' & _ & ->).
    eexists. split; [reflexivity|]. destruct Hp.
    by eapply bankIn_last.
Qed.

(** [bankIn] and [bankOut] stop at their assertions for an index outside
    the 64 slots and for a slot without a chip. *)
Theorem bank_switch_asserts c nr :
  (64 <= nr)%nat ∨ chip c !! nr = Some None →
  bankIn c nr = None ∧ bankOut c nr = None.
Proof.
  intros [Hnr|Hnull]; unfold bankIn, bankOut.
  - by rewrite (proj2 (Nat.ltb_ge _ _) Hnr).
  - destruct (nr <? 64)%nat; [|done]. cbn [negb]. by rewrite Hnull.
Qed.

(** [bankIn] never clears a flag: a block flagged before the call is
    flagged after it. *)
Theorem bankIn_never_clears c nr c' (k : nat) :
  bankIn c nr = Some c' →
  blendedIn c !! k = Some 1 → blendedIn c' !! k = Some 1.
Proof.
  unfold bankIn. destruct (negb _); [done|].
  destruct (mjoin (chip c !! nr)) as [data|]; [|done]. cbn [mbind option_bind].
  destruct (_ =? _); [by intros [= <-]|].
  destruct (chipStartAddress c !! nr) as [start|]; [|done].
  destruct (chipSize c !! nr) as [size|]; [|done]. cbn [mbind option_bind].
  destruct (negb _); [done|].
  destruct (memcpy _ _ _ _) as [rom'|]; [|done]. cbn [mbind option_bind].
  intros [= <-] Hk. cbn [blendedIn set_lastBlendedIn set_blendedIn].
  unfold fill. rewrite foldl_insert_seq_lookup. by case_decide.
Qed.

(** [bankOut] never sets a flag: a block not flagged before the call is
    not flagged after it. *)
Theorem bankOut_never_sets c nr c' (k : nat) :
  bankOut c nr = Some c' →
  blendedIn c !! k = Some 0 → blendedIn c' !! k = Some 0.
Proof.
  unfold bankOut. destruct (negb _); [done|].
  destruct (mjoin (chip c !! nr)) as [data|]; [|done]. cbn [mbind option_bind].
  destruct (chipStartAddress c !! nr) as [start|]; [|done].
  destruct (chipSize c !! nr) as [size|]; [|done]. cbn [mbind option_bind].
  destruct (negb _); [done|].
  intros [= <-] Hk. cbn [blendedIn set_blendedIn].
  unfold fill. rewrite foldl_insert_seq_lookup. by case_decide.
Qed.

Lemma bankIn_frame c nr c' :
  bankIn c nr = Some c' →
  chip c' = chip c ∧ chipStartAddress c' = chipStartAddress c
  ∧ chipSize c' = chipSize c ∧ gameLine c' = gameLine c
  ∧ exromLine c' = exromLine c
  ∧ length (rom c') = length (rom c)
  ∧ length (blendedIn c') = length (blendedIn c).
Proof.
  unfold bankIn. destruct (negb _); [done|].
  destruct (mjoin (chip c !! nr)) as [data|]; [|done]. cbn [mbind option_bind].
  destruct (_ =? _); [by intros [= <-]|].
  destruct (chipStartAddress c !! nr) as [start|]; [|done].
  destruct (chipSize c !! nr) as [size|]; [|done]. cbn [mbind option_bind].
  destruct (negb _); [done|].
  destruct (memcpy _ _ _ _) as [rom'|] eqn:Hcpy; [|done]. cbn [mbind option_bind].
  intros [= <-]. destruct (memcpy_spec _ _ _ _ _ Hcpy) as [Hlen _].
  cbn. rewrite fill_length. done.
Qed.

Lemma bankOut_frame c nr c' :
  bankOut c nr = Some c' →
  chip c' = chip c ∧ chipStartAddress c' = chipStartAddress c
  ∧ chipSize c' = chipSize c ∧ gameLine c' = gameLine c
  ∧ exromLine c' = exromLine c
  ∧ rom c' = rom c ∧ lastBlendedIn c' = lastBlendedIn c
  ∧ length (blendedIn c') = length (blendedIn c).
Proof.
  unfold bankOut. destruct (negb _); [done|].
  destruct (mjoin (chip c !! nr)) as [data|]; [|done]. cbn [mbind option_bind].
  destruct (chipStartAddress c !! nr) as [start|]; [|done].
  destruct (chipSize c !! nr) as [size|]; [|done]. cbn [mbind option_bind].
  destruct (negb _); [done|].
  intros [= <-]. cbn. rewrite fill_length. done.
Qed.

Lemma wellFormed_frame c c' :
  chip c' = chip c → chipStartAddress c' = chipStartAddress c →
  chipSize c' = chipSize c → length (rom c') = length (rom c) →
  length (blendedIn c') = length (blendedIn c) →
  (wellFormed c → wellFormed c') ∧ (presentIffSized c → presentIffSized c').
Proof.
  intros H1 H2 H3 H4 H5. unfold wellFormed, presentIffSized, slots64.
  rewrite H1, H2, H3, H4, H5. done.
Qed.

(** Bank switching keeps a cartridge within its C types, and keeps chips
    present exactly in the slots of positive size. *)
Theorem bank_switch_keeps_wellFormed c nr c' :
  bankIn c nr = Some c' ∨ bankOut c nr = Some c' →
  wellFormed c → presentIffSized c →
  wellFormed c' ∧ presentIffSized c'.
Proof.
  intros [H|H] Hwf Hp.
  - destruct (bankIn_frame _ _ _ H) as (? & ? & ? & _ & _ & ? & ?).
    split; by eapply wellFormed_frame.
  - destruct (bankOut_frame _ _ _ H) as (? & ? & ? & _ & _ & Hr & _ & ?).
    split; eapply wellFormed_frame; try done; by rewrite Hr.
Qed.

End MoreBankSwitching.

Section MoreChipLoading.
Import Cartridge.
Local Open Scope Z_scope.

Lemma loadChip_valid c nr crt :
  let start := u16 (getChipAddr crt nr) in
  let size := u16 (getChipSize crt nr) in
  let data := getChipData crt nr in
  (nr < 64)%nat → slots64 c →
  Z.of_nat (length (rom c)) = sizeof_rom → length (blendedIn c) = 16%nat →
  0x8000 <= start → size <= 0xFFFF - start →
  size <= Z.of_nat (length data) →
  ∃ c', loadChip c nr crt true = Some (c', [])
    ∧ placed c' nr start size (take (Z.to_nat size) data)
    ∧ (∀ j : nat, j ≠ nr →
         chip c' !! j = chip c !! j
         ∧ chipStartAddress c' !! j = chipStartAddress c !! j
         ∧ chipSize c' !! j = chipSize c !! j)
    ∧ rom c' = rom c ∧ blendedIn c' = blendedIn c
    ∧ lastBlendedIn c' = lastBlendedIn c
    ∧ gameLine c' = gameLine c ∧ exromLine c' = exromLine c.
Proof.
  intros start size data Hnr (L1 & L2 & L3) Hrom Hbl Hlow Hhigh Hdata.
  assert (0 <= size) by (unfold size, u16; apply Z.mod_pos_bound; lia).
  unfold loadChip. fold start size data.
  rewrite (proj2 (Nat.ltb_lt _ _) Hnr). cbn [negb].
  rewrite (proj2 (Z.ltb_ge _ _)) by lia.
  rewrite (proj2 (Z.ltb_ge _ _)) by lia.
  rewrite (proj2 (Z.leb_le _ _)) by lia. cbn [negb].
  eexists. split; [reflexivity|].
  split; [|split; [|done]].
  - split; cbn; try done; try lia.
    + apply list_lookup_insert_eq. lia.
    + apply list_lookup_insert_eq. lia.
    + apply list_lookup_insert_eq. lia.
    + rewrite length_take. lia.
  - intros j Hj. cbn. by rewrite !list_lookup_insert_ne.
Qed.

(** A chip with a valid placement is loaded into its slot: [loadChip]
    emits no diagnostic, the slot becomes a placed chip holding the first
    [size] bytes of the container's data, and nothing else changes. *)
Theorem loadChip_places c nr crt :
  let start := u16 (getChipAddr crt nr) in
  let size := u16 (getChipSize crt nr) in
  let data := getChipData crt nr in
  (nr < 64)%nat → slots64 c →
  Z.of_nat (length (rom c)) = sizeof_rom → length (blendedIn c) = 16%nat →
  0x8000 <= start → size <= 0xFFFF - start →
  size <= Z.of_nat (length data) →
  ∃ c', loadChip c nr crt true = Some (c', [])
    ∧ placed c' nr start size (take (Z.to_nat size) data)
    ∧ (∀ j : nat, j ≠ nr →
         chip c' !! j = chip c !! j
         ∧ chipStartAddress c' !! j = chipStartAddress c !! j
         ∧ chipSize c' !! j = chipSize c !! j)
    ∧ rom c' = rom c ∧ blendedIn c' = blendedIn c
    ∧ lastBlendedIn c' = lastBlendedIn c
    ∧ gameLine c' = gameLine c ∧ exromLine c' = exromLine c.
Proof. apply loadChip_valid. Qed.

(** From the constructor to the first bank: a valid chip 0 loaded into a
    new cartridge is banked in by [powerup], which sends the two line
    notifications; afterwards [rom] holds the chip's bytes from offset
    [start - 0x8000] and [lastBlendedIn] is 0. *)
Theorem powerup_banks_chip0 crt :
  let start := u16 (getChipAddr crt 0) in
  let size := u16 (getChipSize crt 0) in
  let data := getChipData crt 0 in
  0x8000 <= start → size <= 0xFFFF - start →
  size <= Z.of_nat (length data) →
  ∃ c1 c2, loadChip init 0 crt true = Some (c1, [])
    ∧ powerup c1 = Some (c2, [gameLineHasChanged; exromLineHasChanged])
    ∧ lastBlendedIn c2 = 0
    ∧ (∀ j : nat, Z.of_nat j < size →
         rom c2 !! (Z.to_nat (start - 0x8000) + j)%nat = data !! j)
    ∧ (∀ k : nat,
         blendedIn c2 !! k
         = if inBlockRange start size k then Some 1 else blendedIn init !! k).
Proof.
  intros start size data Hlow Hhigh Hdata.
  assert (0 <= size) by (unfold size, u16; apply Z.mod_pos_bound; lia).
  destruct (loadChip_valid init 0 crt) as (c1 & Hload & Hp & _ & Hr & Hb & Hl & _);
    [lia|apply init_slots64|reflexivity|reflexivity|done..|].
  fold start size data in Hp.
  assert (Z.of_nat 0 ≠ lastBlendedIn c1) as Hne by (rewrite Hl; cbn; lia).
  destruct (bankIn_placed _ _ _ _ _ Hp Hne) as (rom' & Hcpy & Hin).
  destruct (memcpy_spec _ _ _ _ _ Hcpy) as [_ Hrom].
  match type of Hin with _ = Some ?s => set (c2 := s) in * end.
  assert (lastBlendedIn c2 = Z.of_nat 0) as Hlast by reflexivity.
  assert (∀ k : nat,
            blendedIn c2 !! k
            = if inBlockRange start size k then Some 1
              else blendedIn c1 !! k) as Hflags.
  { intros k. destruct Hp. apply fill_lookup; lia. }
  change rom' with (rom c2) in Hrom. clearbody c2.
  exists c1, c2. split; [done|].
  split.
  { unfold powerup. destruct Hp as [_ Hchip _ _ _ _ _ _ _].
    rewrite Hchip. cbn [mjoin option_join]. rewrite Hin. done. }
  split; [done|]. split.
  - intros j Hj. rewrite Hrom.
    rewrite (proj2 (Z.leb_le _ _)) by lia.
    rewrite (proj2 (Z.ltb_lt _ _)) by lia. cbn [andb].
    replace (Z.to_nat (start - 32768) + j - Z.to_nat (start - 32768))%nat
      with j by lia.
    apply lookup_take_lt. lia.
  - intros k. by rewrite Hflags, Hb.
Qed.

End MoreChipLoading.

Section Accounting.
Import Cartridge.
Local Open Scope Z_scope.

Lemma chipPresent_false_size c i :
  wellFormed c → presentIffSized c → (i < 64)%nat →
  chipPresent c i = false → nth i (chipSize c) 0 = 0.
Proof.
  intros Hwf Hp Hi Hnp.
  destruct (wellFormed_slot c i Hwf Hi) as (start & size & ch & E1 & E2 & E3 & ? & ?).
  rewrite nth_lookup, E2. cbn.
  unfold chipPresent in Hnp. rewrite E3 in Hnp. cbn in Hnp.
  destruct ch as [data|]; [done|].
  destruct (Z.ltb_spec 0 size) as [Hpos|]; [|lia].
  destruct (proj1 (Hp i size E2) Hpos) as [data Hd]. congruence.
Qed.

Lemma bytes_loop c (idx : list nat) acc :
  wellFormed c → presentIffSized c →
  Forall (λ i, (i < 64)%nat) idx →
  0 <= acc → acc + 65540 * Z.of_nat (length idx) < 4294967296 →
  foldl (λ result i,
           if chipPresent c i then u32 (result + nth i (chipSize c) 0)
           else result) acc idx
  = acc + Z.of_nat (length (concat (map (slotBytes c) idx)))
    - 4 * Z.of_nat (length idx).
Proof.
  intros Hwf Hp Hidx. revert acc.
  induction Hidx as [|i idx Hi _ IH]; intros acc Hacc Hfit;
    cbn [foldl map concat length].
  - lia.
  - destruct (slotBytes_length c i Hwf Hp Hi) as [Hlen Hrange].
    cbn [length] in Hfit. rewrite length_app.
    destruct (chipPresent c i) eqn:Hpres.
    + replace (u32 (acc + nth i (chipSize c) 0))
        with (acc + nth i (chipSize c) 0)
        by (unfold u32; rewrite Z.mod_small; lia).
      rewrite IH by lia. lia.
    + pose proof (chipPresent_false_size c i Hwf Hp Hi Hpres).
      rewrite IH by lia. lia.
Qed.

(** The size of a snapshot is a fixed 33043 bytes (the two lines, 64
    placements and sizes, [rom], the flags and [lastBlendedIn]) plus the
    bytes of the chips, as [numberOfBytes] counts them. *)
Theorem stateSize_numberOfBytes c :
  wellFormed c → presentIffSized c →
  stateSize c = 33043 + numberOfBytes c.
Proof.
  intros Hwf Hp. rewrite (stateSize_slots c Hwf Hp). unfold numberOfBytes.
  pose proof (slots_length_bound c (seq 0 64) Hwf Hp (seq_below 64)) as Hb.
  rewrite bytes_loop; [|done|done|apply seq_below|lia|rewrite length_seq; lia].
  rewrite length_seq. unfold sizeof_rom, sizeof_blendedIn. lia.
Qed.

Lemma chips_loop c (idx : list nat) acc :
  0 <= acc → acc + Z.of_nat (length idx) < 4294967296 →
  foldl (λ result i, if chipPresent c i then u32 (result + 1) else result)
        acc idx
  = acc + Z.of_nat (length (List.filter (chipPresent c) idx)).
Proof.
  revert acc. induction idx as [|i idx IH]; intros acc Hacc Hfit;
    cbn [foldl List.filter length] in *.
  - lia.
  - destruct (chipPresent c i).
    + replace (u32 (acc + 1)) with (acc + 1)
        by (unfold u32; rewrite Z.mod_small; lia).
      rewrite IH by lia. cbn [length]. lia.
    + rewrite IH by lia. done.
Qed.

Lemma filter_length_one_more (p q : nat → bool) (idx : list nat) (nr : nat) :
  NoDup idx → nr ∈ idx → p nr = false → q nr = true →
  (∀ j, j ≠ nr → q j = p j) →
  length (List.filter q idx) = S (length (List.filter p idx)).
Proof.
  intros Hnd Hin Hp Hq Hother.
  induction Hnd as [|i idx Hni Hnd IH]; [by apply elem_of_nil in Hin|].
  cbn [List.filter]. apply elem_of_cons in Hin as [<-|Hin].
  - rewrite Hp, Hq. cbn [length]. f_equal.
    clear IH. induction idx as [|j idx IHi]; [done|].
    cbn [List.filter]. apply not_elem_of_cons in Hni as [Hne Hni].
    apply NoDup_cons in Hnd as [_ Hnd].
    rewrite Hother by done. destruct (p j); cbn [length]; rewrite IHi; done.
  - assert (i ≠ nr) by (intros ->; done).
    rewrite Hother by done. destruct (p i); cbn [length]; rewrite IH; done.
Qed.

(** [numberOfChips] counts the populated slots: loading a valid chip into
    an unpopulated slot raises it by one. *)
Theorem loadChip_numberOfChips c nr crt c' :
  (nr < 64)%nat → slots64 c → chip c !! nr = Some None →
  0x8000 <= u16 (getChipAddr crt nr) →
  loadChip c nr crt true = Some (c', []) →
  numberOfChips c' = numberOfChips c + 1.
Proof.
  intros Hnr (L1 & L2 & L3) Hnull Hlow. unfold loadChip.
  rewrite (proj2 (Nat.ltb_lt _ _) Hnr). cbn [negb].
  rewrite (proj2 (Z.ltb_ge _ _)) by lia.
  destruct (_ <? _); [done|]. cbn [negb].
  destruct (negb _); [done|]. intros [= <-].
  unfold numberOfChips.
  rewrite !chips_loop by (rewrite ?length_seq; lia).
  rewrite (filter_length_one_more (chipPresent c) _ (seq 0 64) nr).
  - lia.
  - apply NoDup_seq.
  - apply elem_of_seq. lia.
  - unfold chipPresent. by rewrite Hnull.
  - unfold chipPresent. cbn [chip set_chip set_chipSize set_chipStartAddress].
    by rewrite list_lookup_insert_eq by lia.
  - intros j Hj. unfold chipPresent.
    cbn [chip set_chip set_chipSize set_chipStartAddress].
    by rewrite list_lookup_insert_ne.
Qed.

End Accounting.

Section Truncated.
Import Cartridge.
Local Open Scope Z_scope.

Lemma read8_length buf x rest :
  read8 buf = Some (x, rest) → length buf = S (length rest).
Proof. destruct buf; [done|]. by intros [= _ <-]. Qed.

Lemma read16_length buf x rest :
  read16 buf = Some (x, rest) → length buf = S (S (length rest)).
Proof.
  unfold read16. destruct (read8 buf) as [[lo b1]|] eqn:E1; [|done].
  cbn [mbind option_bind].
  destruct (read8 b1) as [[hi b2]|] eqn:E2; [|done].
  cbn [mbind option_bind]. intros [= _ <-].
  apply read8_length in E1, E2. lia.
Qed.

Lemma readBlock_length buf n blk rest :
  0 <= n → readBlock buf n = Some (blk, rest) →
  Z.of_nat (length buf) = n + Z.of_nat (length rest).
Proof.
  intros Hn. unfold readBlock. destruct (Z.leb_spec n (Z.of_nat (length buf))); [|done].
  intros [= _ <-]. rewrite length_drop. lia.
Qed.

Lemma loadChipSlot_length c buf i c' rest :
  loadChipSlot (c, buf) i = Some (c', rest) →
  (4 + length rest <= length buf)%nat.
Proof.
  unfold loadChipSlot.
  destruct (read16 buf) as [[start b1]|] eqn:E1; [|done]. cbn [mbind option_bind].
  destruct (read16 b1) as [[size b2]|] eqn:E2; [|done]. cbn [mbind option_bind].
  apply read16_length in E1, E2.
  destruct (Z.ltb_spec 0 size).
  - destruct (readBlock b2 size) as [[data b3]|] eqn:E3; [|done].
    cbn [mbind option_bind]. intros [= _ <-].
    apply readBlock_length in E3; lia.
  - intros [= _ <-]. lia.
Qed.

Lemma load_loop_length (idx : list nat) c buf c' rest :
  foldl (λ acc i, st ← acc; loadChipSlot st i) (Some (c, buf)) idx
  = Some (c', rest) →
  (4 * length idx + length rest <= length buf)%nat.
Proof.
  revert c buf. induction idx as [|i idx IH]; intros c buf; cbn [foldl length].
  - intros [= _ <-]. lia.
  - cbn [mbind option_bind].
    destruct (loadChipSlot (c, buf) i) as [[c1 b1]|] eqn:E.
    + intros H. apply IH in H. apply loadChipSlot_length in E. lia.
    + intros H. exfalso. clear -H.
      induction idx as [|j idx IHi]; [done|]. by apply IHi.
Qed.

(** A snapshot shorter than the 33043 bytes every cartridge takes is
    refused: [loadFromBuffer] runs out of bytes and yields nothing. *)
Theorem loadFromBuffer_truncated c0 buf :
  Z.of_nat (length buf) < 33043 → loadFromBuffer c0 buf = None.
Proof.
  intros Hshort. unfold loadFromBuffer.
  destruct (loadFromBuffer_reads c0 buf) as [[c rest]|] eqn:Hr; [|done].
  exfalso. revert Hr. unfold loadFromBuffer_reads.
  destruct (read8 buf) as [[g b1]|] eqn:E1; [|done]. cbn [mbind option_bind].
  destruct (read8 b1) as [[e b2]|] eqn:E2; [|done]. cbn [mbind option_bind].
  destruct (foldl _ _ (seq 0 64)) as [[c1 b3]|] eqn:E3; [|done].
  cbn [mbind option_bind].
  destruct (readBlock b3 sizeof_rom) as [[r b4]|] eqn:E4; [|done].
  cbn [mbind option_bind].
  destruct (readBlock b4 sizeof_blendedIn) as [[f b5]|] eqn:E5; [|done].
  cbn [mbind option_bind].
  destruct (read8 b5) as [[l b6]|] eqn:E6; [|done]. cbn [mbind option_bind].
  intros _.
  apply read8_length in E1, E2, E6.
  apply load_loop_length in E3. rewrite length_seq in E3.
  apply readBlock_length in E4; [|done].
  apply readBlock_length in E5; [|done].
  unfold sizeof_rom, sizeof_blendedIn in *. lia.
Qed.

End Truncated.

(** * VIA: further properties *)

Section SevenBits.
Import VIA6522.
Local Open Scope Z_scope.

Lemma sevenBits_land x m : sevenBits x → sevenBits (Z.land x m).
Proof.
  unfold sevenBits. intros H.
  rewrite <- Z.land_assoc, (Z.land_comm m), Z.land_assoc. by rewrite H.
Qed.

Lemma sevenBits_CLR_BIT x n : sevenBits x → sevenBits (CLR_BIT x n).
Proof. apply sevenBits_land. Qed.

Lemma sevenBits_lor x m : sevenBits x → sevenBits m → sevenBits (Z.lor x m).
Proof.
  unfold sevenBits. intros Hx Hm. by rewrite Z.land_lor_distr_l, Hx, Hm.
Qed.

Lemma sevenBits_SET_BIT x n :
  sevenBits x → sevenBits (Z.shiftl 1 n) → sevenBits (SET_BIT x n).
Proof. apply sevenBits_lor. Qed.

Lemma sevenBits_mask y : sevenBits (Z.land y 0x7F).
Proof.
  unfold sevenBits. by rewrite <- Z.land_assoc, Z.land_diag.
Qed.

Lemma sevenBits_no_bit7 x : sevenBits x → Z.land x 0x80 = 0.
Proof.
  unfold sevenBits. intros <-. rewrite <- Z.land_assoc.
  change (Z.land 0x7F 0x80) with 0. apply Z.land_0_r.
Qed.

End SevenBits.

(** Proof steps shared by the register lemmas: [regs] computes projections
    of updated states, [split_ifs] follows every branch, [seven] closes a
    goal on the stored flag bits. *)
Module ViaTactics.
Import VIA6522.

Ltac regs :=
  cbn [pa ca1 ca2 ca2_out pb cb1 cb2 cb2_out ddra ddrb ora orb ira irb t1 t2
       t1_latch_lo t1_latch_hi t2_latch_lo pb7toggle pb7timerOut pcr acr ier
       ifr sr delay feed env calls
       set_pa set_ca1 set_cb1 set_ca2_out set_pb set_cb2_out set_ddra set_ddrb
       set_ora set_orb set_t1 set_t2 set_t1_latch_lo set_t1_latch_hi
       set_t2_latch_lo set_pb7toggle set_pb7timerOut set_pcr set_acr set_ier
       set_ifr set_sr set_delay set_feed set_calls emit
       clearInterruptFlag_CA1 clearInterruptFlag_CA2 clearInterruptFlag_CB1
       clearInterruptFlag_CB2 clearInterruptFlag_SR clearInterruptFlag_T1
       clearInterruptFlag_T2 fst snd mbind option_bind] in *.

Ltac split_ifs :=
  repeat match goal with
         | |- context [if ?c then _ else _] => destruct c
         | |- context [match ?c with _ => _ end] =>
             match type of c with
             | Z => fail 1
             | positive => fail 1
             | _ => destruct c
             end
         end.

Ltac seven :=
  regs; unfold flagsStored in *; regs;
  repeat match goal with H : _ ∧ _ |- _ => destruct H end;
  repeat split;
  repeat first
    [ assumption
    | apply sevenBits_mask
    | apply sevenBits_CLR_BIT
    | apply sevenBits_land
    | apply sevenBits_SET_BIT; [|reflexivity]
    | apply sevenBits_lor; [|reflexivity] ].

End ViaTactics.

Section Bit7.
Import VIA6522 ViaTactics.
Local Open Scope Z_scope.
Context {P : Pipeline}.

Lemma flagsStored_reset v : flagsStored (reset v).
Proof. split; reflexivity. Qed.

Lemma flagsStored_executeTimer1 v :
  flagsStored v → flagsStored (executeTimer1 v).
Proof. intros H. unfold executeTimer1. split_ifs; seven. Qed.

Lemma flagsStored_executeTimer2 v :
  flagsStored v → flagsStored (executeTimer2 v).
Proof. intros H. unfold executeTimer2. split_ifs; seven. Qed.

Lemma flagsStored_execute v : flagsStored v → flagsStored (execute v).
Proof.
  intros H. apply flagsStored_executeTimer1, flagsStored_executeTimer2 in H.
  unfold execute. set (w := executeTimer2 _) in *. clearbody w.
  split_ifs; seven.
Qed.


(** Outside the sixteen registers the base class stops at its assertion. *)
Lemma base_range upa upb a :
  ¬ (0 <= a <= 0xF) →
  (∀ v, peek upa upb a v = None)
  ∧ (∀ vpeek v, read vpeek a v = None)
  ∧ (∀ x v, poke upa upb a x v = None).
Proof.
  intros Ha. unfold peek, read, poke.
  destruct (Z.leb_spec 0 a), (Z.leb_spec a 0xF); try lia; done.
Qed.

Lemma sixteen a :
  0 <= a <= 0xF →
  a = 0 ∨ a = 1 ∨ a = 2 ∨ a = 3 ∨ a = 4 ∨ a = 5 ∨ a = 6 ∨ a = 7 ∨ a = 8
  ∨ a = 9 ∨ a = 10 ∨ a = 11 ∨ a = 12 ∨ a = 13 ∨ a = 14 ∨ a = 15.
Proof. lia. Qed.

End Bit7.

Module AddressTactics.
Import VIA6522.
Local Open Scope Z_scope.

Ltac far_address a H :=
  destruct a as [|a|a];
  [ lia
  | do 4 (destruct a as [a|a|]; try lia);
    cbv beta iota delta [VIA1.peek VIA1.read VIA1.poke
                         VIA2.peek VIA2.read VIA2.poke];
    first [ apply (proj1 (base_range _ _ _ H))
          | apply (proj1 (proj2 (base_range VIA1.updatePA VIA1.updatePB _ H)))
          | apply (proj2 (proj2 (base_range _ _ _ H))) ]
  | cbv beta iota delta [VIA1.peek VIA1.read VIA1.poke
                         VIA2.peek VIA2.read VIA2.poke];
    first [ apply (proj1 (base_range _ _ _ H))
          | apply (proj1 (proj2 (base_range VIA1.updatePA VIA1.updatePB _ H)))
          | apply (proj2 (proj2 (base_range _ _ _ H))) ] ].

Ltac each_address a H :=
  destruct (sixteen a H)
    as [->|[->|[->|[->|[->|[->|[->|[->|[->|[->|[->|[->|[->|[->|[->| ->]]]]]]]]]]]]]]].

End AddressTactics.

Section Accesses.
Import VIA6522 ViaTactics AddressTactics.
Local Open Scope Z_scope.
Context {P : Pipeline}.

(** Both VIAs stop at the assertion of the base class for an address
    outside 0x0..0xF, on every kind of access. *)
Lemma out_of_range k a :
  ¬ (0 <= a <= 0xF) →
  (∀ v, peekOf k a v = None)
  ∧ (∀ v, readOf k a v = None)
  ∧ (∀ x v, pokeOf k a x v = None).
Proof.
  intros H. destruct k; cbn [peekOf readOf pokeOf];
    (split; [|split]); intros; far_address a H.
Qed.


Lemma flagsStored_IRQ v : flagsStored v → flagsStored (snd (IRQ v)).
Proof. intros H. unfold IRQ. split_ifs; seven. Qed.

Lemma flagsStored_updatePA1 v : flagsStored v → flagsStored (VIA1.updatePA v).
Proof. intros H. unfold VIA1.updatePA. seven. Qed.
Lemma flagsStored_updatePB1 v : flagsStored v → flagsStored (VIA1.updatePB v).
Proof. intros H. unfold VIA1.updatePB. seven. Qed.
Lemma flagsStored_updatePA2 v : flagsStored v → flagsStored (VIA2.updatePA v).
Proof. intros H. unfold VIA2.updatePA. seven. Qed.
Lemma flagsStored_updatePB2 v : flagsStored v → flagsStored (VIA2.updatePB v).
Proof. intros H. unfold VIA2.updatePB. cbv zeta. split_ifs; seven. Qed.

Lemma flagsStored_peekORA upa v :
  (∀ w, flagsStored w → flagsStored (upa w)) →
  flagsStored v → flagsStored (snd (peekORA upa v)).
Proof.
  intros Hupa H. unfold peekORA. cbv zeta. cbn [snd]. apply Hupa.
  set (m := Z.land (Z.shiftr (pcr (clearInterruptFlag_CA1 v)) 1) 0x07).
  clearbody m.
  destruct m as [|m|m]; [| do 3 (try destruct m as [m|m|]) |]; seven.
Qed.

Lemma flagsStored_peekORB upb v :
  (∀ w, flagsStored w → flagsStored (upb w)) →
  flagsStored v → flagsStored (snd (peekORB upb v)).
Proof.
  intros Hupb H. unfold peekORB. cbv zeta. cbn [snd]. apply Hupb.
  set (m := Z.land (Z.shiftr (pcr (clearInterruptFlag_CB1 v)) 5) 0x07).
  clearbody m.
  destruct m as [|m|m]; [| do 3 (try destruct m as [m|m|]) |]; seven.
Qed.

Lemma flagsStored_base_peek upa upb a v x v' :
  (∀ w, flagsStored w → flagsStored (upa w)) →
  (∀ w, flagsStored w → flagsStored (upb w)) →
  peek upa upb a v = Some (x, v') → flagsStored v → flagsStored v'.
Proof.
  intros Hupa Hupb Heq H.
  destruct (decide (0 <= a <= 0xF)) as [Ha|Ha];
    [|by rewrite (proj1 (base_range upa upb a Ha)) in Heq].
  revert Heq. each_address a Ha; unfold peek;
    cbn [Z.leb Z.compare negb andb]; split_ifs; try done;
    try (intros [= _ <-]; seven; fail).
  - destruct (peekORB upb v) as [y w] eqn:E. intros [= _ <-].
    change w with (snd (y, w)). rewrite <- E. by apply flagsStored_peekORB.
  - destruct (peekORA upa v) as [y w] eqn:E. intros [= _ <-].
    change w with (snd (y, w)). rewrite <- E. by apply flagsStored_peekORA.
Qed.

Lemma flagsStored_base_poke upa upb a x v v' :
  (∀ w, flagsStored w → flagsStored (upa w)) →
  (∀ w, flagsStored w → flagsStored (upb w)) →
  poke upa upb a x v = Some v' → flagsStored v → flagsStored v'.
Proof.
  intros Hupa Hupb Heq H.
  destruct (decide (0 <= a <= 0xF)) as [Ha|Ha];
    [|by rewrite (proj2 (proj2 (base_range upa upb a Ha))) in Heq].
  revert Heq. each_address a Ha; unfold poke;
    cbn [Z.leb Z.compare negb andb]; cbv zeta;
    try (intros [= <-]; first [apply Hupa | apply Hupb | apply flagsStored_IRQ];
         split_ifs; seven; fail);
    split_ifs; intros [= <-]; seven.
Qed.


Lemma flagsStored_emit c v : flagsStored v → flagsStored (emit c v).
Proof. intros H. seven. Qed.

Lemma flagsStored_peek1 a v x v' :
  VIA1.peek a v = Some (x, v') → flagsStored v → flagsStored v'.
Proof.
  unfold VIA1.peek. intros Heq H.
  refine (flagsStored_base_peek _ _ _ _ _ _ flagsStored_updatePA1
            flagsStored_updatePB1 Heq _).
  destruct a as [|a|a]; try done.
  do 4 (try destruct a as [a|a|]); try done; by apply flagsStored_emit.
Qed.

Lemma flagsStored_peek2 a v x v' :
  VIA2.peek a v = Some (x, v') → flagsStored v → flagsStored v'.
Proof.
  intros Heq H.
  assert (∀ b y w, peek VIA2.updatePA VIA2.updatePB b v = Some (y, w) →
                   flagsStored w) as Hbase.
  { intros b y w E.
    exact (flagsStored_base_peek _ _ _ _ _ _ flagsStored_updatePA2
             flagsStored_updatePB2 E H). }
  destruct (decide (0 <= a <= 0xF)) as [Ha|Ha];
    [|pose proof (proj1 (out_of_range Via2 a Ha) v) as E;
      cbn [peekOf] in E; congruence].
  revert Heq. each_address a Ha;
    cbv beta iota delta [VIA2.peek]; try (by apply Hbase);
    (destruct (peek _ _ _ v) as [[y w]|] eqn:E; [|done]);
    cbn [mbind option_bind]; apply Hbase in E.
  - intros [= _ <-]. by apply flagsStored_updatePB2.
  - unfold VIA2.latchedPortA. split_ifs; intros [= _ <-]; seven.
  - unfold VIA2.latchedPortA. split_ifs; intros [= _ <-]; seven.
Qed.

Lemma flagsStored_read k a v x v' :
  readOf k a v = Some (x, v') → flagsStored v → flagsStored v'.
Proof.
  intros Heq H.
  destruct (decide (0 <= a <= 0xF)) as [Ha|Ha];
    [|by rewrite (proj1 (proj2 (out_of_range k a Ha))) in Heq].
  revert Heq. destruct k; cbn [readOf]; each_address a Ha;
    cbv beta iota delta [VIA1.read VIA2.read read];
    cbn [Z.leb Z.compare negb andb];
    try (intros [= _ <-]; done);
    try (intros E; by apply flagsStored_peek1 in E);
    try (intros E;
         exact (flagsStored_base_peek _ _ _ _ _ _ flagsStored_updatePA2
                  flagsStored_updatePB2 E H));
    unfold VIA2.latchedPortA; split_ifs; intros [= _ <-]; seven.
Qed.

Lemma flagsStored_poke k a x v v' :
  pokeOf k a x v = Some v' → flagsStored v → flagsStored v'.
Proof.
  intros Heq H.
  assert (∀ b y w, poke VIA1.updatePA VIA1.updatePB b y v = Some w →
                   flagsStored w) as Hb1.
  { intros b y w E.
    exact (flagsStored_base_poke _ _ _ _ _ _ flagsStored_updatePA1
             flagsStored_updatePB1 E H). }
  assert (∀ b y w, poke VIA2.updatePA VIA2.updatePB b y v = Some w →
                   flagsStored w) as Hb2.
  { intros b y w E.
    exact (flagsStored_base_poke _ _ _ _ _ _ flagsStored_updatePA2
             flagsStored_updatePB2 E H). }
  destruct (decide (0 <= a <= 0xF)) as [Ha|Ha];
    [|by rewrite (proj2 (proj2 (out_of_range k a Ha))) in Heq].
  revert Heq. destruct k; cbn [pokeOf]; each_address a Ha;
    cbv beta iota delta [VIA1.poke VIA2.poke];
    try (by apply Hb1); try (by apply Hb2);
    try (destruct (poke _ _ _ _ v) as [w|] eqn:E; [|done];
         cbn [mbind option_bind];
         first [apply Hb1 in E | apply Hb2 in E]);
    cbv zeta; intros [= <-];
    repeat match goal with
           | |- flagsStored (emit _ _) => apply flagsStored_emit
           | |- flagsStored (VIA1.updatePA _) => apply flagsStored_updatePA1
           | |- flagsStored (VIA1.updatePB _) => apply flagsStored_updatePB1
           | |- flagsStored (VIA2.updatePA _) => apply flagsStored_updatePA2
           | |- flagsStored (VIA2.updatePB _) => apply flagsStored_updatePB2
           end;
    split_ifs; seven.
Qed.

Lemma flagsStored_setCA1 b v : flagsStored v → flagsStored (setCA1 b v).
Proof. intros H. unfold setCA1. cbv zeta. split_ifs; seven. Qed.

Lemma flagsStored_setCB1 b v : flagsStored v → flagsStored (setCB1 b v).
Proof. intros H. unfold setCB1. cbv zeta. split_ifs; seven. Qed.

Lemma bit7_never_stored_aux k v :
  reachable k v → flagsStored v.
Proof.
  induction 1 as [v|v v' _ IH Hacc].
  - apply flagsStored_reset.
  - destruct Hacc.
    + by apply flagsStored_execute.
    + destruct k; [by eapply flagsStored_peek1|by eapply flagsStored_peek2].
    + by eapply flagsStored_read.
    + by eapply flagsStored_poke.
    + by apply flagsStored_setCA1.
    + by apply flagsStored_setCB1.
Qed.

(** Bit 7 of IFR and IER is never stored: after a reset, whatever clock
    cycles, reads, writes and CA1/CB1 edges follow, both registers hold
    seven-bit values, on either VIA and for any pipeline masks. *)
Theorem bit7_never_stored k v :
  reachable k v → flagsStored v.
Proof. apply bit7_never_stored_aux. Qed.

(** [peek] answers on every register of a VIA in a state reached from a
    reset (the two assertions on bit 7 at register 0xD hold), and stops at
    the range assertion for any other address. *)
Theorem peek_total_on_registers k a v :
  reachable k v →
  if decide (0 <= a <= 0xF)
  then ∃ x v', peekOf k a v = Some (x, v')
  else peekOf k a v = None.
Proof.
  intros Hr. apply bit7_never_stored_aux in Hr.
  case_decide as Ha; [|by apply out_of_range].
  destruct Hr as [Hi He].
  apply sevenBits_no_bit7 in Hi, He.
  destruct k; cbn [peekOf]; each_address a Ha;
    cbv beta iota delta [VIA1.peek VIA2.peek peek];
    cbn [Z.leb Z.compare negb andb mbind option_bind];
    regs; rewrite ?Hi, ?He; cbn [Z.eqb negb andb];
    repeat (progress
      (cbn [Z.leb Z.compare Pos.compare Pos.compare_cont negb andb
            mbind option_bind];
       repeat match goal with
              | |- context [peekORA ?a ?b] => destruct (peekORA a b) as [? ?]
              | |- context [peekORB ?a ?b] => destruct (peekORB a b) as [? ?]
              | |- context [VIA2.latchedPortA ?a] =>
                  destruct (VIA2.latchedPortA a) as [? ?]
              end));
    eauto.
Qed.

End Accesses.

Section Reads.
Import VIA6522 ViaTactics AddressTactics.
Local Open Scope Z_scope.
Context {P : Pipeline}.

(** [VIA1::read] is an inspection: on each of the sixteen registers it
    returns a value and the state it was given; elsewhere it stops at the
    range assertion. *)
Theorem VIA1_read_leaves_state a v :
  if decide (0 <= a <= 0xF)
  then ∃ x, VIA1.read a v = Some (x, v)
  else VIA1.read a v = None.
Proof.
  case_decide as Ha; [|by apply (out_of_range Via1)].
  each_address a Ha;
    cbv beta iota delta [VIA1.read read VIA1.peek peek];
    cbn [Z.leb Z.compare Pos.compare Pos.compare_cont negb andb]; eauto.
Qed.

(** On the registers 0x0 to 0x9, 0xD and 0xE, [VIA1::read] returns the
    value [VIA1::peek] would return, without the side effects of [peek]. *)
Theorem VIA1_read_agrees_with_peek a v :
  flagsStored v →
  0 <= a <= 9 ∨ a = 0xD ∨ a = 0xE →
  ∃ x v', VIA1.peek a v = Some (x, v') ∧ VIA1.read a v = Some (x, v).
Proof.
  intros [Hi He] Ha.
  pose proof (sevenBits_no_bit7 _ Hi) as Hi7.
  pose proof (sevenBits_no_bit7 _ He) as He7.
  assert (0 <= a <= 0xF) as Hr by lia.
  each_address a Hr; try lia;
    cbv beta iota delta [VIA1.read read VIA1.peek peek];
    cbn [Z.leb Z.compare Pos.compare Pos.compare_cont negb andb];
    try (eexists _, _; split; reflexivity).
  - unfold peekORB. cbv zeta.
    set (m := Z.land (Z.shiftr (pcr (clearInterruptFlag_CB1 v)) 5) 0x07).
    clearbody m.
    destruct m as [|m|m]; [| do 3 (try destruct m as [m|m|]) |];
      (eexists _, _; split; [reflexivity|]);
      unfold VIA1.updatePB, VIA1.portBinternal, VIA1.portBexternal; regs;
      reflexivity.
  - unfold peekORA. cbv zeta.
    set (m := Z.land (Z.shiftr (pcr (clearInterruptFlag_CA1
                                       (emit (releaseIrqLine ATN) v))) 1) 0x07).
    clearbody m.
    destruct m as [|m|m]; [| do 3 (try destruct m as [m|m|]) |];
      (eexists _, _; split; [reflexivity|]);
      unfold VIA1.updatePA, VIA1.portAinternal, VIA1.portAexternal; regs;
      reflexivity.
  - rewrite Hi7, He7. cbn [Z.eqb andb negb].
    unfold sevenBits in Hi. rewrite Hi. eauto.
Qed.

(** [VIA2::read] leaves the state alone on every register but the three
    whose [peek] acknowledges a flag (0x4, 0x8, 0xA), in a state with
    seven-bit flag registers and port A latching enabled. *)
Theorem VIA2_read_leaves_state a v :
  0 <= a <= 0xF → a ≠ 0x4 → a ≠ 0x8 → a ≠ 0xA →
  flagsStored v → inputLatchingEnabledA v = true →
  ∃ x, VIA2.read a v = Some (x, v).
Proof.
  intros Hr H4 H8 HA [Hi He] Hl.
  pose proof (sevenBits_no_bit7 _ Hi) as Hi7.
  pose proof (sevenBits_no_bit7 _ He) as He7.
  each_address a Hr; try lia;
    cbv beta iota delta [VIA2.read peek VIA2.latchedPortA];
    cbn [Z.leb Z.compare Pos.compare Pos.compare_cont negb andb];
    rewrite ?Hl, ?Hi7, ?He7; cbn [Z.eqb andb negb]; eauto.
Qed.

End Reads.

Section Arming.
Import VIA6522 ViaTactics AddressTactics.
Local Open Scope Z_scope.
Context {P : Pipeline}.

Lemma truthy_land_lnot x m : truthy (Z.land (Z.land x (Z.lnot m)) m) = false.
Proof.
  rewrite <- Z.land_assoc, (Z.land_comm (Z.lnot m)), Z.land_lnot_diag.
  by rewrite Z.land_0_r.
Qed.

Lemma testbit_CLR_BIT x n : 0 <= n → Z.testbit (CLR_BIT x n) n = false.
Proof.
  intros Hn. unfold CLR_BIT.
  rewrite Z.land_spec, Z.lnot_spec, Z.shiftl_spec, Z.sub_diag by lia.
  apply andb_false_r.
Qed.

Lemma executeTimer2_t1 v :
  t1 (executeTimer2 v) = t1 v
  ∧ t1_latch_lo (executeTimer2 v) = t1_latch_lo v
  ∧ t1_latch_hi (executeTimer2 v) = t1_latch_hi v
  ∧ pb7toggle (executeTimer2 v) = pb7toggle v
  ∧ Z.testbit (ifr (executeTimer2 v)) 6 = Z.testbit (ifr v) 6.
Proof.
  unfold executeTimer2. split_ifs; regs; repeat split; try done;
    rewrite testbit_SET_BIT by lia; apply orb_false_r.
Qed.

Lemma execute_tail v :
  t1 (execute v) = t1 (executeTimer1 v)
  ∧ t1_latch_lo (execute v) = t1_latch_lo (executeTimer1 v)
  ∧ t1_latch_hi (execute v) = t1_latch_hi (executeTimer1 v)
  ∧ pb7toggle (execute v) = pb7toggle (executeTimer1 v)
  ∧ Z.testbit (ifr (execute v)) 6 = Z.testbit (ifr (executeTimer1 v)) 6.
Proof.
  unfold execute.
  destruct (executeTimer2_t1 (executeTimer1 v)) as (E1 & E2 & E3 & E4 & E5).
  set (w := executeTimer2 _) in *. clearbody w.
  split_ifs; regs; done.
Qed.

Lemma poke_T1CH_loads upa upb value v :
  ∃ v', poke upa upb 0x5 value v = Some v'
    ∧ t1_latch_hi v' = value
    ∧ t1 v' = HI_LO value (t1_latch_lo v)
    ∧ Z.testbit (ifr v') 6 = false
    ∧ firedA v' = false
    ∧ t1 (execute v') = t1 v'.
Proof.
  eexists. split; [reflexivity|]. regs.
  split; [done|]. split; [done|].
  split; [by apply testbit_CLR_BIT|].
  split; [apply truthy_land_lnot|].
  match goal with |- t1 (execute ?s) = _ => set (w := s) end.
  destruct (execute_tail w) as (-> & _).
  unfold executeTimer1.
  assert (truthy (Z.land (delay w) VIACountA1) = false) as Hc
    by apply truthy_land_lnot.
  destruct (truthy (Z.land (delay w) VIAReloadA2)); regs; rewrite Hc;
    split_ifs; regs; reflexivity.
Qed.

(** A write to T1C-H (register 5) loads timer 1 from the latches, clears
    the T1 flag and the "fired" marker, and holds the count for a cycle:
    after the next clock cycle T1 still has the loaded value. *)
Theorem poke_T1CH_arms upa upb value v :
  ∃ v', poke upa upb 0x5 value v = Some v'
    ∧ t1_latch_hi v' = value
    ∧ t1 v' = HI_LO value (t1_latch_lo v)
    ∧ Z.testbit (ifr v') 6 = false
    ∧ firedA v' = false
    ∧ t1 (execute v') = t1 v'.
Proof. apply poke_T1CH_loads. Qed.

End Arming.

Section Countdown.
Import VIA6522 ViaTactics AddressTactics.
Local Open Scope Z_scope.
Context {P : Pipeline}.

Lemma HI_LO_range hi lo : 0 <= HI_LO hi lo < 65536.
Proof. unfold HI_LO, u16. apply Z.mod_pos_bound. lia. Qed.

(** One cycle of a timer 1 that is above [m + 1], as is its latch: it
    stays above [m], and does not fire. *)
Lemma execute_counts_down v m :
  0 <= m → m + 1 <= t1 v < 65536 → m + 1 <= latch1 v →
  m <= t1 (execute v) < 65536
  ∧ latch1 (execute v) = latch1 v
  ∧ (t1 (execute v) ≠ 0 →
     pb7toggle (execute v) = pb7toggle v
     ∧ Z.testbit (ifr (execute v)) 6 = Z.testbit (ifr v) 6).
Proof.
  intros Hm Ht Hl. unfold latch1 in *.
  destruct (execute_tail v) as (-> & -> & -> & -> & ->).
  pose proof (HI_LO_range (t1_latch_hi v) (t1_latch_lo v)) as Hr.
  unfold executeTimer1.
  set (va := if truthy (Z.land (delay v) VIAReloadA2) then _ else v).
  assert (m + 1 <= t1 va < 65536 ∧ t1_latch_hi va = t1_latch_hi v
          ∧ t1_latch_lo va = t1_latch_lo v ∧ pb7toggle va = pb7toggle v
          ∧ ifr va = ifr v ∧ delay va = delay v) as (Ha & A1 & A2 & A3 & A4 & A5).
  { unfold va. destruct (truthy _); regs; repeat split; try done; lia. }
  clearbody va.
  set (vb := if truthy (Z.land (delay va) VIACountA1) then _ else va).
  assert (m <= t1 vb < 65536 ∧ t1_latch_hi vb = t1_latch_hi v
          ∧ t1_latch_lo vb = t1_latch_lo v ∧ pb7toggle vb = pb7toggle v
          ∧ ifr vb = ifr v) as (Hb & B1 & B2 & B3 & B4).
  { unfold vb. destruct (truthy _); regs; repeat split; try done; try lia;
      unfold u16; rewrite Z.mod_small; lia. }
  clearbody vb.
  destruct (Z.eqb_spec (t1 vb) 0) as [H0|H0].
  - split_ifs; regs; rewrite ?B1, ?B2; (split; [lia|]); (split; [done|]);
      intros; lia.
  - rewrite B1, B2, B3, B4. split; [done|]. split; done.
Qed.


Lemma run_counts_down (n : nat) v m :
  Z.of_nat n <= m → m + 1 <= t1 v < 65536 → m + 1 <= latch1 v →
  m + 1 - Z.of_nat n <= t1 (run n v) < 65536
  ∧ pb7toggle (run n v) = pb7toggle v
  ∧ Z.testbit (ifr (run n v)) 6 = Z.testbit (ifr v) 6.
Proof.
  revert v m. induction n as [|n IH]; intros v m Hn Ht Hl; cbn [run].
  - split; [lia|done].
  - destruct (execute_counts_down v m) as (E1 & E2 & E3); [lia|done|done|].
    destruct E3 as [E3 E4]; [lia|].
    destruct (IH (execute v) (m - 1)) as (I1 & I2 & I3);
      [lia|lia|rewrite E2; lia|].
    split; [lia|]. split; congruence.
Qed.

(** Timer 1 cannot fire early.  After a write to T1C-H that loads the value
    [N] from the latches, the first [N] clock cycles neither set the T1
    flag nor toggle PB7, whatever the pipeline masks and whatever the
    pipeline held: each cycle counts down by one at most, and the first one
    not at all. *)
Theorem timer1_no_early_fire upa upb value v (n : nat) :
  let N := HI_LO value (t1_latch_lo v) in
  Z.of_nat n <= N →
  ∃ v', poke upa upb 0x5 value v = Some v'
    ∧ Z.testbit (ifr (run n v')) 6 = false
    ∧ pb7toggle (run n v') = pb7toggle v
    ∧ N - Z.of_nat n <= t1 (run n v').
Proof.
  intros N Hn.
  destruct (poke_T1CH_loads upa upb value v)
    as (v' & Hp & Hhi & Ht & Hflag & _ & Hhold).
  exists v'. split; [done|].
  assert (pb7toggle v' = pb7toggle v ∧ t1_latch_lo v' = t1_latch_lo v)
    as [Htog Hlo].
  { revert Hp. unfold poke. cbn [Z.leb Z.compare negb andb]. cbv zeta.
    intros [= <-]. regs. done. }
  fold N in Ht.
  pose proof (HI_LO_range value (t1_latch_lo v)) as Hr. fold N in Hr.
  destruct n as [|n]; [cbn [run]; rewrite Ht; repeat split; try done; lia|].
  cbn [run].
  assert (latch1 v' = N) as Hl by (unfold latch1; by rewrite Hhi, Hlo).
  destruct (execute_counts_down v' (N - 1)) as (_ & E2 & E3);
    [lia|lia|lia|].
  destruct E3 as [E3 E4]; [rewrite Hhold; lia|].
  destruct (run_counts_down n (execute v') (N - 1)) as (I1 & I2 & I3);
    [lia|rewrite Hhold; lia|rewrite E2; lia|].
  rewrite I2, I3, E3, E4. repeat split; try done. lia.
Qed.

(** A timer 1 that has fired stays quiet: in any mode and for any pipeline
    masks, no number of clock cycles sets its flag or toggles PB7 again
    while the "fired" marker is in [feed]. *)
Theorem timer1_fires_once_per_load (n : nat) v :
  firedA v = true →
  firedA (run n v) = true
  ∧ pb7toggle (run n v) = pb7toggle v
  ∧ Z.testbit (ifr (run n v)) 6 = Z.testbit (ifr v) 6.
Proof. apply run_after_fired. Qed.

Lemma truthy_lor_r a b m :
  truthy (Z.land b m) = true → truthy (Z.land (Z.lor a b) m) = true.
Proof. rewrite Z.lor_comm. apply truthy_lor_l. Qed.

Lemma execute_after_firedB v :
  firedB v = true →
  firedB (execute v) = true
  ∧ Z.testbit (ifr (execute v)) 5 = Z.testbit (ifr v) 5.
Proof.
  unfold firedB. intros [Hf Hd]%andb_true_iff.
  assert (truthy (Z.land (feed (executeTimer1 v)) VIAPostOneShotB0) = true
          ∧ truthy (Z.land (delay (executeTimer1 v)) VIAPostOneShotB0) = true
          ∧ Z.testbit (ifr (executeTimer1 v)) 5 = Z.testbit (ifr v) 5)
    as (F1 & D1 & I1).
  { unfold executeTimer1. split_ifs; regs;
      repeat split; try done; try (by apply truthy_lor_l);
      rewrite testbit_SET_BIT by lia; apply orb_false_r. }
  unfold execute. set (w1 := executeTimer1 v) in *. clearbody w1.
  assert (truthy (Z.land (feed (executeTimer2 w1)) VIAPostOneShotB0) = true
          ∧ ifr (executeTimer2 w1) = ifr w1) as (F2 & I2).
  { unfold executeTimer2.
    destruct (truthy (Z.land (delay w1) VIACountB1)); regs; rewrite D1;
      cbn [negb]; split_ifs; regs; done. }
  set (w2 := executeTimer2 w1) in *. clearbody w2.
  split_ifs; regs; rewrite F2, I2, I1; (split; [|done]);
    cbn [andb]; by apply truthy_lor_r.
Qed.

(** Timer 2 is one-shot: while its "fired" marker is in [feed] and in
    [delay], as it is from the cycle after the timer fired, no number of
    clock cycles sets its flag (IFR bit 5) again, and the marker stays in
    both; only a write to T2C-H takes it out of [feed]. *)
Theorem timer2_fires_once_per_load (n : nat) v :
  firedB v = true →
  firedB (run n v) = true
  ∧ Z.testbit (ifr (run n v)) 5 = Z.testbit (ifr v) 5.
Proof.
  revert v. induction n as [|n IH]; intros v Hf; [done|].
  cbn [run]. destruct (execute_after_firedB v Hf) as (H1 & H2).
  destruct (IH _ H1) as (I1 & I2). split; congruence.
Qed.

(** A clock cycle works on the timers, the flags and the pipeline only: it
    leaves the ports, the direction, control and enable registers, the
    latches and the shift register alone, and the only call it can make is
    pulling down the interrupt line. *)
Theorem execute_frame v :
  ora (execute v) = ora v ∧ orb (execute v) = orb v
  ∧ ddra (execute v) = ddra v ∧ ddrb (execute v) = ddrb v
  ∧ pa (execute v) = pa v ∧ pb (execute v) = pb v
  ∧ pcr (execute v) = pcr v ∧ acr (execute v) = acr v
  ∧ ier (execute v) = ier v ∧ sr (execute v) = sr v
  ∧ t1_latch_lo (execute v) = t1_latch_lo v
  ∧ t1_latch_hi (execute v) = t1_latch_hi v
  ∧ t2_latch_lo (execute v) = t2_latch_lo v
  ∧ (calls (execute v) = calls v
     ∨ calls (execute v) = calls v ++ [pullDownIrqLine VIA]).
Proof.
  assert (∀ w, ora (executeTimer1 w) = ora w ∧ orb (executeTimer1 w) = orb w
    ∧ ddra (executeTimer1 w) = ddra w ∧ ddrb (executeTimer1 w) = ddrb w
    ∧ pa (executeTimer1 w) = pa w ∧ pb (executeTimer1 w) = pb w
    ∧ pcr (executeTimer1 w) = pcr w ∧ acr (executeTimer1 w) = acr w
    ∧ ier (executeTimer1 w) = ier w ∧ sr (executeTimer1 w) = sr w
    ∧ t1_latch_lo (executeTimer1 w) = t1_latch_lo w
    ∧ t1_latch_hi (executeTimer1 w) = t1_latch_hi w
    ∧ t2_latch_lo (executeTimer1 w) = t2_latch_lo w
    ∧ calls (executeTimer1 w) = calls w) as H1.
  { intros w. unfold executeTimer1. split_ifs; regs; done. }
  assert (∀ w, ora (executeTimer2 w) = ora w ∧ orb (executeTimer2 w) = orb w
    ∧ ddra (executeTimer2 w) = ddra w ∧ ddrb (executeTimer2 w) = ddrb w
    ∧ pa (executeTimer2 w) = pa w ∧ pb (executeTimer2 w) = pb w
    ∧ pcr (executeTimer2 w) = pcr w ∧ acr (executeTimer2 w) = acr w
    ∧ ier (executeTimer2 w) = ier w ∧ sr (executeTimer2 w) = sr w
    ∧ t1_latch_lo (executeTimer2 w) = t1_latch_lo w
    ∧ t1_latch_hi (executeTimer2 w) = t1_latch_hi w
    ∧ t2_latch_lo (executeTimer2 w) = t2_latch_lo w
    ∧ calls (executeTimer2 w) = calls w) as H2.
  { intros w. unfold executeTimer2. split_ifs; regs; done. }
  unfold execute.
  destruct (H2 (executeTimer1 v))
    as (A1 & A2 & A3 & A4 & A5 & A6 & A7 & A8 & A9 & A10 & A11 & A12 & A13 & A14).
  destruct (H1 v)
    as (B1 & B2 & B3 & B4 & B5 & B6 & B7 & B8 & B9 & B10 & B11 & B12 & B13 & B14).
  rewrite B1 in A1. rewrite B2 in A2. rewrite B3 in A3. rewrite B4 in A4.
  rewrite B5 in A5. rewrite B6 in A6. rewrite B7 in A7. rewrite B8 in A8.
  rewrite B9 in A9. rewrite B10 in A10. rewrite B11 in A11.
  rewrite B12 in A12. rewrite B13 in A13. rewrite B14 in A14.
  clear H1 H2 B1 B2 B3 B4 B5 B6 B7 B8 B9 B10 B11 B12 B13 B14.
  set (w := executeTimer2 _) in *. clearbody w.
  split_ifs; regs;
    rewrite A1, A2, A3, A4, A5, A6, A7, A8, A9, A10, A11, A12, A13, A14;
    repeat split; auto.
Qed.

End Countdown.

Section Ports.
Import VIA6522 ViaTactics AddressTactics.
Local Open Scope Z_scope.
Context {P : Pipeline}.

Lemma IRQ_calls v :
  calls (snd (IRQ v))
  = calls v ++ [if truthy (Z.land (ifr (snd (IRQ v))) (ier (snd (IRQ v))))
                then pullDownIrqLine VIA else releaseIrqLine VIA].
Proof.
  destruct (IRQ_registers v) as [-> ->]. unfold IRQ.
  by destruct (truthy _).
Qed.

(** After a write to IFR or IER the interrupt line follows the flags: it is
    pulled down when an enabled flag is left, and released otherwise. *)
Theorem flag_write_drives_irq_line k a x v :
  a = 0xD ∨ a = 0xE →
  ∃ v', pokeOf k a x v = Some v'
    ∧ calls v' = calls v
                 ++ [if truthy (Z.land (ifr v') (ier v'))
                     then pullDownIrqLine VIA else releaseIrqLine VIA].
Proof.
  intros [-> | ->]; destruct k; cbn [pokeOf];
    cbv beta iota delta [VIA1.poke VIA2.poke poke];
    cbn [Z.leb Z.compare Pos.compare Pos.compare_cont negb andb]; cbv zeta;
    (eexists; split; [reflexivity|]); rewrite IRQ_calls; f_equal;
    by destruct (truthy (Z.land x 0x80)).
Qed.

Lemma updatePB2_regs v :
  pb (VIA2.updatePB v)
  = u8 (Z.lor (Z.land (orb v) (ddrb v))
              (Z.land (VIA2.portBexternal v) (Z.lnot (ddrb v))))
  ∧ orb (VIA2.updatePB v) = orb v ∧ ddrb (VIA2.updatePB v) = ddrb v
  ∧ env (VIA2.updatePB v) = env v.
Proof.
  unfold VIA2.updatePB. cbv zeta. split_ifs; regs; done.
Qed.

Lemma peekORB_regs upb v :
  (∀ w, orb (upb w) = orb w ∧ ddrb (upb w) = ddrb w ∧ env (upb w) = env w) →
  ∃ w, snd (peekORB upb v) = upb w ∧ fst (peekORB upb v) = pb (upb w)
    ∧ orb w = orb v ∧ ddrb w = ddrb v ∧ env w = env v.
Proof.
  intros Hupb. unfold peekORB. cbv zeta. cbn [fst snd].
  eexists. split; [reflexivity|]. split; [reflexivity|].
  set (m := Z.land (Z.shiftr (pcr (clearInterruptFlag_CB1 v)) 5) 0x07).
  clearbody m.
  destruct m as [|m|m]; [| do 3 (try destruct m as [m|m|]) |]; regs; done.
Qed.

Lemma testbit_port x d e i :
  Z.testbit (u8 (Z.lor (Z.land x d) (Z.land e (Z.lnot d)))) i
  = (0 <=? i) && (i <? 8)
    && (if Z.testbit d i then Z.testbit x i else Z.testbit e i).
Proof.
  unfold u8. change 256 with (2 ^ 8).
  destruct (Z.leb_spec 0 i); [|by rewrite Z.testbit_neg_r by lia].
  destruct (Z.ltb_spec i 8).
  - rewrite Z.mod_pow2_bits_low by lia.
    rewrite Z.lor_spec, !Z.land_spec, Z.lnot_spec by lia.
    cbn [andb]. destruct (Z.testbit d i); cbn [negb].
    + by rewrite andb_true_r, andb_false_r, orb_false_r.
    + by rewrite andb_true_r, andb_false_r.
  - by rewrite Z.mod_pow2_bits_high by lia.
Qed.

(** Port B reads back line by line: after a write of [x] to ORB, a read of
    the port returns, on each of its eight lines, the bit written where
    DDRB makes the line an output and the external level where it is an
    input. *)
Theorem portB_reads_back k x v :
  ∃ v1 y v2, pokeOf k 0x0 x v = Some v1
    ∧ peekOf k 0x0 v1 = Some (y, v2)
    ∧ ∀ i, Z.testbit y i
           = (0 <=? i) && (i <? 8)
             && (if Z.testbit (ddrb v) i then Z.testbit x i
                 else Z.testbit (portBexternalOf k v) i).
Proof.
  set (w0 := let v := clearInterruptFlag_CB1 v in
             if shouldClearCB2onWrite v then clearInterruptFlag_CB2 v else v).
  assert (ddrb w0 = ddrb v ∧ env w0 = env v) as [D0 E0].
  { unfold w0. cbv zeta. split_ifs; regs; done. }
  destruct k; cbn [pokeOf peekOf portBexternalOf].
  - assert (∀ w, orb (VIA1.updatePB w) = orb w ∧ ddrb (VIA1.updatePB w) = ddrb w
                 ∧ env (VIA1.updatePB w) = env w) as Hup by done.
    set (v1 := emit (updateDevicePins x (ddrb w0)) (VIA1.updatePB (set_orb x w0))).
    assert (VIA1.poke 0x0 x v = Some v1) as -> by reflexivity.
    destruct (peekORB_regs VIA1.updatePB v1 Hup) as (w & Hs & Hf & Ho & Hd & He).
    exists v1, (fst (peekORB VIA1.updatePB v1)), (snd (peekORB VIA1.updatePB v1)).
    split; [done|]. split.
    { change (VIA1.peek 0x0 v1) with (Some (peekORB VIA1.updatePB v1)).
      by destruct (peekORB VIA1.updatePB v1). }
    intros i. rewrite Hf.
    unfold VIA1.updatePB at 1, VIA1.portBinternal, VIA1.portBexternal. regs.
    rewrite Ho, Hd, He. unfold v1. regs.
    unfold VIA1.updatePB, VIA1.portBinternal. regs. rewrite D0, E0.
    apply testbit_port.
  - assert (∀ w, orb (VIA2.updatePB w) = orb w ∧ ddrb (VIA2.updatePB w) = ddrb w
                 ∧ env (VIA2.updatePB w) = env w) as Hup
      by (intros w; by destruct (updatePB2_regs w) as (_ & ? & ? & ?)).
    set (v1 := VIA2.updatePB (set_orb x w0)).
    assert (VIA2.poke 0x0 x v = Some v1) as -> by reflexivity.
    destruct (peekORB_regs VIA2.updatePB v1 Hup) as (w & Hs & Hf & Ho & Hd & He).
    set (v2 := VIA2.updatePB (snd (peekORB VIA2.updatePB v1))).
    exists v1, (pb v2), v2.
    split; [done|]. split.
    { unfold v2. change (VIA2.peek 0x0 v1)
        with ('(_, v) ← Some (peekORB VIA2.updatePB v1);
              Some (pb (VIA2.updatePB v), VIA2.updatePB v)).
      by destruct (peekORB VIA2.updatePB v1). }
    intros i. unfold v2.
    destruct (updatePB2_regs (snd (peekORB VIA2.updatePB v1))) as (-> & _).
    rewrite Hs. destruct (Hup w) as (-> & -> & Hew).
    unfold VIA2.portBexternal. rewrite Hew, Ho, Hd, He.
    destruct (Hup (set_orb x w0)) as (Ho1 & Hd1 & He1).
    fold v1 in Ho1, Hd1, He1. rewrite Ho1, Hd1, He1. regs. rewrite D0, E0.
    apply testbit_port.
Qed.

(** Every write to ORB or to DDRB of VIA 1 hands the new pin states to the
    serial bus, once, as its last call. *)
Theorem VIA1_write_updates_device_pins x v :
  ∃ v0 v2, VIA1.poke 0x0 x v = Some v0
    ∧ calls v0 = calls v ++ [updateDevicePins x (ddrb v)]
    ∧ VIA1.poke 0x2 x v = Some v2
    ∧ calls v2 = calls v ++ [updateDevicePins (orb v) x].
Proof.
  eexists _, _. split; [reflexivity|]. split.
  - unfold VIA1.updatePB. cbv zeta. split_ifs; regs; done.
  - split; [reflexivity|]. unfold VIA1.updatePB. regs. done.
Qed.

Lemma testbit_lor_2 x i : Z.testbit (Z.lor x 0x02) i = Z.testbit x i || (i =? 1).
Proof.
  rewrite Z.lor_spec. f_equal.
  destruct (Z.leb_spec 0 i); [|rewrite Z.testbit_neg_r by lia; symmetry;
                                apply Z.eqb_neq; lia].
  change 0x02 with (Z.shiftl 1 1). rewrite Z.shiftl_spec by done.
  destruct (Z.eqb_spec i 1) as [->|Hne]; [done|].
  destruct (Z.ltb_spec i 1); [by rewrite Z.testbit_neg_r by lia|].
  apply (Z.bits_above_log2 1 (i - 1)); simpl; lia.
Qed.

(** A level change on CA1 records the level and raises IFR bit 1 exactly on
    the edge that PCR bit 0 selects (falling for 0, rising for 1); no other
    flag changes; and a read of port A on VIA 1 acknowledges the flag. *)
Theorem setCA1_flags_active_edge value v :
  ca1 (setCA1 value v) = value
  ∧ (∀ i, Z.testbit (ifr (setCA1 value v)) i
          = Z.testbit (ifr v) i
            || ((i =? 1)
                && activeEdge (truthy (Z.land (pcr v) 0x01)) (ca1 v) value))
  ∧ ∃ x v', VIA1.peek 0x1 (setCA1 value v) = Some (x, v')
      ∧ Z.testbit (ifr v') 1 = false.
Proof.
  split; [done|]. split.
  - intros i. unfold setCA1, activeEdge. cbv zeta.
    destruct (truthy (Z.land (pcr v) 0x01)) eqn:Ep, (ca1 v) eqn:Ec, value;
      cbn [negb andb]; regs; rewrite ?Ep, ?Ec; cbn [negb andb]; regs;
      rewrite ?testbit_lor_2;
      rewrite ?andb_true_r, ?andb_false_r, ?orb_false_r; done.
  - set (w := setCA1 value v). clearbody w.
    change (VIA1.peek 0x1 w)
      with (Some (peekORA VIA1.updatePA (emit (releaseIrqLine ATN) w))).
    unfold peekORA. cbv zeta.
    set (m := Z.land (Z.shiftr (pcr (clearInterruptFlag_CA1
                                       (emit (releaseIrqLine ATN) w))) 1) 0x07).
    clearbody m.
    destruct m as [|m|m]; [| do 3 (try destruct m as [m|m|]) |];
      (eexists _, _; split; [reflexivity|]);
      unfold VIA1.updatePA; regs; unfold CLR_BIT;
      rewrite ?Z.land_spec, Z.lnot_spec by lia;
      rewrite ?andb_false_r; done.
Qed.

End Ports.

(** * The further properties at concrete states *)

Section MoreCartridgeInstances.

Import Cartridge.
Local Open Scope Z_scope.

(** A computation that yields something yields its [default]. *)
Lemma Some_default {A} (d : A) (o : option A) :
  match o with Some _ => true | None => false end = true →
  o = Some (default d o).
Proof. by destruct o. Qed.

Lemma Some_quiet_default {A B} (d : A) (o : option (A * list B)) :
  match o with Some (_, []) => true | _ => false end = true →
  o = Some (default d (fst <$> o), []).
Proof. by destruct o as [[? [|]]|]. Qed.

Lemma bankIn_twice_witness :
  placed (oneChip 0x8000 0x2000) 0 0x8000 0x2000
         (replicate (Z.to_nat 0x2000) 0xAA)
  ∧ ∃ c1, bankIn (oneChip 0x8000 0x2000) 0 = Some c1
      ∧ bankIn c1 0 = Some c1.
Proof.
  split; [apply oneChip_placed; lia|].
  apply (bankIn_twice (oneChip 0x8000 0x2000) 0 0x8000 0x2000
           (replicate (Z.to_nat 0x2000) 0xAA)).
  apply oneChip_placed; lia.
Defined.

Lemma bank_switch_asserts_witness :
  ((64 <= 0)%nat ∨ chip init !! 0%nat = Some None)
  ∧ bankIn init 0 = None ∧ bankOut init 0 = None.
Proof.
  split; [right; reflexivity|].
  apply (bank_switch_asserts init 0). right. reflexivity.
Defined.

Lemma bankIn_never_clears_witness :
  bankIn stale 0 = Some staleIn
  ∧ blendedIn stale !! 9%nat = Some 1
  ∧ blendedIn staleIn !! 9%nat = Some 1.
Proof.
  split; [apply Some_default; vm_compute; reflexivity|].
  split; [reflexivity|].
  apply (bankIn_never_clears stale 0 staleIn 9).
  - apply Some_default; vm_compute; reflexivity.
  - reflexivity.
Defined.

Lemma bankOut_never_sets_witness :
  bankOut staleIn 0 = Some staleOut
  ∧ blendedIn staleIn !! 10%nat = Some 0
  ∧ blendedIn staleOut !! 10%nat = Some 0.
Proof.
  split; [apply Some_default; vm_compute; reflexivity|].
  split; [vm_compute; reflexivity|].
  apply (bankOut_never_sets staleIn 0 staleOut 10).
  - apply Some_default; vm_compute; reflexivity.
  - vm_compute; reflexivity.
Defined.

Lemma bank_switch_keeps_wellFormed_witness :
  (bankIn (oneChip 0x8000 0x2000) 0
   = Some (default init (bankIn (oneChip 0x8000 0x2000) 0))
   ∨ bankOut (oneChip 0x8000 0x2000) 0
     = Some (default init (bankIn (oneChip 0x8000 0x2000) 0)))
  ∧ wellFormed (oneChip 0x8000 0x2000)
  ∧ presentIffSized (oneChip 0x8000 0x2000)
  ∧ wellFormed (default init (bankIn (oneChip 0x8000 0x2000) 0))
  ∧ presentIffSized (default init (bankIn (oneChip 0x8000 0x2000) 0)).
Proof.
  split; [left; apply Some_default; vm_compute; reflexivity|].
  split; [apply oneChip_wellFormed; lia|].
  split; [apply oneChip_presentIffSized; lia|].
  apply (bank_switch_keeps_wellFormed (oneChip 0x8000 0x2000) 0).
  - left. apply Some_default; vm_compute; reflexivity.
  - apply oneChip_wellFormed; lia.
  - apply oneChip_presentIffSized; lia.
Defined.

Lemma loadChip_places_witness :
  (0 < 64)%nat ∧ slots64 init
  ∧ Z.of_nat (length (rom init)) = sizeof_rom
  ∧ length (blendedIn init) = 16%nat
  ∧ 0x8000 <= u16 (getChipAddr (uniformContainer 0x8000 0x2000) 0)
  ∧ u16 (getChipSize (uniformContainer 0x8000 0x2000) 0)
    <= 0xFFFF - u16 (getChipAddr (uniformContainer 0x8000 0x2000) 0)
  ∧ u16 (getChipSize (uniformContainer 0x8000 0x2000) 0)
    <= Z.of_nat (length (getChipData (uniformContainer 0x8000 0x2000) 0))
  ∧ ∃ c', loadChip init 0 (uniformContainer 0x8000 0x2000) true = Some (c', [])
      ∧ placed c' 0 (u16 (getChipAddr (uniformContainer 0x8000 0x2000) 0))
               (u16 (getChipSize (uniformContainer 0x8000 0x2000) 0))
               (take (Z.to_nat (u16 (getChipSize (uniformContainer 0x8000 0x2000) 0)))
                     (getChipData (uniformContainer 0x8000 0x2000) 0))
      ∧ (∀ j : nat, j ≠ 0%nat →
           chip c' !! j = chip init !! j
           ∧ chipStartAddress c' !! j = chipStartAddress init !! j
           ∧ chipSize c' !! j = chipSize init !! j)
      ∧ rom c' = rom init ∧ blendedIn c' = blendedIn init
      ∧ lastBlendedIn c' = lastBlendedIn init
      ∧ gameLine c' = gameLine init ∧ exromLine c' = exromLine init.
Proof.
  split; [lia|]. split; [apply init_slots64|].
  split; [reflexivity|]. split; [reflexivity|].
  split; [vm_compute; congruence|]. split; [vm_compute; congruence|].
  split; [vm_compute; congruence|].
  apply (loadChip_places init 0 (uniformContainer 0x8000 0x2000)).
  - lia.
  - apply init_slots64.
  - reflexivity.
  - reflexivity.
  - vm_compute; congruence.
  - vm_compute; congruence.
  - vm_compute; congruence.
Defined.

Lemma powerup_banks_chip0_witness :
  0x8000 <= u16 (getChipAddr (uniformContainer 0x8000 0x2000) 0)
  ∧ u16 (getChipSize (uniformContainer 0x8000 0x2000) 0)
    <= 0xFFFF - u16 (getChipAddr (uniformContainer 0x8000 0x2000) 0)
  ∧ u16 (getChipSize (uniformContainer 0x8000 0x2000) 0)
    <= Z.of_nat (length (getChipData (uniformContainer 0x8000 0x2000) 0))
  ∧ ∃ c1 c2, loadChip init 0 (uniformContainer 0x8000 0x2000) true = Some (c1, [])
      ∧ powerup c1 = Some (c2, [gameLineHasChanged; exromLineHasChanged])
      ∧ lastBlendedIn c2 = 0
      ∧ (∀ j : nat,
           Z.of_nat j < u16 (getChipSize (uniformContainer 0x8000 0x2000) 0) →
           rom c2 !! (Z.to_nat (u16 (getChipAddr (uniformContainer 0x8000 0x2000) 0)
                                - 0x8000) + j)%nat
           = getChipData (uniformContainer 0x8000 0x2000) 0 !! j)
      ∧ (∀ k : nat,
           blendedIn c2 !! k
           = if inBlockRange (u16 (getChipAddr (uniformContainer 0x8000 0x2000) 0))
                             (u16 (getChipSize (uniformContainer 0x8000 0x2000) 0)) k
             then Some 1 else blendedIn init !! k).
Proof.
  split; [vm_compute; congruence|]. split; [vm_compute; congruence|].
  split; [vm_compute; congruence|].
  apply (powerup_banks_chip0 (uniformContainer 0x8000 0x2000)).
  - vm_compute; congruence.
  - vm_compute; congruence.
  - vm_compute; congruence.
Defined.

Lemma stateSize_numberOfBytes_witness :
  wellFormed (oneChip 0x8000 0x2000)
  ∧ presentIffSized (oneChip 0x8000 0x2000)
  ∧ stateSize (oneChip 0x8000 0x2000)
    = 33043 + numberOfBytes (oneChip 0x8000 0x2000).
Proof.
  split; [apply oneChip_wellFormed; lia|].
  split; [apply oneChip_presentIffSized; lia|].
  apply (stateSize_numberOfBytes (oneChip 0x8000 0x2000)).
  - apply oneChip_wellFormed; lia.
  - apply oneChip_presentIffSized; lia.
Defined.

Lemma loadChip_loaded8k :
  loadChip init 0 (uniformContainer 0x8000 0x2000) true = Some (loaded8k, []).
Proof. apply Some_quiet_default. vm_compute. reflexivity. Qed.

Lemma loadChip_numberOfChips_witness :
  (0 < 64)%nat ∧ slots64 init ∧ chip init !! 0%nat = Some None
  ∧ 0x8000 <= u16 (getChipAddr (uniformContainer 0x8000 0x2000) 0)
  ∧ loadChip init 0 (uniformContainer 0x8000 0x2000) true = Some (loaded8k, [])
  ∧ numberOfChips loaded8k = numberOfChips init + 1.
Proof.
  split; [lia|]. split; [apply init_slots64|]. split; [reflexivity|].
  split; [vm_compute; congruence|]. split; [apply loadChip_loaded8k|].
  apply (loadChip_numberOfChips init 0 (uniformContainer 0x8000 0x2000) loaded8k).
  - lia.
  - apply init_slots64.
  - reflexivity.
  - vm_compute; congruence.
  - apply loadChip_loaded8k.
Defined.

Lemma loadFromBuffer_truncated_witness :
  Z.of_nat (length [0; 1; 2]) < 33043
  ∧ loadFromBuffer init [0; 1; 2] = None.
Proof.
  split; [simpl; lia|].
  apply (loadFromBuffer_truncated init [0; 1; 2]). simpl; lia.
Defined.

End MoreCartridgeInstances.

Section MoreViaInstances.

Import VIA6522.
Local Open Scope Z_scope.

Lemma bit7_never_stored_witness :
  reachable (P := pipeline) Via2 (execute (P := pipeline) fresh)
  ∧ flagsStored (execute (P := pipeline) fresh).
Proof.
  assert (reachable (P := pipeline) Via2 (execute (P := pipeline) fresh)) as Hr.
  { apply (reachable_access Via2 fresh).
    - apply (reachable_reset Via2 blank).
    - apply access_execute. }
  split; [exact Hr|].
  apply (bit7_never_stored (P := pipeline) Via2 (execute (P := pipeline) fresh)).
  exact Hr.
Defined.

Lemma peek_total_on_registers_witness :
  reachable (P := pipeline) Via2 fresh
  ∧ if decide (0 <= 0xD <= 0xF)
    then ∃ x v', peekOf (P := pipeline) Via2 0xD fresh = Some (x, v')
    else peekOf (P := pipeline) Via2 0xD fresh = None.
Proof.
  split; [apply (reachable_reset Via2 blank)|].
  apply (peek_total_on_registers (P := pipeline) Via2 0xD fresh).
  apply (reachable_reset Via2 blank).
Defined.

Lemma VIA1_read_agrees_with_peek_witness :
  flagsStored fresh
  ∧ (0 <= 0x4 <= 9 ∨ 0x4 = 0xD ∨ 0x4 = 0xE)
  ∧ ∃ x v', VIA1.peek (P := pipeline) 0x4 fresh = Some (x, v')
      ∧ VIA1.read (P := pipeline) 0x4 fresh = Some (x, fresh).
Proof.
  split; [split; reflexivity|]. split; [left; lia|].
  apply (VIA1_read_agrees_with_peek (P := pipeline) 0x4 fresh).
  - split; reflexivity.
  - left. lia.
Defined.

Lemma VIA2_read_leaves_state_witness :
  0 <= 0x1 <= 0xF ∧ 0x1 ≠ 0x4 ∧ 0x1 ≠ 0x8 ∧ 0x1 ≠ 0xA
  ∧ flagsStored latching ∧ inputLatchingEnabledA latching = true
  ∧ ∃ x, VIA2.read (P := pipeline) 0x1 latching = Some (x, latching).
Proof.
  split; [lia|]. split; [lia|]. split; [lia|]. split; [lia|].
  split; [split; reflexivity|]. split; [reflexivity|].
  apply (VIA2_read_leaves_state (P := pipeline) 0x1 latching).
  - lia.
  - lia.
  - lia.
  - lia.
  - split; reflexivity.
  - reflexivity.
Defined.

Lemma timer1_no_early_fire_witness :
  Z.of_nat 5 <= HI_LO 0x00 (t1_latch_lo (set_t1_latch_lo 0x05 fresh))
  ∧ ∃ v', poke (P := pipeline) VIA1.updatePA VIA1.updatePB 0x5 0x00
               (set_t1_latch_lo 0x05 fresh) = Some v'
      ∧ Z.testbit (ifr (run (P := pipeline) 5 v')) 6 = false
      ∧ pb7toggle (run (P := pipeline) 5 v')
        = pb7toggle (set_t1_latch_lo 0x05 fresh)
      ∧ HI_LO 0x00 (t1_latch_lo (set_t1_latch_lo 0x05 fresh)) - Z.of_nat 5
        <= t1 (run (P := pipeline) 5 v').
Proof.
  split; [vm_compute; congruence|].
  apply (timer1_no_early_fire (P := pipeline) VIA1.updatePA VIA1.updatePB
           0x00 (set_t1_latch_lo 0x05 fresh) 5).
  vm_compute; congruence.
Defined.

(** Timer 1 in free-run mode, fired once and acknowledged: the counter
    reaches 0 again after four cycles, and nothing fires in 100. *)
Lemma timer1_fires_once_per_load_witness :
  firedA (P := pipeline) expired1 = true
  ∧ (freeRunMode1 expired1 = true
     ∧ t1 expired1 = 4 ∧ t1 (run (P := pipeline) 4 expired1) = 0
     ∧ Z.testbit (ifr expired1) 6 = false)
  ∧ firedA (P := pipeline) (run (P := pipeline) 100 expired1) = true
  ∧ pb7toggle (run (P := pipeline) 100 expired1) = pb7toggle expired1
  ∧ Z.testbit (ifr (run (P := pipeline) 100 expired1)) 6
    = Z.testbit (ifr expired1) 6.
Proof.
  split; [vm_compute; reflexivity|].
  split.
  { split; [vm_compute; reflexivity|]. split; [vm_compute; reflexivity|].
    split; vm_compute; reflexivity. }
  apply (timer1_fires_once_per_load (P := pipeline) 100 expired1).
  vm_compute; reflexivity.
Defined.

(** Timer 2, fired once and acknowledged: the counter comes round to 0
    after 65534 cycles, and nothing fires in 65540. *)
Lemma timer2_fires_once_per_load_witness :
  firedB (P := pipeline) expired2 = true
  ∧ (t2 expired2 = 0xFFFE
     ∧ t2 (run (P := pipeline) (Z.to_nat 65534) expired2) = 0
     ∧ Z.testbit (ifr expired2) 5 = false)
  ∧ firedB (P := pipeline) (run (P := pipeline) (Z.to_nat 65540) expired2)
    = true
  ∧ Z.testbit (ifr (run (P := pipeline) (Z.to_nat 65540) expired2)) 5
    = Z.testbit (ifr expired2) 5.
Proof.
  split; [vm_compute; reflexivity|].
  split.
  { split; [vm_compute; reflexivity|]. split; vm_compute; reflexivity. }
  apply (timer2_fires_once_per_load (P := pipeline) (Z.to_nat 65540) expired2).
  vm_compute; reflexivity.
Defined.

Lemma flag_write_drives_irq_line_witness :
  (0xD = 0xD ∨ 0xD = 0xE)
  ∧ ∃ v', pokeOf (P := pipeline) Via1 0xD 0x40 fresh = Some v'
      ∧ calls v' = calls fresh
                   ++ [if truthy (Z.land (ifr v') (ier v'))
                       then pullDownIrqLine VIA else releaseIrqLine VIA].
Proof.
  split; [left; reflexivity|].
  apply (flag_write_drives_irq_line (P := pipeline) Via1 0xD 0x40 fresh).
  left. reflexivity.
Defined.

End MoreViaInstances.
